(** * Certificate management operator: the reconciliation core

    A shallow embedding of the controller of
    [certificate-management-operator] (package [controller], with the API
    types of package [v1alpha1]) and the properties of its renewal policy,
    certificate generator, secret synchronizer, workload correlator and
    finalizer handling.

    Conventions of the embedding:
    - a [time.Time] is an instant, an integer count of nanoseconds on one
      time line; a [time.Duration] is an [int64] count of nanoseconds,
      written as a [Z] with its wrap-around spelled out;
    - the object store behind [client.Client], the wall clock and the
      entropy source are fields of a [World] that every effectful function
      threads; each client call appends an [Event] to the trace it returns;
    - faults of the store are injected by an oracle indexed by the number of
      client calls made so far, so a statement quantified over all worlds
      covers every pattern of failures. *)

From Stdlib Require Import ZArith String Ascii List Bool Lia SpecFloat.
From Stdlib Require Import HexadecimalString.
From stdpp Require Import gmap strings list fin_maps.

Local Open Scope string_scope.
Local Open Scope Z_scope.

(** ** Machine integers *)

Definition wrap_uint64 (z : Z) : Z := z mod 2 ^ 64.

Definition wrap_int64 (z : Z) : Z := (z + 2 ^ 63) mod 2 ^ 64 - 2 ^ 63.

Definition minInt64 : Z := - 2 ^ 63.
Definition maxInt64 : Z := 2 ^ 63 - 1.

(** ** Package [time] of the Go standard library *)

Module time.

Definition Time : Type := Z.
Definition Duration : Type := Z.

Definition Nanosecond : Duration := 1.
Definition Microsecond : Duration := 1000 * Nanosecond.
Definition Millisecond : Duration := 1000 * Microsecond.
Definition Second : Duration := 1000 * Millisecond.
Definition Minute : Duration := 60 * Second.
Definition Hour : Duration := 60 * Minute.

Definition minDuration : Duration := minInt64.
Definition maxDuration : Duration := maxInt64.

(** [t.Add(d)] *)
Definition Add (t : Time) (d : Duration) : Time := t + d.

(** [t.Sub(u)]: the difference, saturated to the range of a [Duration]. *)
Definition Sub (t u : Time) : Duration :=
  if t - u <? minDuration then minDuration
  else if maxDuration <? t - u then maxDuration
  else t - u.

(** [t.After(u)] and [t.Before(u)] *)
Definition After (t u : Time) : bool := u <? t.
Definition Before (t u : Time) : bool := t <? u.

(** [time.Until(t)], read at the instant [now] *)
Definition Until (now : Time) (t : Time) : Duration := Sub t now.

(** *** [time.ParseDuration] *)

Module float64.
(** IEEE 754 binary64 arithmetic, as the [float64] of Go. *)
Definition prec : Z := 53.
Definition emax : Z := 1024.
Definition of_Z (z : Z) : spec_float := binary_normalize prec emax z 0 false.
Definition mul : spec_float -> spec_float -> spec_float := SFmul prec emax.
Definition div : spec_float -> spec_float -> spec_float := SFdiv prec emax.
(** The conversion [uint64(x)] of a non-negative finite [x]: truncation. *)
Definition to_uint64 (x : spec_float) : Z :=
  match x with
  | S754_finite false m e =>
      if 0 <=? e then wrap_uint64 (Z.pos m * 2 ^ e) else Z.pos m / 2 ^ (- e)
  | _ => 0
  end.
End float64.

Definition byte_of (c : ascii) : Z := Z.of_nat (nat_of_ascii c).

(** ['0' <= c && c <= '9'] *)
Definition isDigit (c : ascii) : bool := (48 <=? byte_of c) && (byte_of c <=? 57).

(** ['.'] *)
Definition isDot (c : ascii) : bool := byte_of c =? 46.

(** [leadingInt]: the leading [[0-9]*] of [s] as a [uint64], and the rest;
    [None] is [errLeadingInt]. *)
Fixpoint leadingInt_from (x : Z) (s : string) : option (Z * string) :=
  match s with
  | EmptyString => Some (x, s)
  | String c rest =>
      if negb (isDigit c) then Some (x, s)
      else if 2 ^ 63 / 10 <? x then None
      else
        let x' := wrap_uint64 (x * 10 + byte_of c - 48) in
        if 2 ^ 63 <? x' then None else leadingInt_from x' rest
  end.

Definition leadingInt (s : string) : option (Z * string) := leadingInt_from 0 s.

(** [leadingFraction]: the leading [[0-9]*] of [s] as a numerator [x] and a
    power of ten [scale]; digits past the precision of a [uint64] are
    consumed and ignored. *)
Fixpoint leadingFraction_from (x : Z) (scale : spec_float) (overflow : bool)
    (s : string) : Z * spec_float * string :=
  match s with
  | EmptyString => (x, scale, s)
  | String c rest =>
      if negb (isDigit c) then (x, scale, s)
      else if overflow then leadingFraction_from x scale overflow rest
      else if (2 ^ 63 - 1) / 10 <? x then leadingFraction_from x scale true rest
      else
        let y := wrap_uint64 (x * 10 + byte_of c - 48) in
        if 2 ^ 63 <? y then leadingFraction_from x scale true rest
        else leadingFraction_from y (float64.mul scale (float64.of_Z 10)) false rest
  end.

Definition leadingFraction (s : string) : Z * spec_float * string :=
  leadingFraction_from 0 (float64.of_Z 1) false s.

(** The unit of a duration segment: the bytes up to the next ['.'] or digit. *)
Fixpoint spanUnit (s : string) : string * string :=
  match s with
  | EmptyString => (EmptyString, EmptyString)
  | String c rest =>
      if isDot c || isDigit c then (EmptyString, s)
      else let '(u, r) := spanUnit rest in (String c u, r)
  end.

(** U+00B5 (micro sign) and U+03BC (Greek mu) in UTF-8, followed by [s] *)
Definition micro_s : string :=
  String (ascii_of_nat 194) (String (ascii_of_nat 181) "s").
Definition mu_s : string :=
  String (ascii_of_nat 206) (String (ascii_of_nat 188) "s").

Definition unitMap (u : string) : option Z :=
  if String.eqb u "ns" then Some Nanosecond
  else if String.eqb u "us" then Some Microsecond
  else if String.eqb u micro_s then Some Microsecond
  else if String.eqb u mu_s then Some Microsecond
  else if String.eqb u "ms" then Some Millisecond
  else if String.eqb u "s" then Some Second
  else if String.eqb u "m" then Some Minute
  else if String.eqb u "h" then Some Hour
  else None.

(** One turn of the loop of [ParseDuration]: a segment of [s]
    (digits, an optional fraction, then a unit), its value in nanoseconds as a [uint64]
    and the rest of [s]; [None] is an error. *)
Definition parseSegment (s : string) : option (Z * string) :=
  match s with
  | EmptyString => None
  | String c0 _ =>
      if negb (isDot c0 || isDigit c0) then None
      else
        match leadingInt s with
        | None => None
        | Some (v, s1) =>
            let pre := negb (Nat.eqb (String.length s) (String.length s1)) in
            let '(f, scale, s2, post) :=
              match s1 with
              | String c1 s1' =>
                  if isDot c1 then
                    let '(f, scale, s2) := leadingFraction s1' in
                    (f, scale, s2,
                     negb (Nat.eqb (String.length s1') (String.length s2)))
                  else (0, float64.of_Z 1, s1, false)
              | EmptyString => (0, float64.of_Z 1, s1, false)
              end in
            if negb pre && negb post then None
            else
              let '(u, s3) := spanUnit s2 in
              if Nat.eqb (String.length u) 0 then None
              else
                match unitMap u with
                | None => None
                | Some unit =>
                    if 2 ^ 63 / unit <? v then None
                    else
                      let v1 := wrap_uint64 (v * unit) in
                      if 0 <? f then
                        let v2 :=
                          wrap_uint64
                            (v1 + float64.to_uint64
                                    (float64.mul (float64.of_Z f)
                                       (float64.div (float64.of_Z unit) scale))) in
                        if 2 ^ 63 <? v2 then None else Some (v2, s3)
                      else Some (v1, s3)
                end
        end
  end.

(** The loop [for s != ""] of [ParseDuration], accumulating [d]. Each turn
    consumes at least one byte, so [fuel] above the length of [s] is never
    exhausted (lemma [parseSegments_fuel]). *)
Fixpoint parseSegments (fuel : nat) (d : Z) (s : string) : option (option Z) :=
  match s with
  | EmptyString => Some (Some d)
  | String _ _ =>
      match fuel with
      | O => None
      | S fuel' =>
          match parseSegment s with
          | None => Some None
          | Some (v, s') =>
              let d' := wrap_uint64 (d + v) in
              if 2 ^ 63 <? d' then Some None else parseSegments fuel' d' s'
          end
      end
  end.

(** [time.ParseDuration(s)]; [None] is the error [time: invalid duration]. *)
Definition ParseDuration (orig : string) : option Duration :=
  let '(neg, s) :=
    match orig with
    | String c rest =>
        if (byte_of c =? 45) || (byte_of c =? 43)
        then (byte_of c =? 45, rest) else (false, orig)
    | EmptyString => (false, orig)
    end in
  if String.eqb s "0" then Some 0
  else if String.eqb s "" then None
  else
    match parseSegments (S (String.length s)) 0 s with
    | Some (Some d) =>
        if neg then Some (wrap_int64 (- wrap_int64 d))
        else if 2 ^ 63 - 1 <? d then None
        else Some (wrap_int64 d)
    | _ => None
    end.

End time.

(** ** Errors *)

(** The reason of an error status returned by the API server. *)
Inductive StatusReason : Type :=
  | NotFound | AlreadyExists | Conflict | Forbidden | InternalError.

(** A Go [error]: a status of the API server, an error of a library, or
    [fmt.Errorf("msg: %w", cause)]. *)
Inductive error : Type :=
  | ErrStatus (reason : StatusReason)
  | ErrLib (msg : string)
  | Errorf (msg : string) (cause : error).

(** [errors.IsNotFound] *)
Definition IsNotFound (e : error) : bool :=
  match e with ErrStatus NotFound => true | _ => false end.

(** ** Kubernetes API objects *)

Abbreviation bytes := (list Byte.byte).
Abbreviation NamespacedName := (string * string)%type.

Module OwnerReference.
Record t : Type := mk {
  APIVersion : string;
  Kind : string;
  Name : string;
  UID : string;
  Controller : bool;
  BlockOwnerDeletion : bool }.
End OwnerReference.

Module ObjectMeta.
(** [metav1.ObjectMeta]; a nil map and an empty map are not told apart. *)
Record t : Type := mk {
  Name : string;
  Namespace : string;
  UID : string;
  Labels : gmap string string;
  Annotations : gmap string string;
  Finalizers : list string;
  DeletionTimestamp : option time.Time;
  OwnerReferences : list OwnerReference.t }.

Definition key (m : t) : NamespacedName := (Namespace m, Name m).

Definition SetFinalizers (fs : list string) (m : t) : t :=
  mk (Name m) (Namespace m) (UID m) (Labels m) (Annotations m) fs
     (DeletionTimestamp m) (OwnerReferences m).

Definition SetLabels (ls : gmap string string) (m : t) : t :=
  mk (Name m) (Namespace m) (UID m) ls (Annotations m) (Finalizers m)
     (DeletionTimestamp m) (OwnerReferences m).

Definition SetAnnotations (an : gmap string string) (m : t) : t :=
  mk (Name m) (Namespace m) (UID m) (Labels m) an (Finalizers m)
     (DeletionTimestamp m) (OwnerReferences m).

Definition SetOwnerReferences (rs : list OwnerReference.t) (m : t) : t :=
  mk (Name m) (Namespace m) (UID m) (Labels m) (Annotations m) (Finalizers m)
     (DeletionTimestamp m) rs.
End ObjectMeta.

Inductive ConditionStatus : Type := ConditionTrue | ConditionFalse | ConditionUnknown.

Module Condition.
(** [metav1.Condition] *)
Record t : Type := mk {
  Type_ : string;
  Status : ConditionStatus;
  Reason : string;
  Message : string;
  LastTransitionTime : time.Time }.
End Condition.

(** *** Package [v1alpha1]: the Certificate resource *)

Module IssuerRef.
Record t : Type := mk { Name : string; Kind : string }.
End IssuerRef.

Module CertificateSpec.
Record t : Type := mk {
  CommonName : string;
  DNSNames : list string;
  IPAddresses : list string;
  SecretName : string;
  Duration : string;
  RenewBefore : string;
  IssuerRef : IssuerRef.t;
  RestartDeployments : bool }.
End CertificateSpec.

Module CertificateStatus.
Record t : Type := mk {
  Conditions : list Condition.t;
  NotBefore : option time.Time;
  NotAfter : option time.Time;
  RenewalTime : option time.Time;
  SerialNumber : string;
  LastRenewalTime : option time.Time }.

Definition SetConditions (cs : list Condition.t) (s : t) : t :=
  mk cs (NotBefore s) (NotAfter s) (RenewalTime s) (SerialNumber s)
     (LastRenewalTime s).
End CertificateStatus.

Module Certificate.
Record t : Type := mk {
  ObjectMeta : ObjectMeta.t;
  Spec : CertificateSpec.t;
  Status : CertificateStatus.t }.

Definition Name (c : t) : string := ObjectMeta.Name (ObjectMeta c).
Definition Namespace (c : t) : string := ObjectMeta.Namespace (ObjectMeta c).
Definition GetFinalizers (c : t) : list string :=
  ObjectMeta.Finalizers (ObjectMeta c).
Definition GetDeletionTimestamp (c : t) : option time.Time :=
  ObjectMeta.DeletionTimestamp (ObjectMeta c).
Definition key (c : t) : NamespacedName := ObjectMeta.key (ObjectMeta c).

Definition SetFinalizers (fs : list string) (c : t) : t :=
  mk (ObjectMeta.SetFinalizers fs (ObjectMeta c)) (Spec c) (Status c).
Definition SetStatus (s : CertificateStatus.t) (c : t) : t :=
  mk (ObjectMeta c) (Spec c) s.
End Certificate.

(** *** Package [corev1]: secrets and pod templates *)

Module Secret.
Record t : Type := mk {
  ObjectMeta : ObjectMeta.t;
  Type_ : string;
  Data : gmap string bytes }.

Definition key (s : t) : NamespacedName := ObjectMeta.key (ObjectMeta s).
Definition SetData (d : gmap string bytes) (s : t) : t :=
  mk (ObjectMeta s) (Type_ s) d.
Definition SetLabels (ls : gmap string string) (s : t) : t :=
  mk (ObjectMeta.SetLabels ls (ObjectMeta s)) (Type_ s) (Data s).
Definition SetOwnerReferences (rs : list OwnerReference.t) (s : t) : t :=
  mk (ObjectMeta.SetOwnerReferences rs (ObjectMeta s)) (Type_ s) (Data s).
End Secret.

Definition SecretTypeTLS : string := "kubernetes.io/tls".

Module SecretVolumeSource.
Record t : Type := mk { SecretName : string }.
End SecretVolumeSource.

Module Volume.
(** [corev1.Volume]; of the embedded [VolumeSource] only the [Secret]
    source is read. *)
Record t : Type := mk {
  Name : string;
  Secret : option SecretVolumeSource.t }.
End Volume.

Module SecretEnvSource.
Record t : Type := mk { Name : string }.
End SecretEnvSource.

Module EnvFromSource.
Record t : Type := mk {
  Prefix : string;
  SecretRef : option SecretEnvSource.t }.
End EnvFromSource.

Module SecretKeySelector.
Record t : Type := mk { Name : string; Key : string }.
End SecretKeySelector.

Module EnvVarSource.
Record t : Type := mk { SecretKeyRef : option SecretKeySelector.t }.
End EnvVarSource.

Module EnvVar.
Record t : Type := mk {
  Name : string;
  Value : string;
  ValueFrom : option EnvVarSource.t }.
End EnvVar.

Module Container.
Record t : Type := mk {
  Name : string;
  EnvFrom : list EnvFromSource.t;
  Env : list EnvVar.t }.
End Container.

Module PodSpec.
Record t : Type := mk {
  Volumes : list Volume.t;
  Containers : list Container.t }.
End PodSpec.

Module PodTemplateSpec.
Record t : Type := mk {
  ObjectMeta : ObjectMeta.t;
  Spec : PodSpec.t }.

Definition Annotations (p : t) : gmap string string :=
  ObjectMeta.Annotations (ObjectMeta p).
Definition SetAnnotations (an : gmap string string) (p : t) : t :=
  mk (ObjectMeta.SetAnnotations an (ObjectMeta p)) (Spec p).
End PodTemplateSpec.

(** *** Package [appsv1]: deployments *)

Module DeploymentSpec.
Record t : Type := mk { Template : PodTemplateSpec.t }.
End DeploymentSpec.

Module Deployment.
Record t : Type := mk {
  ObjectMeta : ObjectMeta.t;
  Spec : DeploymentSpec.t }.

Definition Name (d : t) : string := ObjectMeta.Name (ObjectMeta d).
Definition Namespace (d : t) : string := ObjectMeta.Namespace (ObjectMeta d).
Definition key (d : t) : NamespacedName := ObjectMeta.key (ObjectMeta d).
Definition Template (d : t) : PodTemplateSpec.t := DeploymentSpec.Template (Spec d).
Definition SetTemplateAnnotations (an : gmap string string) (d : t) : t :=
  mk (ObjectMeta d)
     (DeploymentSpec.mk (PodTemplateSpec.SetAnnotations an (Template d))).
End Deployment.

(** ** Outside collaborators: crypto, library functions, clock and store *)

Module PrivateKey.
(** [rsa.PrivateKey]: the public modulus and exponent, and the private
    exponent. *)
Record t : Type := mk { N : Z; E : Z; D : Z }.
Definition PublicKey (k : t) : Z * Z := (N k, E k).
End PrivateKey.

Module x509.
Definition KeyUsageDigitalSignature : Z := Z.shiftl 1 0.
Definition KeyUsageKeyEncipherment : Z := Z.shiftl 1 2.
Definition ExtKeyUsageServerAuth : Z := 1.
Definition ExtKeyUsageClientAuth : Z := 2.

(** The fields of [x509.Certificate] that the generator fills in. *)
Record Certificate : Type := mk {
  SerialNumber : Z;
  Subject_CommonName : string;
  Subject_Organization : list string;
  DNSNames : list string;
  IPAddresses : list bytes;
  NotBefore : time.Time;
  NotAfter : time.Time;
  KeyUsage : Z;
  ExtKeyUsage : list Z;
  BasicConstraintsValid : bool }.
End x509.

(** What the controller calls and does not define: the functions of the
    standard library that are left abstract, the samples of the entropy
    source (by draw number), the readings of the wall clock (by reading
    number), the faults of the object store (by call number; [None]: the
    call goes through) and the kinds registered in the scheme. *)
Record Env : Type := mkEnv {
  rsa_GenerateKey : nat -> option PrivateKey.t;
  rand_Int : nat -> Z -> option Z;
  x509_CreateCertificate :
    x509.Certificate -> x509.Certificate -> Z * Z -> PrivateKey.t -> option bytes;
  x509_MarshalPKCS1PrivateKey : PrivateKey.t -> bytes;
  pem_EncodeToMemory : string -> bytes -> bytes;
  net_ParseIP : string -> option bytes;
  Format_RFC3339 : time.Time -> string;
  clock : nat -> time.Time;
  fault : nat -> option error;
  Scheme : list string }.

(** A call of the controller on [client.Client], with the error it got, or
    the log line that reports the number of restarted deployments (the one
    place where that count leaves [restartDeployments]; the other log lines
    are not modelled). *)
Inductive Event : Type :=
  | EvGetCertificate (key : NamespacedName) (err : option error)
  | EvUpdateCertificate (obj : Certificate.t) (err : option error)
  | EvUpdateCertificateStatus (obj : Certificate.t) (err : option error)
  | EvGetSecret (key : NamespacedName) (err : option error)
  | EvCreateSecret (obj : Secret.t) (err : option error)
  | EvUpdateSecret (obj : Secret.t) (err : option error)
  | EvListDeployments (namespace : string) (err : option error)
  | EvUpdateDeployment (obj : Deployment.t) (err : option error)
  | EvLogRestartCompleted (count : Z).

Record World : Type := mkWorld {
  env : Env;
  certificates : gmap NamespacedName Certificate.t;
  secrets : gmap NamespacedName Secret.t;
  deployments : gmap NamespacedName Deployment.t;
  calls : nat;
  ticks : nat;
  draws : nat;
  trace : list Event }.

Definition set_certificates (m : gmap NamespacedName Certificate.t) (w : World) : World :=
  mkWorld (env w) m (secrets w) (deployments w) (calls w) (ticks w) (draws w) (trace w).
Definition set_secrets (m : gmap NamespacedName Secret.t) (w : World) : World :=
  mkWorld (env w) (certificates w) m (deployments w) (calls w) (ticks w) (draws w) (trace w).
Definition set_deployments (m : gmap NamespacedName Deployment.t) (w : World) : World :=
  mkWorld (env w) (certificates w) (secrets w) m (calls w) (ticks w) (draws w) (trace w).
Definition set_ticks (n : nat) (w : World) : World :=
  mkWorld (env w) (certificates w) (secrets w) (deployments w) (calls w) n (draws w) (trace w).
Definition set_draws (n : nat) (w : World) : World :=
  mkWorld (env w) (certificates w) (secrets w) (deployments w) (calls w) (ticks w) n (trace w).

(** The world after one more client call, recorded as [e]. *)
Definition called (e : Event) (w : World) : World :=
  mkWorld (env w) (certificates w) (secrets w) (deployments w) (S (calls w))
    (ticks w) (draws w) (trace w ++ [e]).

Definition logged (e : Event) (w : World) : World :=
  mkWorld (env w) (certificates w) (secrets w) (deployments w) (calls w)
    (ticks w) (draws w) (trace w ++ [e]).

(** *** The monad of the controller *)

Definition M (A : Type) : Type := World -> A * World.

Definition ret {A : Type} (a : A) : M A := fun w => (a, w).

Definition bind {A B : Type} (m : M A) (k : A -> M B) : M B :=
  fun w => let '(a, w') := m w in k a w'.

Notation "'let*' x ':=' m 'in' k" := (bind m (fun x => k))
  (at level 10, x pattern, m at level 200, k at level 200).

Inductive result (A : Type) : Type :=
  | Ok (a : A)
  | Err (e : error).
Arguments Ok {A} a.
Arguments Err {A} e.

(** [time.Now()] (and [metav1.Now()]): the next reading of the clock. *)
Definition Now : M time.Time :=
  fun w => (clock (env w) (ticks w), set_ticks (S (ticks w)) w).

(** The reading that the next [time.Now()] returns. *)
Definition now (w : World) : time.Time := clock (env w) (ticks w).

Definition getEnv : M Env := fun w => (env w, w).

(** *** [client.Client] *)

(** The store keeps one object per namespace and name. A call that the
    oracle faults changes nothing; a read of an absent object is
    [NotFound], a create of a present one [AlreadyExists], an update of an
    absent one [NotFound]. After a write that went through, the object in
    memory is left as the controller built it: what the server sends back
    differs from it in fields that the controller does not read. *)

Module Client.

(** The error that the store injects into the next call, if any. *)
Definition nextFault (w : World) : option error := fault (env w) (calls w).

Definition Get_Certificate (key : NamespacedName) : M (result Certificate.t) :=
  fun w =>
    let r :=
      match nextFault w with
      | Some e => Err e
      | None =>
          match certificates w !! key with
          | Some c => Ok c
          | None => Err (ErrStatus NotFound)
          end
      end in
    (r, called (EvGetCertificate key (match r with Ok _ => None | Err e => Some e end)) w).

(** [r.Update(ctx, certificate)]: the resource has a status subresource,
    so the stored status is kept. *)
Definition Update_Certificate (obj : Certificate.t) : M (option error) :=
  fun w =>
    match nextFault w with
    | Some e => (Some e, called (EvUpdateCertificate obj (Some e)) w)
    | None =>
        match certificates w !! Certificate.key obj with
        | None =>
            (Some (ErrStatus NotFound),
             called (EvUpdateCertificate obj (Some (ErrStatus NotFound))) w)
        | Some old =>
            (None,
             called (EvUpdateCertificate obj None)
               (set_certificates
                  (<[Certificate.key obj :=
                       Certificate.SetStatus (Certificate.Status old) obj]>
                     (certificates w)) w))
        end
    end.

(** [r.Status().Update(ctx, certificate)]: only the status is stored. *)
Definition Status_Update (obj : Certificate.t) : M (option error) :=
  fun w =>
    match nextFault w with
    | Some e => (Some e, called (EvUpdateCertificateStatus obj (Some e)) w)
    | None =>
        match certificates w !! Certificate.key obj with
        | None =>
            (Some (ErrStatus NotFound),
             called (EvUpdateCertificateStatus obj (Some (ErrStatus NotFound))) w)
        | Some old =>
            (None,
             called (EvUpdateCertificateStatus obj None)
               (set_certificates
                  (<[Certificate.key obj :=
                       Certificate.SetStatus (Certificate.Status obj) old]>
                     (certificates w)) w))
        end
    end.

Definition Get_Secret (key : NamespacedName) : M (result Secret.t) :=
  fun w =>
    let r :=
      match nextFault w with
      | Some e => Err e
      | None =>
          match secrets w !! key with
          | Some s => Ok s
          | None => Err (ErrStatus NotFound)
          end
      end in
    (r, called (EvGetSecret key (match r with Ok _ => None | Err e => Some e end)) w).

Definition Create_Secret (obj : Secret.t) : M (option error) :=
  fun w =>
    match nextFault w with
    | Some e => (Some e, called (EvCreateSecret obj (Some e)) w)
    | None =>
        match secrets w !! Secret.key obj with
        | Some _ =>
            (Some (ErrStatus AlreadyExists),
             called (EvCreateSecret obj (Some (ErrStatus AlreadyExists))) w)
        | None =>
            (None,
             called (EvCreateSecret obj None)
               (set_secrets (<[Secret.key obj := obj]> (secrets w)) w))
        end
    end.

Definition Update_Secret (obj : Secret.t) : M (option error) :=
  fun w =>
    match nextFault w with
    | Some e => (Some e, called (EvUpdateSecret obj (Some e)) w)
    | None =>
        match secrets w !! Secret.key obj with
        | None =>
            (Some (ErrStatus NotFound),
             called (EvUpdateSecret obj (Some (ErrStatus NotFound))) w)
        | Some _ =>
            (None,
             called (EvUpdateSecret obj None)
               (set_secrets (<[Secret.key obj := obj]> (secrets w)) w))
        end
    end.

(** The deployments of a namespace, in the order of the store. *)
Definition inNamespace (ns : string) (ds : gmap NamespacedName Deployment.t)
    : list Deployment.t :=
  List.filter (fun d => String.eqb (Deployment.Namespace d) ns)
    (List.map snd (map_to_list ds)).

Definition List_Deployments (ns : string) : M (result (list Deployment.t)) :=
  fun w =>
    match nextFault w with
    | Some e => (Err e, called (EvListDeployments ns (Some e)) w)
    | None => (Ok (inNamespace ns (deployments w)), called (EvListDeployments ns None) w)
    end.

Definition Update_Deployment (obj : Deployment.t) : M (option error) :=
  fun w =>
    match nextFault w with
    | Some e => (Some e, called (EvUpdateDeployment obj (Some e)) w)
    | None =>
        match deployments w !! Deployment.key obj with
        | None =>
            (Some (ErrStatus NotFound),
             called (EvUpdateDeployment obj (Some (ErrStatus NotFound))) w)
        | Some _ =>
            (None,
             called (EvUpdateDeployment obj None)
               (set_deployments (<[Deployment.key obj := obj]> (deployments w)) w))
        end
    end.

End Client.

(** *** Package [controllerutil]: finalizers and owner references *)

Module controllerutil.

Definition ContainsFinalizer (o : Certificate.t) (finalizer : string) : bool :=
  existsb (String.eqb finalizer) (Certificate.GetFinalizers o).

(** [AddFinalizer]: whether the finalizers changed, and the object. *)
Definition AddFinalizer (o : Certificate.t) (finalizer : string)
    : bool * Certificate.t :=
  let f := Certificate.GetFinalizers o in
  if existsb (String.eqb finalizer) f then (false, o)
  else (true, Certificate.SetFinalizers (f ++ [finalizer]) o).

(** [RemoveFinalizer]: whether the finalizers changed, and the object. *)
Definition RemoveFinalizer (o : Certificate.t) (finalizer : string)
    : bool * Certificate.t :=
  let f := Certificate.GetFinalizers o in
  let f' := List.filter (fun e => negb (String.eqb e finalizer)) f in
  (negb (Nat.eqb (List.length f) (List.length f')),
   Certificate.SetFinalizers f' o).

(** [SetControllerReference(owner, secret, scheme)] on a secret of the
    owner's namespace that has no controller yet: it fails only when the
    scheme does not know the kind of the owner. *)
Definition SetControllerReference (owner : Certificate.t) (controlled : Secret.t)
    (scheme : list string) : result Secret.t :=
  if existsb (String.eqb "Certificate") scheme then
    Ok (Secret.SetOwnerReferences
          [OwnerReference.mk "cert.example.com/v1alpha1" "Certificate"
             (Certificate.Name owner) (ObjectMeta.UID (Certificate.ObjectMeta owner))
             true true]
          controlled)
  else Err (ErrLib "no kind is registered for the type v1alpha1.Certificate").

End controllerutil.

(** *** Package [meta]: conditions *)

Definition ConditionStatus_eqb (a b : ConditionStatus) : bool :=
  match a, b with
  | ConditionTrue, ConditionTrue
  | ConditionFalse, ConditionFalse
  | ConditionUnknown, ConditionUnknown => true
  | _, _ => false
  end.

(** [meta.SetStatusCondition]: the first condition of the type of
    [newCondition] takes its status, reason and message, and its transition
    time when the status changes; without one, [newCondition] is appended.
    Every caller stamps [newCondition] with [metav1.Now()]. *)
Fixpoint SetStatusCondition (conditions : list Condition.t)
    (newCondition : Condition.t) : list Condition.t :=
  match conditions with
  | [] => [newCondition]
  | c :: rest =>
      if String.eqb (Condition.Type_ c) (Condition.Type_ newCondition) then
        Condition.mk (Condition.Type_ c) (Condition.Status newCondition)
          (Condition.Reason newCondition) (Condition.Message newCondition)
          (if ConditionStatus_eqb (Condition.Status c) (Condition.Status newCondition)
           then Condition.LastTransitionTime c
           else Condition.LastTransitionTime newCondition)
        :: rest
      else c :: SetStatusCondition rest newCondition
  end.

(** [err.Error()] *)
Fixpoint Error (e : error) : string :=
  match e with
  | ErrStatus NotFound => "not found"
  | ErrStatus AlreadyExists => "already exists"
  | ErrStatus Conflict => "conflict"
  | ErrStatus Forbidden => "forbidden"
  | ErrStatus InternalError => "internal error"
  | ErrLib msg => msg
  | Errorf msg cause => msg ++ ": " ++ Error cause
  end.

(** ** Package [controller] *)

Module Result.
(** [ctrl.Result] *)
Record t : Type := mk { Requeue : bool; RequeueAfter : time.Duration }.
Definition empty : t := mk false 0.
End Result.

(** Where a block of [Reconcile] leaves the function: at a [return], or at
    its end, with the variables it has assigned. *)
Inductive flow (A : Type) : Type :=
  | Continue (a : A)
  | Return (out : Result.t * option error).
Arguments Continue {A} a.
Arguments Return {A} out.

Definition certificateFinalizer : string := "cert.example.com/finalizer".
Definition typeAvailableCert : string := "Available".
Definition typeReadyCert : string := "Ready".

(** [rsa.GenerateKey(rand.Reader, 2048)]; [None] is its error. *)
Definition GenerateKey : M (option PrivateKey.t) :=
  fun w => (rsa_GenerateKey (env w) (draws w), set_draws (S (draws w)) w).

(** [rand.Int(rand.Reader, limit)]: a sample below [limit]; [None] is its
    error. *)
Definition randInt (limit : Z) : M (option Z) :=
  fun w =>
    (option_map (fun z => z mod limit) (rand_Int (env w) (draws w) limit),
     set_draws (S (draws w)) w).

(** [fmt.Sprintf("%x", n)] of a non-negative [n] *)
Definition Sprintf_x (n : Z) : string :=
  NilZero.string_of_uint (N.to_hex_uint (Z.to_N n)).

(** [needsRenewal]: whether the certificate has to be issued or renewed. *)
Definition needsRenewal (cert : Certificate.t) : M bool :=
  match CertificateStatus.RenewalTime (Certificate.Status cert) with
  | None => ret true
  | Some renewalTime =>
      let* t := Now in
      ret (time.After t renewalTime)
  end.

(** [generateCertificate]: the PEM of a new self-signed certificate and of
    its key, its validity window and its serial number. *)
Definition generateCertificate (cert : Certificate.t)
    : M (result (bytes * bytes * time.Time * time.Time * string)) :=
  let spec := Certificate.Spec cert in
  let* E := getEnv in
  let* key := GenerateKey in
  match key with
  | None =>
      ret (Err (Errorf "failed to generate private key" (ErrLib "crypto/rsa")))
  | Some privateKey =>
      let parsed :=
        if String.eqb (CertificateSpec.Duration spec) "" then Ok (90 * 24 * time.Hour)
        else
          match time.ParseDuration (CertificateSpec.Duration spec) with
          | Some d => Ok d
          | None => Err (Errorf "invalid duration" (ErrLib "time: invalid duration"))
          end in
      match parsed with
      | Err e => ret (Err e)
      | Ok duration =>
          let* notBefore := Now in
          let notAfter := time.Add notBefore duration in
          let* serial := randInt (Z.shiftl 1 128) in
          match serial with
          | None =>
              ret (Err (Errorf "failed to generate serial number" (ErrLib "crypto/rand")))
          | Some serialNumber =>
              let ipAddresses :=
                List.concat
                  (List.map (fun ipStr =>
                               match net_ParseIP E ipStr with
                               | Some ip => [ip]
                               | None => []
                               end)
                     (CertificateSpec.IPAddresses spec)) in
              let template :=
                x509.mk serialNumber (CertificateSpec.CommonName spec)
                  ["Certificate Operator"] (CertificateSpec.DNSNames spec)
                  ipAddresses notBefore notAfter
                  (Z.lor x509.KeyUsageKeyEncipherment x509.KeyUsageDigitalSignature)
                  [x509.ExtKeyUsageServerAuth; x509.ExtKeyUsageClientAuth] true in
              match x509_CreateCertificate E template template
                      (PrivateKey.PublicKey privateKey) privateKey with
              | None =>
                  ret (Err (Errorf "failed to create certificate" (ErrLib "crypto/x509")))
              | Some certDER =>
                  let certPEM := pem_EncodeToMemory E "CERTIFICATE" certDER in
                  let keyPEM :=
                    pem_EncodeToMemory E "RSA PRIVATE KEY"
                      (x509_MarshalPKCS1PrivateKey E privateKey) in
                  ret (Ok (certPEM, keyPEM, notBefore, notAfter, Sprintf_x serialNumber))
              end
          end
      end
  end.

(** [createOrUpdateSecret]: the TLS secret of the certificate, created or
    overwritten in place. *)
Definition createOrUpdateSecret (cert : Certificate.t) (certPEM keyPEM : bytes)
    : M (option error) :=
  let secret :=
    Secret.mk
      (ObjectMeta.mk (CertificateSpec.SecretName (Certificate.Spec cert))
         (Certificate.Namespace cert) ""
         (<["app.kubernetes.io/managed-by" := "certificate-operator"]>
            (<["cert.example.com/certificate" := Certificate.Name cert]> ∅))
         ∅ [] None [])
      SecretTypeTLS
      (<["tls.crt" := certPEM]> (<["tls.key" := keyPEM]> ∅)) in
  let* E := getEnv in
  match controllerutil.SetControllerReference cert secret (Scheme E) with
  | Err err => ret (Some (Errorf "failed to set controller reference" err))
  | Ok secret =>
      let* got := Client.Get_Secret (Secret.key secret) in
      match got with
      | Err err =>
          if IsNotFound err then Client.Create_Secret secret
          else ret (Some err)
      | Ok existingSecret =>
          let existingSecret := Secret.SetData (Secret.Data secret) existingSecret in
          let existingSecret :=
            Secret.SetLabels (ObjectMeta.Labels (Secret.ObjectMeta secret))
              existingSecret in
          Client.Update_Secret existingSecret
      end
  end.

(** [calculateRenewalTime]: the instant at which to renew. *)
Definition calculateRenewalTime (cert : Certificate.t) (notAfter : time.Time)
    : time.Time :=
  let renewBefore :=
    if String.eqb (CertificateSpec.RenewBefore (Certificate.Spec cert)) ""
    then 30 * 24 * time.Hour
    else
      match time.ParseDuration (CertificateSpec.RenewBefore (Certificate.Spec cert)) with
      | Some duration => duration
      | None => 30 * 24 * time.Hour
      end in
  time.Add notAfter (wrap_int64 (- renewBefore)).

(** [getRequeueTime]: the delay until the next reconciliation. *)
Definition getRequeueTime (cert : Certificate.t) : M time.Duration :=
  match CertificateStatus.RenewalTime (Certificate.Status cert) with
  | None => ret time.Minute
  | Some renewalTime =>
      let* t := Now in
      let timeUntilRenewal := time.Until t renewalTime in
      if timeUntilRenewal <? 0 then ret time.Minute
      else if timeUntilRenewal <? time.Hour then ret (Z.quot timeUntilRenewal 2)
      else ret (wrap_int64 (timeUntilRenewal - time.Hour))
  end.

(** [deploymentUsesSecret]: whether a volume, an [envFrom] or an [env] entry
    of the pod template names the secret. *)
Definition deploymentUsesSecret (deploy : Deployment.t) (secretName : string) : bool :=
  let podSpec := PodTemplateSpec.Spec (Deployment.Template deploy) in
  if existsb (fun volume =>
                match Volume.Secret volume with
                | Some src => String.eqb (SecretVolumeSource.SecretName src) secretName
                | None => false
                end)
       (PodSpec.Volumes podSpec)
  then true
  else
    existsb (fun container =>
               if existsb (fun envFrom =>
                             match EnvFromSource.SecretRef envFrom with
                             | Some ref => String.eqb (SecretEnvSource.Name ref) secretName
                             | None => false
                             end)
                    (Container.EnvFrom container)
               then true
               else
                 existsb (fun env =>
                            match EnvVar.ValueFrom env with
                            | Some src =>
                                match EnvVarSource.SecretKeyRef src with
                                | Some ref =>
                                    String.eqb (SecretKeySelector.Name ref) secretName
                                | None => false
                                end
                            | None => false
                            end)
                   (Container.Env container))
      (PodSpec.Containers podSpec).

Definition restartedAt : string := "cert.example.com/restartedAt".

(** The loop of [restartDeployments] over the listed deployments, from the
    count of restarts so far. The annotation is written into the map of the
    pod template (allocated first when it is nil, which the model does not
    tell from empty); a deployment whose update fails is skipped by
    [continue] and not counted. *)
Fixpoint restartEach (secretName : string) (items : list Deployment.t)
    (restartedCount : Z) : M Z :=
  match items with
  | [] => ret restartedCount
  | deploy :: rest =>
      if deploymentUsesSecret deploy secretName then
        let* E := getEnv in
        let* t := Now in
        let deploy :=
          Deployment.SetTemplateAnnotations
            (<[restartedAt := Format_RFC3339 E t]>
               (PodTemplateSpec.Annotations (Deployment.Template deploy)))
            deploy in
        let* err := Client.Update_Deployment deploy in
        match err with
        | Some _ => restartEach secretName rest restartedCount
        | None => restartEach secretName rest (restartedCount + 1)
        end
      else restartEach secretName rest restartedCount
  end.

(** [restartDeployments]: a rolling restart of the deployments of the
    namespace that use the secret of the certificate. *)
Definition restartDeployments (cert : Certificate.t) : M (option error) :=
  let* listed := Client.List_Deployments (Certificate.Namespace cert) in
  match listed with
  | Err err => ret (Some (Errorf "failed to list deployments" err))
  | Ok items =>
      let* restartedCount :=
        restartEach (CertificateSpec.SecretName (Certificate.Spec cert)) items 0 in
      fun w => (None, logged (EvLogRestartCompleted restartedCount) w)
  end.

(** The in-memory certificate with one more condition set. *)
Definition withCondition (cert : Certificate.t) (c : Condition.t) : Certificate.t :=
  Certificate.SetStatus
    (CertificateStatus.SetConditions
       (SetStatusCondition (CertificateStatus.Conditions (Certificate.Status cert)) c)
       (Certificate.Status cert))
    cert.

(** The end of a failed issuance: the Ready condition is set to false with
    [reason], the status is written (an error of that write is only
    logged), and [Reconcile] returns [err]. *)
Definition failIssuance (cert : Certificate.t) (reason message : string) (err : error)
    : M (flow Certificate.t) :=
  let* t := Now in
  let cert :=
    withCondition cert
      (Condition.mk typeReadyCert ConditionFalse reason
         (message ++ Error err) t) in
  let* _ := Client.Status_Update cert in
  ret (Return (Result.empty, Some err)).

(** The block of [Reconcile] that issues or renews the certificate. *)
Definition issue (certificate : Certificate.t) : M (flow Certificate.t) :=
  let* generated := generateCertificate certificate in
  match generated with
  | Err err =>
      failIssuance certificate "GenerationFailed" "Failed to generate certificate: " err
  | Ok (certPEM, keyPEM, notBefore, notAfter, serialNumber) =>
      let* err := createOrUpdateSecret certificate certPEM keyPEM in
      match err with
      | Some err =>
          failIssuance certificate "SecretUpdateFailed" "Failed to update secret: " err
      | None =>
          let renewalTime := calculateRenewalTime certificate notAfter in
          let* lastRenewalTime := Now in
          let certificate :=
            Certificate.SetStatus
              (CertificateStatus.mk
                 (CertificateStatus.Conditions (Certificate.Status certificate))
                 (Some notBefore) (Some notAfter) (Some renewalTime) serialNumber
                 (Some lastRenewalTime))
              certificate in
          let* t := Now in
          let certificate :=
            withCondition certificate
              (Condition.mk typeReadyCert ConditionTrue "CertificateIssued"
                 "Certificate has been issued successfully" t) in
          let* t := Now in
          let certificate :=
            withCondition certificate
              (Condition.mk typeAvailableCert ConditionTrue "Reconciling"
                 ("Certificate for (" ++ Certificate.Name certificate
                    ++ ") issued successfully") t) in
          let* err := Client.Status_Update certificate in
          match err with
          | Some err => ret (Return (Result.empty, Some err))
          | None =>
              let* _ :=
                if CertificateSpec.RestartDeployments (Certificate.Spec certificate)
                then restartDeployments certificate
                else ret None in
              ret (Continue certificate)
          end
      end
  end.

(** The block of [Reconcile] that adds the finalizer when it is absent. *)
Definition ensureFinalizer (certificate : Certificate.t) : M (flow Certificate.t) :=
  if negb (controllerutil.ContainsFinalizer certificate certificateFinalizer) then
    let '(ok, certificate) :=
      controllerutil.AddFinalizer certificate certificateFinalizer in
    if negb ok then ret (Return (Result.mk true 0, None))
    else
      let* err := Client.Update_Certificate certificate in
      match err with
      | Some err => ret (Return (Result.empty, Some err))
      | None => ret (Continue certificate)
      end
  else ret (Continue certificate).

(** The block of [Reconcile] for a certificate marked to be deleted. *)
Definition finalize (certificate : Certificate.t) : M (Result.t * option error) :=
  if controllerutil.ContainsFinalizer certificate certificateFinalizer then
    let '(ok, certificate) :=
      controllerutil.RemoveFinalizer certificate certificateFinalizer in
    if negb ok then ret (Result.mk true 0, None)
    else
      let* err := Client.Update_Certificate certificate in
      match err with
      | Some err => ret (Result.empty, Some err)
      | None => ret (Result.empty, None)
      end
  else ret (Result.empty, None).

(** [Reconcile]: one invocation of the control loop on the certificate
    named by the request. *)
Definition Reconcile (req : NamespacedName) : M (Result.t * option error) :=
  let* got := Client.Get_Certificate req in
  match got with
  | Err err =>
      if IsNotFound err then ret (Result.empty, None)
      else ret (Result.empty, Some err)
  | Ok certificate =>
      let* added := ensureFinalizer certificate in
      match added with
      | Return out => ret out
      | Continue certificate =>
          match Certificate.GetDeletionTimestamp certificate with
          | Some _ => finalize certificate
          | None =>
              let* due := needsRenewal certificate in
              let* issued := if due then issue certificate else ret (Continue certificate) in
              match issued with
              | Return out => ret out
              | Continue certificate =>
                  let* requeueAfter := getRequeueTime certificate in
                  ret (Result.mk false requeueAfter, None)
              end
          end
      end
  end.

(** ** Sample inputs *)

(** An environment whose crypto always succeeds, with the clock [clk] and
    the faults [flt]. *)
Definition sampleEnv (clk : nat -> time.Time) (flt : nat -> option error) : Env :=
  mkEnv (fun _ => Some (PrivateKey.mk 3233 17 2753)) (fun _ _ => Some 48879)
    (fun _ _ _ _ => Some []) (fun _ => []) (fun _ b => b) (fun _ => None)
    (fun _ => "2024-01-01T00:00:00Z") clk flt ["Certificate"].

Definition sampleMeta (ns name : string) (fs : list string)
    (del : option time.Time) : ObjectMeta.t :=
  ObjectMeta.mk name ns "uid-1" ∅ ∅ fs del [].

Definition sampleSpec (dur rb : string) (restart : bool) : CertificateSpec.t :=
  CertificateSpec.mk "web.example.com" [] [] "myapp-tls" dur rb
    (IssuerRef.mk "selfsigned" "SelfSigned") restart.

(** A certificate [default/web] that was never issued. *)
Definition sampleCert (fs : list string) (del : option time.Time)
    (dur rb : string) (restart : bool) : Certificate.t :=
  Certificate.mk (sampleMeta "default" "web" fs del) (sampleSpec dur rb restart)
    (CertificateStatus.mk [] None None None "" None).

(** A certificate [default/web] whose renewal time is recorded. *)
Definition issuedCert (renewalTime : time.Time) : Certificate.t :=
  Certificate.mk (sampleMeta "default" "web" [certificateFinalizer] None)
    (sampleSpec "" "" false)
    (CertificateStatus.mk [] (Some 0) (Some (renewalTime + 720 * time.Hour))
       (Some renewalTime) "beef" (Some 0)).

(** A world that holds the certificate [c] alone, without faults, whose
    clock reads [t0], [t0 + 1], ... *)
Definition sampleWorld (t0 : time.Time) (c : Certificate.t) : World :=
  mkWorld (sampleEnv (fun n => t0 + Z.of_nat n) (fun _ => None))
    (<[Certificate.key c := c]> ∅) ∅ ∅ 0 0 0 [].

(** ** The words of the spec *)

(** The validity of a certificate: the duration parsed from the duration
    string of the spec, 2160h when the string is empty. *)
Definition specifiedValidity (s : string) : option time.Duration :=
  if String.eqb s "" then Some (2160 * time.Hour) else time.ParseDuration s.


(** The error of the generator on a duration string that does not parse. *)
Definition errInvalidDuration : error :=
  Errorf "invalid duration" (ErrLib "time: invalid duration").

(** The certificate that [issue] leaves in memory, [cert] itself when the
    issuance fails. *)
Definition issued (cert : Certificate.t) (w : World) : Certificate.t :=
  match (issue cert w).1 with
  | Continue cert' => cert'
  | Return _ => cert
  end.

(** The labels that the synchronizer puts on the secret of [cert]. *)
Definition managedLabels (cert : Certificate.t) : gmap string string :=
  <["app.kubernetes.io/managed-by" := "certificate-operator"]>
    (<["cert.example.com/certificate" := Certificate.Name cert]> ∅).

(** The payload of the secret: the two PEM blocks. *)
Definition tlsData (certPEM keyPEM : bytes) : gmap string bytes :=
  <["tls.crt" := certPEM]> (<["tls.key" := keyPEM]> ∅).

(** The secret that the synchronizer creates when there is none: name,
    namespace, labels, owner and payload. *)
Definition desiredSecret (cert : Certificate.t) (certPEM keyPEM : bytes) : Secret.t :=
  Secret.mk
    (ObjectMeta.mk (CertificateSpec.SecretName (Certificate.Spec cert))
       (Certificate.Namespace cert) "" (managedLabels cert) ∅ [] None
       [OwnerReference.mk "cert.example.com/v1alpha1" "Certificate"
          (Certificate.Name cert) (ObjectMeta.UID (Certificate.ObjectMeta cert))
          true true])
    SecretTypeTLS (tlsData certPEM keyPEM).

(** An existing secret after the synchronizer has overwritten its payload
    and its labels in place. *)
Definition syncedSecret (existing : Secret.t) (cert : Certificate.t)
    (certPEM keyPEM : bytes) : Secret.t :=
  Secret.SetLabels (managedLabels cert)
    (Secret.SetData (tlsData certPEM keyPEM) existing).

(** Every object of a store is filed under its own namespace and name. *)
Definition secretsWellKeyed (m : gmap NamespacedName Secret.t) : Prop :=
  forall k s, m !! k = Some s -> Secret.key s = k.

(** A world as [sampleWorld] that also holds the secret [s]. *)
Definition withSecret (s : Secret.t) (w : World) : World :=
  set_secrets (<[Secret.key s := s]> (secrets w)) w.
(** A secret [default/myapp-tls] left by someone else, with a stale
    payload and an annotation of its own. *)
Definition staleSecret : Secret.t :=
  Secret.mk
    (ObjectMeta.mk "myapp-tls" "default" "uid-2" ∅ (<["team" := "web"]> ∅) [] None [])
    SecretTypeTLS (<["tls.crt" := []]> ∅).

(** A workload references the secret, in the words of the spec: it mounts
    a volume backed by the secret, or one of its containers imports its
    environment from the secret as a block, or one of its containers has an
    environment variable sourced from a key of the secret. *)
Definition referencesSecret (d : Deployment.t) (secretName : string) : Prop :=
  let podSpec := PodTemplateSpec.Spec (Deployment.Template d) in
  (exists volume src,
     In volume (PodSpec.Volumes podSpec) /\
     Volume.Secret volume = Some src /\
     SecretVolumeSource.SecretName src = secretName) \/
  (exists container envFrom ref,
     In container (PodSpec.Containers podSpec) /\
     In envFrom (Container.EnvFrom container) /\
     EnvFromSource.SecretRef envFrom = Some ref /\
     SecretEnvSource.Name ref = secretName) \/
  (exists container env src ref,
     In container (PodSpec.Containers podSpec) /\
     In env (Container.Env container) /\
     EnvVar.ValueFrom env = Some src /\
     EnvVarSource.SecretKeyRef src = Some ref /\
     SecretKeySelector.Name ref = secretName).

(** The deployment [d] with the restart annotation of its pod template set
    to [ts]. *)
Definition restartAnnotated (ts : string) (d : Deployment.t) : Deployment.t :=
  Deployment.SetTemplateAnnotations
    (<[restartedAt := ts]> (PodTemplateSpec.Annotations (Deployment.Template d))) d.

(** The event is an update of [d] that sets the restart annotation. *)
Definition isRestartOf (d : Deployment.t) (ev : Event) : Prop :=
  exists ts err, ev = EvUpdateDeployment (restartAnnotated ts d) err.

(** The event is a client call that went through. *)
Definition succeeded (ev : Event) : bool :=
  match ev with
  | EvGetCertificate _ None | EvUpdateCertificate _ None
  | EvUpdateCertificateStatus _ None | EvGetSecret _ None | EvCreateSecret _ None
  | EvUpdateSecret _ None | EvListDeployments _ None | EvUpdateDeployment _ None => true
  | _ => false
  end.

(** The event is a listing of deployments: the correlator was entered. *)
Definition isList (ev : Event) : bool :=
  match ev with EvListDeployments _ _ => true | _ => false end.

Definition deploymentsWellKeyed (m : gmap NamespacedName Deployment.t) : Prop :=
  forall k d, m !! k = Some d -> Deployment.key d = k.

(** The deployments of the namespace of [cert] that use its secret. *)
Definition dependents (cert : Certificate.t) (w : World) : list Deployment.t :=
  List.filter
    (fun d => deploymentUsesSecret d (CertificateSpec.SecretName (Certificate.Spec cert)))
    (Client.inNamespace (Certificate.Namespace cert) (deployments w)).

(** *** The three-workload scenario *)

Definition samplePod (volumes : list Volume.t) (containers : list Container.t)
    : PodTemplateSpec.t :=
  PodTemplateSpec.mk (ObjectMeta.mk "" "" "" ∅ (<["team" := "web"]> ∅) [] None [])
    (PodSpec.mk volumes containers).

Definition sampleDeployment (name : string) (pod : PodTemplateSpec.t) : Deployment.t :=
  Deployment.mk (sampleMeta "default" name [] None) (DeploymentSpec.mk pod).

(** [api] mounts the secret [myapp-tls] as a volume. *)
Definition apiDeployment : Deployment.t :=
  sampleDeployment "api"
    (samplePod [Volume.mk "tls" (Some (SecretVolumeSource.mk "myapp-tls"))]
       [Container.mk "api" [] []]).

(** [worker] imports its environment from the secret [myapp-tls]. *)
Definition workerDeployment : Deployment.t :=
  sampleDeployment "worker"
    (samplePod []
       [Container.mk "worker"
          [EnvFromSource.mk "" (Some (SecretEnvSource.mk "myapp-tls"))] []]).

(** [batch] uses another secret only. *)
Definition batchDeployment : Deployment.t :=
  sampleDeployment "batch"
    (samplePod [Volume.mk "tls" (Some (SecretVolumeSource.mk "other-tls"))]
       [Container.mk "batch" []
          [EnvVar.mk "TOKEN" ""
             (Some (EnvVarSource.mk (Some (SecretKeySelector.mk "other-tls" "token"))))]]).

Definition scenarioCert : Certificate.t :=
  sampleCert [certificateFinalizer] None "" "" true.

(** The namespace [default] with the three workloads, and the faults [flt]
    of the store. *)
Definition scenarioWorld (flt : nat -> option error) : World :=
  mkWorld (sampleEnv (fun n => 1000 + Z.of_nat n) flt)
    (<[Certificate.key scenarioCert := scenarioCert]> ∅) ∅
    (<[Deployment.key apiDeployment := apiDeployment]>
       (<[Deployment.key workerDeployment := workerDeployment]>
          (<[Deployment.key batchDeployment := batchDeployment]> ∅)))
    0 0 0 [].

Definition noFault : nat -> option error := fun _ => None.

(** The error that a client call got. *)
Definition eventErr (ev : Event) : option error :=
  match ev with
  | EvGetCertificate _ err | EvUpdateCertificate _ err
  | EvUpdateCertificateStatus _ err | EvGetSecret _ err | EvCreateSecret _ err
  | EvUpdateSecret _ err | EvListDeployments _ err | EvUpdateDeployment _ err => err
  | EvLogRestartCompleted _ => None
  end.

(** The events hold no listing of deployments. *)
Definition noList (evs : list Event) : Prop := Forall (fun ev => isList ev = false) evs.

(** [m] appends to the trace events that, with its result, satisfy [P]. *)
Definition emits {A : Type} (m : M A) (P : A -> list Event -> Prop) : Prop :=
  forall w, exists evs, trace (m w).2 = (trace w ++ evs)%list /\ P (m w).1 evs.

(** [m] never lists deployments. *)
Definition quiet {A : Type} (m : M A) : Prop := emits m (fun _ evs => noList evs).

(** A store that fails the call number [n] with a conflict. *)
Definition failAt (n : nat) : nat -> option error :=
  fun i => if Nat.eqb i n then Some (ErrStatus Conflict) else None.

(** ** Further definitions for the properties of the whole loop *)

(** The rest of [Reconcile] for a certificate that has the finalizer and
    is not being deleted: the renewal decision, the issuance when it is
    due, and the requeue delay. *)
Definition reconcileLive (certificate : Certificate.t) : M (Result.t * option error) :=
  let* due := needsRenewal certificate in
  let* issued := if due then issue certificate else ret (Continue certificate) in
  match issued with
  | Return out => ret out
  | Continue certificate =>
      let* requeueAfter := getRequeueTime certificate in
      ret (Result.mk false requeueAfter, None)
  end.

(** A world as [w] whose clock reads [t] from now on. *)
Definition atTime (t : time.Time) (w : World) : World :=
  mkWorld
    (mkEnv (rsa_GenerateKey (env w)) (rand_Int (env w)) (x509_CreateCertificate (env w))
       (x509_MarshalPKCS1PrivateKey (env w)) (pem_EncodeToMemory (env w))
       (net_ParseIP (env w)) (Format_RFC3339 (env w)) (fun _ => t) (fault (env w))
       (Scheme (env w)))
    (certificates w) (secrets w) (deployments w) (calls w) (ticks w) (draws w) (trace w).

(** Every result of [m] satisfies [P]. *)
Definition yields {A : Type} (m : M A) (P : A -> Prop) : Prop :=
  forall w, P (m w).1.

(** What [Reconcile] may hand to the scheduler: no immediate requeue, a
    delay within bounds, and nothing but the empty result beside an error. *)
Definition wellFormedOutcome (out : Result.t * option error) : Prop :=
  Result.Requeue out.1 = false /\
  0 <= Result.RequeueAfter out.1 <= time.maxDuration - time.Hour /\
  (out.2 <> None -> out.1 = Result.empty).

Definition wellFormedFlow {A : Type} (r : flow A) : Prop :=
  match r with
  | Return out => wellFormedOutcome out
  | Continue _ => True
  end.

(** [meta.FindStatusCondition]: the first condition of the type. *)
Definition FindStatusCondition (conditions : list Condition.t) (conditionType : string)
    : option Condition.t :=
  List.find (fun c => String.eqb (Condition.Type_ c) conditionType) conditions.

(** The condition of type [conditionType] is present with that status and
    reason. *)
Definition hasCondition (c : Certificate.t) (conditionType : string)
    (status : ConditionStatus) (reason : string) : Prop :=
  exists cond,
    FindStatusCondition (CertificateStatus.Conditions (Certificate.Status c))
      conditionType = Some cond /\
    Condition.Status cond = status /\ Condition.Reason cond = reason.

(** The fields of the status that describe one issuance. *)
Definition issuanceFields (s : CertificateStatus.t)
    : option time.Time * option time.Time * option time.Time * string
      * option time.Time :=
  (CertificateStatus.NotBefore s, CertificateStatus.NotAfter s,
   CertificateStatus.RenewalTime s, CertificateStatus.SerialNumber s,
   CertificateStatus.LastRenewalTime s).

(** The status of [c] reports a failed issuance of [cert]: the issuance
    fields are those of [cert] and Ready is false. *)
Definition failedShape (cert c : Certificate.t) : Prop :=
  issuanceFields (Certificate.Status c) = issuanceFields (Certificate.Status cert) /\
  (hasCondition c typeReadyCert ConditionFalse "GenerationFailed" \/
   hasCondition c typeReadyCert ConditionFalse "SecretUpdateFailed").

(** The status of [c] reports one whole issuance for [cert]: a validity
    window of the duration of the spec, the renewal time computed from its
    end, a last renewal time, and Ready and Available both true. *)
Definition issuedShape (cert c : Certificate.t) : Prop :=
  (exists notBefore d lastRenewalTime,
     specifiedValidity (CertificateSpec.Duration (Certificate.Spec cert)) = Some d /\
     CertificateStatus.NotBefore (Certificate.Status c) = Some notBefore /\
     CertificateStatus.NotAfter (Certificate.Status c) = Some (notBefore + d) /\
     CertificateStatus.RenewalTime (Certificate.Status c)
       = Some (calculateRenewalTime cert (notBefore + d)) /\
     CertificateStatus.LastRenewalTime (Certificate.Status c) = Some lastRenewalTime) /\
  hasCondition c typeReadyCert ConditionTrue "CertificateIssued" /\
  hasCondition c typeAvailableCert ConditionTrue "Reconciling".

(** The event is a write of the secret that went through, with the payload
    [data]. *)
Definition isSecretWritten (data : gmap string bytes) (ev : Event) : Prop :=
  exists s, Secret.Data s = data /\
            (ev = EvCreateSecret s None \/ ev = EvUpdateSecret s None).

(** The event is a call on a secret. *)
Definition isSecretEvent (ev : Event) : bool :=
  match ev with
  | EvGetSecret _ _ | EvCreateSecret _ _ | EvUpdateSecret _ _ => true
  | _ => false
  end.

(** The event belongs to the correlator. *)
Definition isCorrelatorEvent (ev : Event) : bool :=
  match ev with
  | EvListDeployments _ _ | EvUpdateDeployment _ _ | EvLogRestartCompleted _ => true
  | _ => false
  end.

(** [m], started in a world that satisfies [P], ends with a result and a
    world that satisfy [Q]. *)
Definition hoare {A : Type} (P : World -> Prop) (m : M A) (Q : A -> World -> Prop)
    : Prop :=
  forall w, P w -> Q (m w).1 (m w).2.

Definition certificatesWellKeyed (m : gmap NamespacedName Certificate.t) : Prop :=
  forall k c, m !! k = Some c -> Certificate.key c = k.

(** [c] is [c0] up to its finalizers and its status. *)
Definition sameIdentity (c0 c : Certificate.t) : Prop :=
  Certificate.Spec c = Certificate.Spec c0 /\
  ObjectMeta.SetFinalizers [] (Certificate.ObjectMeta c)
  = ObjectMeta.SetFinalizers [] (Certificate.ObjectMeta c0).

(** The key of the secret of a certificate. *)
Definition secretKey (c : Certificate.t) : NamespacedName :=
  (Certificate.Namespace c, CertificateSpec.SecretName (Certificate.Spec c)).

(** The world [w] differs from [w0] at most in the finalizers and the
    status of the certificate [cert0] and in the secret of [cert0]. *)
Definition framed (w0 : World) (cert0 : Certificate.t) (w : World) : Prop :=
  (forall k, k <> Certificate.key cert0 ->
             certificates w !! k = certificates w0 !! k) /\
  (exists c, certificates w !! Certificate.key cert0 = Some c /\ sameIdentity cert0 c) /\
  (forall k, k <> secretKey cert0 -> secrets w !! k = secrets w0 !! k) /\
  secretsWellKeyed (secrets w).

(** The rest of [Reconcile] once the certificate is loaded. *)
Definition reconcileLoaded (certificate : Certificate.t) : M (Result.t * option error) :=
  let* added := ensureFinalizer certificate in
  match added with
  | Return out => ret out
  | Continue certificate =>
      match Certificate.GetDeletionTimestamp certificate with
      | Some _ => finalize certificate
      | None => reconcileLive certificate
      end
  end.

(** * Properties *)

Local Open Scope list_scope.

(** ** Machine integers and durations *)


Lemma wrap_int64_id (z : Z) : minInt64 <= z <= maxInt64 -> wrap_int64 z = z.
Proof.
  unfold wrap_int64, minInt64, maxInt64. intros Hz.
  rewrite Z.mod_small by lia. lia.
Qed.

Lemma leadingInt_from_length (s : string) :
  forall x v r, time.leadingInt_from x s = Some (v, r) ->
    (String.length r <= String.length s)%nat.
Proof.
  induction s as [|c s IH]; intros x v r H; simpl in H.
  - injection H as _ <-. simpl. lia.
  - destruct (negb (time.isDigit c)).
    + injection H as _ <-. simpl. lia.
    + destruct (2 ^ 63 / 10 <? x); [discriminate|].
      destruct (2 ^ 63 <? _); [discriminate|].
      apply IH in H. simpl. lia.
Qed.

Lemma leadingFraction_from_length (s : string) :
  forall x sc o, (String.length (time.leadingFraction_from x sc o s).2 <= String.length s)%nat.
Proof.
  induction s as [|c s IH]; intros x sc o; simpl.
  - lia.
  - destruct (negb (time.isDigit c)); simpl; [lia|].
    destruct o; [specialize (IH x sc true); lia|].
    destruct (_ <? x); [specialize (IH x sc true); lia|].
    destruct (2 ^ 63 <? _); [specialize (IH x sc true); lia|].
    match goal with |- context [time.leadingFraction_from ?a ?b ?c s] =>
      specialize (IH a b c) end. lia.
Qed.

Lemma spanUnit_length (s : string) :
  (String.length (time.spanUnit s).1 + String.length (time.spanUnit s).2
   = String.length s)%nat.
Proof.
  induction s as [|c s IH]; simpl; [reflexivity|].
  destruct (time.isDot c || time.isDigit c); simpl; [reflexivity|].
  destruct (time.spanUnit s) as [u r]. simpl in *. lia.
Qed.

Lemma parseSegment_length (s : string) (v : Z) (r : string) :
  time.parseSegment s = Some (v, r) -> (String.length r < String.length s)%nat.
Proof.
  unfold time.parseSegment. destruct s as [|c0 s0]; [discriminate|].
  destruct (negb _); [discriminate|].
  destruct (time.leadingInt (String c0 s0)) as [[v0 s1]|] eqn:Hint; [|discriminate].
  apply leadingInt_from_length in Hint.
  set (fr := match s1 with
             | EmptyString => _
             | String c1 s1' => _
             end).
  assert (Hfr : (String.length fr.1.2 <= String.length s1)%nat).
  { subst fr. destruct s1 as [|c1 s1']; [simpl; lia|].
    destruct (time.isDot c1); [|simpl; lia].
    unfold time.leadingFraction.
    pose proof (leadingFraction_from_length s1' 0 (time.float64.of_Z 1) false) as Hl.
    destruct (time.leadingFraction_from _ _ _ _) as [[f sc] s2]. simpl in *. lia. }
  destruct fr as [[[f sc] s2] post]. simpl in Hfr.
  destruct (_ && _); [discriminate|].
  pose proof (spanUnit_length s2) as Hu.
  destruct (time.spanUnit s2) as [u s3]. simpl in Hu.
  destruct (Nat.eqb (String.length u) 0) eqn:Hz; [discriminate|].
  apply Nat.eqb_neq in Hz.
  destruct (time.unitMap u); [|discriminate].
  destruct (_ <? v0); [discriminate|].
  destruct (0 <? f).
  - destruct (2 ^ 63 <? _); [discriminate|]. intros [= _ <-]. lia.
  - intros [= _ <-]. lia.
Qed.

(** The fuel that [ParseDuration] gives to its loop is never exhausted. *)
Lemma parseSegments_fuel (fuel : nat) :
  forall d s, (String.length s < fuel)%nat -> time.parseSegments fuel d s <> None.
Proof.
  induction fuel as [|fuel IH]; intros d s Hlen; [lia|].
  destruct s as [|c s]; [discriminate|]. cbn [time.parseSegments].
  destruct (time.parseSegment (String c s)) as [[v r]|] eqn:Hseg; [|discriminate].
  destruct (2 ^ 63 <? _); [discriminate|].
  apply parseSegment_length in Hseg. apply IH. lia.
Qed.

Lemma ParseDuration_fuel (s : string) :
  time.parseSegments (S (String.length s)) 0 s <> None.
Proof. apply parseSegments_fuel. lia. Qed.


Example ParseDuration_samples :
  time.ParseDuration "720h" = Some (720 * time.Hour) /\
  time.ParseDuration "2160h" = Some (2160 * time.Hour) /\
  time.ParseDuration "1h30m" = Some (90 * time.Minute) /\
  time.ParseDuration "1.5h" = Some (90 * time.Minute) /\
  time.ParseDuration "-24h" = Some (- 24 * time.Hour) /\
  time.ParseDuration "0" = Some 0 /\
  time.ParseDuration "0s" = Some 0 /\
  time.ParseDuration "-2562047h47m16.854775808s" = Some minInt64 /\
  time.ParseDuration "2562047h47m16.854775808s" = None /\
  time.ParseDuration "" = None /\
  time.ParseDuration "90" = None /\
  time.ParseDuration "90d" = None /\
  time.ParseDuration "thirty days" = None.
Proof. vm_compute. repeat split. Qed.

Lemma Sub_range (t u : time.Time) :
  time.minDuration <= time.Sub t u <= time.maxDuration.
Proof.
  unfold time.Sub, time.minDuration, time.maxDuration, minInt64, maxInt64.
  repeat case_match; lia.
Qed.

Lemma Sub_exact (t u : time.Time) :
  time.minDuration <= t - u <= time.maxDuration -> time.Sub t u = t - u.
Proof.
  unfold time.Sub, time.minDuration, time.maxDuration, minInt64, maxInt64.
  intros H. repeat case_match; lia.
Qed.

(** ** Renewal policy *)

Lemma needsRenewal_value (cert : Certificate.t) (w : World) :
  (needsRenewal cert w).1 =
  match CertificateStatus.RenewalTime (Certificate.Status cert) with
  | None => true
  | Some renewalTime => renewalTime <? now w
  end.
Proof.
  unfold needsRenewal. destruct (CertificateStatus.RenewalTime _); reflexivity.
Qed.

(** C1, as the code has it: [needsRenewal] is true when no renewal time is
    recorded; otherwise it is true exactly when the current time is
    strictly after the recorded renewal time, hence false at the renewal
    instant itself and before it. *)
Theorem needsRenewal_strictly_after (cert : Certificate.t) (w : World) :
  (CertificateStatus.RenewalTime (Certificate.Status cert) = None ->
   (needsRenewal cert w).1 = true) /\
  (forall renewalTime,
     CertificateStatus.RenewalTime (Certificate.Status cert) = Some renewalTime ->
     ((needsRenewal cert w).1 = true <-> renewalTime < now w) /\
     (now w <= renewalTime -> (needsRenewal cert w).1 = false)).
Proof.
  rewrite needsRenewal_value. split.
  - intros ->. reflexivity.
  - intros renewalTime ->. split; [apply Z.ltb_lt|apply Z.ltb_ge].
Qed.

Lemma needsRenewal_strictly_after_witness :
  (needsRenewal (issuedCert 1000) (sampleWorld 1001 (issuedCert 1000))).1 = true.
Proof.
  apply (proj2 (needsRenewal_strictly_after (issuedCert 1000)
                  (sampleWorld 1001 (issuedCert 1000))) 1000 eq_refl).
  vm_compute. reflexivity.
Defined.

(** C1, as the spec has it, fails at the renewal instant: the recorded
    renewal time is the current time and [needsRenewal] is false. *)
Lemma needsRenewal_false_at_renewal_instant :
  CertificateStatus.RenewalTime (Certificate.Status (issuedCert 1000)) = Some 1000 /\
  now (sampleWorld 1000 (issuedCert 1000)) = 1000 /\
  (needsRenewal (issuedCert 1000) (sampleWorld 1000 (issuedCert 1000))).1 = false.
Proof. vm_compute. repeat split. Qed.

Lemma getRequeueTime_value (cert : Certificate.t) (w : World) :
  (getRequeueTime cert w).1 =
  match CertificateStatus.RenewalTime (Certificate.Status cert) with
  | None => time.Minute
  | Some renewalTime =>
      let remaining := time.Sub renewalTime (now w) in
      if remaining <? 0 then time.Minute
      else if remaining <? time.Hour then Z.quot remaining 2
      else wrap_int64 (remaining - time.Hour)
  end.
Proof.
  unfold getRequeueTime. destruct (CertificateStatus.RenewalTime _); [|reflexivity].
  unfold bind, Now, time.Until, now. cbn -[time.Sub time.Hour time.Minute Z.quot].
  repeat case_match; reflexivity.
Qed.

(** C2: [getRequeueTime] is the piecewise function of the spec. Without a
    recorded renewal time it is one minute; with [remaining] the duration
    from now to the renewal time (their difference, whenever it fits a
    [Duration]) it is one minute when [remaining < 0], [remaining / 2] when
    [0 <= remaining < 1h] and [remaining - 1h] otherwise; so 30 minutes
    ahead give 15 minutes, 5 hours ahead give 4 hours, and one hour overdue
    gives one minute. *)
Theorem getRequeueTime_piecewise (cert : Certificate.t) (w : World) :
  (CertificateStatus.RenewalTime (Certificate.Status cert) = None ->
   (getRequeueTime cert w).1 = time.Minute) /\
  (forall renewalTime,
     CertificateStatus.RenewalTime (Certificate.Status cert) = Some renewalTime ->
     let remaining := time.Sub renewalTime (now w) in
     (time.minDuration <= renewalTime - now w <= time.maxDuration ->
      remaining = renewalTime - now w) /\
     (remaining < 0 -> (getRequeueTime cert w).1 = time.Minute) /\
     (0 <= remaining < time.Hour -> (getRequeueTime cert w).1 = remaining / 2) /\
     (time.Hour <= remaining -> (getRequeueTime cert w).1 = remaining - time.Hour)) /\
  (CertificateStatus.RenewalTime (Certificate.Status cert)
     = Some (now w + 30 * time.Minute) ->
   (getRequeueTime cert w).1 = 15 * time.Minute) /\
  (CertificateStatus.RenewalTime (Certificate.Status cert)
     = Some (now w + 5 * time.Hour) ->
   (getRequeueTime cert w).1 = 4 * time.Hour) /\
  (CertificateStatus.RenewalTime (Certificate.Status cert)
     = Some (now w - time.Hour) ->
   (getRequeueTime cert w).1 = time.Minute).
Proof.
  rewrite getRequeueTime_value.
  assert (Hh : time.Hour = 3600000000000) by reflexivity.
  assert (Hm : time.Minute = 60000000000) by reflexivity.
  split; [intros ->; reflexivity|].
  split.
  { intros renewalTime -> remaining.
    pose proof (Sub_range renewalTime (now w)) as Hr. fold remaining in Hr.
    unfold time.minDuration, time.maxDuration, minInt64, maxInt64 in Hr.
    split; [apply Sub_exact|]. cbv zeta. fold remaining.
    split; [|split]; intros H.
    - apply Z.ltb_lt in H. rewrite H. reflexivity.
    - destruct (Z.ltb_spec remaining 0); [lia|].
      destruct (Z.ltb_spec remaining time.Hour); [|lia].
      apply Z.quot_div_nonneg; lia.
    - destruct (Z.ltb_spec remaining 0); [lia|].
      destruct (Z.ltb_spec remaining time.Hour); [lia|].
      apply wrap_int64_id. unfold minInt64, maxInt64. lia. }
  split; [|split]; intros ->; cbv zeta; rewrite Sub_exact;
    unfold time.minDuration, time.maxDuration, minInt64, maxInt64;
    rewrite ?Hh, ?Hm; try lia.
  - replace (now w + 30 * 60000000000 - now w) with 1800000000000 by lia.
    reflexivity.
  - replace (now w + 5 * 3600000000000 - now w) with 18000000000000 by lia.
    reflexivity.
  - replace (now w - 3600000000000 - now w) with (-3600000000000) by lia.
    reflexivity.
Qed.

Lemma getRequeueTime_piecewise_witness :
  (getRequeueTime (sampleCert [] None "" "" false)
     (sampleWorld 1000 (sampleCert [] None "" "" false))).1 = time.Minute /\
  (getRequeueTime (issuedCert (1000 + 30 * time.Minute))
     (sampleWorld 1000 (issuedCert (1000 + 30 * time.Minute)))).1
  = time.Sub (1000 + 30 * time.Minute) 1000 / 2 /\
  (getRequeueTime (issuedCert (1000 + 30 * time.Minute))
     (sampleWorld 1000 (issuedCert (1000 + 30 * time.Minute)))).1
  = 15 * time.Minute /\
  (getRequeueTime (issuedCert (1000 + 5 * time.Hour))
     (sampleWorld 1000 (issuedCert (1000 + 5 * time.Hour)))).1
  = time.Sub (1000 + 5 * time.Hour) 1000 - time.Hour /\
  (getRequeueTime (issuedCert (1000 - time.Hour))
     (sampleWorld 1000 (issuedCert (1000 - time.Hour)))).1 = time.Minute.
Proof.
  split; [|split; [|split; [|split]]].
  - apply (proj1 (getRequeueTime_piecewise (sampleCert [] None "" "" false)
                    (sampleWorld 1000 (sampleCert [] None "" "" false)))).
    reflexivity.
  - apply (proj1 (proj2 (getRequeueTime_piecewise
                    (issuedCert (1000 + 30 * time.Minute))
                    (sampleWorld 1000 (issuedCert (1000 + 30 * time.Minute)))))
             (1000 + 30 * time.Minute) eq_refl).
    vm_compute. split; [discriminate|reflexivity].
  - apply (proj1 (proj2 (proj2 (getRequeueTime_piecewise
                    (issuedCert (1000 + 30 * time.Minute))
                    (sampleWorld 1000 (issuedCert (1000 + 30 * time.Minute))))))).
    reflexivity.
  - apply (proj1 (proj2 (getRequeueTime_piecewise
                    (issuedCert (1000 + 5 * time.Hour))
                    (sampleWorld 1000 (issuedCert (1000 + 5 * time.Hour)))))
             (1000 + 5 * time.Hour) eq_refl).
    vm_compute. discriminate.
  - apply (proj1 (proj2 (getRequeueTime_piecewise
                    (issuedCert (1000 - time.Hour))
                    (sampleWorld 1000 (issuedCert (1000 - time.Hour)))))
             (1000 - time.Hour) eq_refl).
    vm_compute. reflexivity.
Defined.

(** ** Certificate generator *)

(** The generator reads the clock and the entropy source and nothing else:
    it calls no client and leaves the store as it is. *)
Lemma generateCertificate_world (cert : Certificate.t) (w : World) :
  let w' := (generateCertificate cert w).2 in
  env w' = env w /\ certificates w' = certificates w /\ secrets w' = secrets w /\
  deployments w' = deployments w /\ calls w' = calls w /\ trace w' = trace w.
Proof.
  unfold generateCertificate, bind, getEnv, GenerateKey, randInt, Now, ret.
  cbn -[time.ParseDuration time.Hour Z.mul Z.shiftl].
  repeat case_match; simplify_eq; cbn; auto 10.
Qed.

Lemma generateCertificate_Ok (cert : Certificate.t) (w : World)
    (certPEM keyPEM : bytes) (notBefore notAfter : time.Time) (serial : string) :
  (generateCertificate cert w).1 = Ok (certPEM, keyPEM, notBefore, notAfter, serial) ->
  exists d,
    specifiedValidity (CertificateSpec.Duration (Certificate.Spec cert)) = Some d /\
    notBefore = now w /\ notAfter = now w + d.
Proof.
  unfold generateCertificate, specifiedValidity, bind, getEnv, GenerateKey, randInt,
    Now, ret, now, time.Add.
  cbn -[time.ParseDuration time.Hour Z.mul Z.shiftl].
  repeat case_match; cbn; intros ?; simplify_eq; eexists; repeat split; reflexivity.
Qed.
(** C4, as the code has it: a successful generation has
    [notAfter - notBefore] equal to the duration parsed from the duration
    string (2160h when it is empty), and [notBefore < notAfter] exactly when
    that duration is positive; a non-empty string that does not parse makes
    the generation fail, with the invalid-duration error whenever the key
    generation before it has succeeded, never with a default. *)
Theorem generateCertificate_validity (cert : Certificate.t) (w : World) :
  (forall certPEM keyPEM notBefore notAfter serial,
     (generateCertificate cert w).1
       = Ok (certPEM, keyPEM, notBefore, notAfter, serial) ->
     exists d,
       specifiedValidity (CertificateSpec.Duration (Certificate.Spec cert)) = Some d /\
       notAfter - notBefore = d /\
       (notBefore < notAfter <-> 0 < d)) /\
  (CertificateSpec.Duration (Certificate.Spec cert) <> "" ->
   time.ParseDuration (CertificateSpec.Duration (Certificate.Spec cert)) = None ->
   exists e,
     (generateCertificate cert w).1 = Err e /\
     (rsa_GenerateKey (env w) (draws w) <> None -> e = errInvalidDuration)).
Proof.
  split.
  - intros certPEM keyPEM notBefore notAfter serial H.
    apply generateCertificate_Ok in H as (d & Hd & -> & ->).
    exists d. split; [exact Hd|]. split; lia.
  - intros Hne Hparse.
    apply String.eqb_neq in Hne.
    unfold generateCertificate, bind, getEnv, GenerateKey, ret.
    cbn -[time.ParseDuration time.Hour Z.mul Z.shiftl].
    destruct (rsa_GenerateKey (env w) (draws w)) as [key|].
    + rewrite Hne, Hparse. cbn. eexists. split; [reflexivity|]. reflexivity.
    + cbn. eexists. split; [reflexivity|]. intros Hk. congruence.
Qed.

Lemma generateCertificate_validity_witness :
  exists d,
    specifiedValidity "48h" = Some d /\
    (1000 + 48 * time.Hour) - 1000 = d /\
    (1000 < 1000 + 48 * time.Hour <-> 0 < d).
Proof.
  apply (proj1 (generateCertificate_validity (sampleCert [] None "48h" "" false)
                  (sampleWorld 1000 (sampleCert [] None "48h" "" false)))
           [] [] 1000 (1000 + 48 * time.Hour) "beef").
  vm_compute. reflexivity.
Defined.

(** C4, as the spec has it, fails on a spec whose duration is negative: the
    generation succeeds and the validity window ends before it starts. *)
Lemma generateCertificate_window_reversed :
  (generateCertificate (sampleCert [] None "-24h" "" false)
     (sampleWorld 1000 (sampleCert [] None "-24h" "" false))).1
  = Ok ([], [], 1000, 1000 - 24 * time.Hour, "beef") /\
  ~ (1000 < 1000 - 24 * time.Hour).
Proof. split; [vm_compute; reflexivity|vm_compute; discriminate]. Qed.

(** C10: the generator does not check the sign of the duration. For a
    duration string that parses to zero or to a negative duration the
    generation never fails on the duration, and once the key, the serial
    number and the signature are obtained it succeeds with
    [notAfter = notBefore + d <= notBefore]. *)
Theorem generateCertificate_nonpositive_duration
    (cert : Certificate.t) (w : World) (d : time.Duration) :
  time.ParseDuration (CertificateSpec.Duration (Certificate.Spec cert)) = Some d ->
  d <= 0 ->
  (forall e, (generateCertificate cert w).1 = Err e -> e <> errInvalidDuration) /\
  (forall key serial,
     rsa_GenerateKey (env w) (draws w) = Some key ->
     rand_Int (env w) (S (draws w)) (Z.shiftl 1 128) = Some serial ->
     (forall template,
        x509_CreateCertificate (env w) template template
          (PrivateKey.PublicKey key) key <> None) ->
     exists certPEM keyPEM serialNumber,
       (generateCertificate cert w).1
         = Ok (certPEM, keyPEM, now w, now w + d, serialNumber) /\
       now w + d <= now w).
Proof.
  intros Hparse Hd.
  assert (Hne : String.eqb (CertificateSpec.Duration (Certificate.Spec cert)) "" = false).
  { destruct (String.eqb_spec (CertificateSpec.Duration (Certificate.Spec cert)) "")
      as [Heq|]; [|reflexivity].
    rewrite Heq in Hparse. vm_compute in Hparse. discriminate. }
  unfold generateCertificate, bind, getEnv, GenerateKey, randInt, Now, ret, now,
    time.Add, errInvalidDuration.
  cbn -[time.ParseDuration time.Hour Z.mul Z.shiftl].
  rewrite Hne, Hparse. split.
  - intros e. repeat case_match; cbn; intros ?; simplify_eq; discriminate.
  - intros key serial Hkey Hserial Hsign. rewrite Hkey.
    cbn -[time.ParseDuration time.Hour Z.mul Z.shiftl]. rewrite Hserial.
    cbn -[time.ParseDuration time.Hour Z.mul Z.shiftl].
    match goal with |- context [x509_CreateCertificate (env w) ?t ?t _ _] =>
      specialize (Hsign t);
      destruct (x509_CreateCertificate (env w) t t (PrivateKey.PublicKey key) key)
    end; [|congruence].
    cbn. do 3 eexists. split; [reflexivity|lia].
Qed.

Lemma generateCertificate_nonpositive_duration_witness :
  exists certPEM keyPEM serialNumber,
    (generateCertificate (sampleCert [] None "-24h" "" false)
       (sampleWorld 1000 (sampleCert [] None "-24h" "" false))).1
    = Ok (certPEM, keyPEM, 1000, 1000 + - 24 * time.Hour, serialNumber) /\
    1000 + - 24 * time.Hour <= 1000.
Proof.
  apply (proj2 (generateCertificate_nonpositive_duration
                  (sampleCert [] None "-24h" "" false)
                  (sampleWorld 1000 (sampleCert [] None "-24h" "" false))
                  (- 24 * time.Hour) ltac:(vm_compute; reflexivity)
                  ltac:(vm_compute; discriminate))
           (PrivateKey.mk 3233 17 2753) 48879 eq_refl eq_refl).
  intros template. discriminate.
Defined.

(** ** Stepping through the monad *)

Lemma bind_inv {A B : Type} (m : M A) (k : A -> M B) (w w' : World) (b : B) :
  bind m k w = (b, w') -> exists a w1, m w = (a, w1) /\ k a w1 = (b, w').
Proof.
  unfold bind. destruct (m w) as [a w1]. intros H. exists a, w1. split; [reflexivity|exact H].
Qed.

Lemma failIssuance_returns (cert : Certificate.t) (reason message : string)
    (err : error) (w : World) :
  (failIssuance cert reason message err w).1 = Return (Result.empty, Some err).
Proof.
  unfold failIssuance, bind, Now, ret.
  destruct (Client.Status_Update _ _) as [r w1]. reflexivity.
Qed.

Lemma withCondition_times (cert : Certificate.t) (c : Condition.t) :
  CertificateStatus.NotAfter (Certificate.Status (withCondition cert c))
    = CertificateStatus.NotAfter (Certificate.Status cert) /\
  CertificateStatus.RenewalTime (Certificate.Status (withCondition cert c))
    = CertificateStatus.RenewalTime (Certificate.Status cert) /\
  CertificateStatus.NotBefore (Certificate.Status (withCondition cert c))
    = CertificateStatus.NotBefore (Certificate.Status cert).
Proof. repeat split. Qed.

(** ** Renewal time *)





(** The first reconciliation of a fresh certificate: the secret is created,
    the status is written, and the next reconciliation is asked for one
    hour before the renewal time. *)
Example Reconcile_first_issuance :
  let cert := sampleCert [certificateFinalizer] None "" "" false in
  let run := Reconcile ("default", "web") (sampleWorld 1000 cert) in
  List.map succeeded (trace run.2) = [true; false; true; true] /\
  (exists s, secrets run.2 !! ("default", "myapp-tls") = Some s /\
             s = desiredSecret cert [] []) /\
  run.1 = (Result.mk false (1000 + 1440 * time.Hour - 1004 - time.Hour), None).
Proof.
  cbv zeta. split; [vm_compute; reflexivity|].
  split; [eexists; split; vm_compute; reflexivity|]. vm_compute. reflexivity.
Qed.


(** ** Finalizer and deletion *)

Lemma filter_finalizer_absent (f : list string) (finalizer : string) :
  existsb (String.eqb finalizer) f = false ->
  List.filter (fun e => negb (String.eqb e finalizer)) f = f.
Proof.
  induction f as [|e f IH]; [reflexivity|]. cbn.
  rewrite (String.eqb_sym finalizer e).
  destruct (String.eqb e finalizer); cbn; [discriminate|].
  intros H. rewrite IH by exact H. reflexivity.
Qed.

Lemma filter_length_le (f : list string) (finalizer : string) :
  (List.length (List.filter (fun e => negb (String.eqb e finalizer)) f)
   <= List.length f)%nat.
Proof.
  induction f as [|e f IH]; cbn; [lia|].
  destruct (negb (String.eqb e finalizer)); cbn; lia.
Qed.

Lemma filter_finalizer_present (f : list string) (finalizer : string) :
  existsb (String.eqb finalizer) f = true ->
  (List.length (List.filter (fun e => negb (String.eqb e finalizer)) f)
   < List.length f)%nat.
Proof.
  induction f as [|e f IH]; [discriminate|]. cbn.
  rewrite (String.eqb_sym finalizer e).
  destruct (String.eqb e finalizer); cbn.
  - intros _. pose proof (filter_length_le f finalizer). lia.
  - intros H. apply IH in H. lia.
Qed.

Lemma filter_finalizer_gone (f : list string) (finalizer : string) :
  existsb (String.eqb finalizer)
    (List.filter (fun e => negb (String.eqb e finalizer)) f) = false.
Proof.
  induction f as [|e f IH]; [reflexivity|]. cbn.
  destruct (String.eqb e finalizer) eqn:He; cbn; [exact IH|].
  rewrite String.eqb_sym, He. exact IH.
Qed.

Lemma SetFinalizers_same (c : Certificate.t) :
  Certificate.SetFinalizers (Certificate.GetFinalizers c) c = c.
Proof. destruct c as [[] ? ?]. reflexivity. Qed.

(** What [r.Update] on a certificate leaves behind: one more event, the
    secrets and the deployments as they were, and every stored status. *)
Lemma Update_Certificate_effect (obj : Certificate.t) (w : World) :
  let run := Client.Update_Certificate obj w in
  trace run.2 = trace w ++ [EvUpdateCertificate obj run.1] /\
  secrets run.2 = secrets w /\ deployments run.2 = deployments w /\
  env run.2 = env w /\
  (forall k c, certificates w !! k = Some c ->
     exists c', certificates run.2 !! k = Some c' /\
                Certificate.Status c' = Certificate.Status c).
Proof.
  unfold Client.Update_Certificate.
  destruct (Client.nextFault w) as [e|].
  { cbn. repeat split. intros k c H. exists c. split; [exact H|reflexivity]. }
  destruct (certificates w !! Certificate.key obj) as [old|] eqn:Hold.
  2:{ cbn. repeat split. intros k c H. exists c. split; [exact H|reflexivity]. }
  cbn. repeat split. intros k c H.
  destruct (decide (Certificate.key obj = k)) as [<-|Hne].
  - rewrite lookup_insert_eq. eexists. split; [reflexivity|]. cbn. congruence.
  - rewrite lookup_insert_ne by exact Hne. exists c. split; [exact H|reflexivity].
Qed.

(** C6: reconciling a certificate that has the finalizer and a deletion
    timestamp makes exactly one update, whose object is the certificate
    without the finalizer and with its status as loaded; no status update
    and no call on a secret or a deployment is made, and the secrets, the
    deployments and every stored status stay as they were. *)
Theorem Reconcile_deletion (req : NamespacedName) (w : World)
    (cert : Certificate.t) (deletionTimestamp : time.Time) :
  Client.nextFault w = None ->
  certificates w !! req = Some cert ->
  controllerutil.ContainsFinalizer cert certificateFinalizer = true ->
  Certificate.GetDeletionTimestamp cert = Some deletionTimestamp ->
  let run := Reconcile req w in
  let cert' := (controllerutil.RemoveFinalizer cert certificateFinalizer).2 in
  exists err,
    trace run.2
    = trace w ++ [EvGetCertificate req None; EvUpdateCertificate cert' err] /\
    run.1 = (Result.empty, err) /\
    controllerutil.ContainsFinalizer cert' certificateFinalizer = false /\
    Certificate.Status cert' = Certificate.Status cert /\
    secrets run.2 = secrets w /\
    deployments run.2 = deployments w /\
    (forall k c, certificates w !! k = Some c ->
       exists c', certificates run.2 !! k = Some c' /\
                  Certificate.Status c' = Certificate.Status c).
Proof.
  intros Hfault Hget Hfin Hdel run cert'.
  assert (Hok : (controllerutil.RemoveFinalizer cert certificateFinalizer).1 = true).
  { unfold controllerutil.RemoveFinalizer. cbn [fst].
    apply negb_true_iff, Nat.eqb_neq.
    pose proof (filter_finalizer_present _ _ Hfin). lia. }
  assert (Hrun : run
               = let u := Client.Update_Certificate cert'
                            (called (EvGetCertificate req None) w) in
                 ((Result.empty, u.1), u.2)).
  { subst run cert'. unfold Reconcile, bind, Client.Get_Certificate.
    rewrite Hfault, Hget. unfold ensureFinalizer. rewrite Hfin. cbn [negb].
    unfold ret. rewrite Hdel. unfold finalize, bind. rewrite Hfin.
    destruct (controllerutil.RemoveFinalizer cert certificateFinalizer) as [ok c'].
    cbn [fst snd] in *. rewrite Hok. cbn [negb].
    destruct (Client.Update_Certificate c' _) as [[e|] w1]; reflexivity. }
  pose proof (Update_Certificate_effect cert' (called (EvGetCertificate req None) w))
    as (Htr & Hsec & Hdep & _ & Hst).
  exists (Client.Update_Certificate cert' (called (EvGetCertificate req None) w)).1.
  rewrite Hrun. cbn [fst snd]. cbv zeta.
  split. { rewrite Htr. cbn. rewrite <- app_assoc. reflexivity. }
  split; [reflexivity|].
  split. { apply filter_finalizer_gone. }
  split; [reflexivity|].
  split; [exact Hsec|]. split; [exact Hdep|]. exact Hst.
Qed.

Lemma Reconcile_deletion_witness :
  let cert := sampleCert [certificateFinalizer] (Some 5) "" "" false in
  exists err,
    trace (Reconcile ("default", "web") (sampleWorld 1000 cert)).2
    = [] ++ [EvGetCertificate ("default", "web") None;
             EvUpdateCertificate
               (controllerutil.RemoveFinalizer cert certificateFinalizer).2 err].
Proof.
  intros cert.
  destruct (Reconcile_deletion ("default", "web") (sampleWorld 1000 cert) cert 5
              eq_refl ltac:(vm_compute; reflexivity) eq_refl eq_refl)
    as (err & Htrace & _).
  exists err. exact Htrace.
Defined.

Lemma AddFinalizer_absent (cert : Certificate.t) (finalizer : string) :
  controllerutil.ContainsFinalizer cert finalizer = false ->
  controllerutil.AddFinalizer cert finalizer
  = (true, Certificate.SetFinalizers (Certificate.GetFinalizers cert ++ [finalizer]) cert).
Proof.
  unfold controllerutil.ContainsFinalizer, controllerutil.AddFinalizer.
  intros ->. reflexivity.
Qed.

Lemma RemoveFinalizer_added (cert : Certificate.t) (finalizer : string) :
  controllerutil.ContainsFinalizer cert finalizer = false ->
  controllerutil.RemoveFinalizer
    (Certificate.SetFinalizers (Certificate.GetFinalizers cert ++ [finalizer]) cert)
    finalizer
  = (true, cert).
Proof.
  unfold controllerutil.ContainsFinalizer, controllerutil.RemoveFinalizer.
  intros Habs.
  assert (Hf : List.filter (fun e => negb (String.eqb e finalizer))
                 (Certificate.GetFinalizers cert ++ [finalizer])
               = Certificate.GetFinalizers cert).
  { rewrite List.filter_app, (filter_finalizer_absent _ _ Habs). cbn.
    rewrite String.eqb_refl. cbn. apply app_nil_r. }
  destruct cert as [[] ? ?]. cbn in *. rewrite Hf. f_equal.
  apply negb_true_iff, Nat.eqb_neq. rewrite length_app. cbn. lia.
Qed.

Lemma ContainsFinalizer_added (cert : Certificate.t) (finalizer : string) :
  controllerutil.ContainsFinalizer
    (Certificate.SetFinalizers (Certificate.GetFinalizers cert ++ [finalizer]) cert)
    finalizer = true.
Proof.
  unfold controllerutil.ContainsFinalizer. destruct cert as [[] ? ?]. cbn.
  rewrite existsb_app. cbn. rewrite String.eqb_refl. apply orb_true_iff.
  right. reflexivity.
Qed.

(** C5, as the code has it: the finalizer is added whenever it is absent,
    whether or not a deletion is requested. On a certificate with a
    deletion timestamp and without the finalizer, [Reconcile] adds the
    finalizer and issues an update with it; when that update fails it
    returns its error, otherwise it removes the finalizer again and issues
    a second update with the certificate as it was loaded. No status
    update and no call on a secret or a deployment is made. *)
Theorem Reconcile_deleting_without_finalizer (req : NamespacedName) (w : World)
    (cert : Certificate.t) (deletionTimestamp : time.Time) :
  Client.nextFault w = None ->
  certificates w !! req = Some cert ->
  controllerutil.ContainsFinalizer cert certificateFinalizer = false ->
  Certificate.GetDeletionTimestamp cert = Some deletionTimestamp ->
  let run := Reconcile req w in
  let added :=
    Certificate.SetFinalizers
      (Certificate.GetFinalizers cert ++ [certificateFinalizer]) cert in
  controllerutil.ContainsFinalizer added certificateFinalizer = true /\
  secrets run.2 = secrets w /\
  deployments run.2 = deployments w /\
  ((exists err,
      trace run.2
      = trace w ++ [EvGetCertificate req None; EvUpdateCertificate added (Some err)] /\
      run.1 = (Result.empty, Some err)) \/
   (exists err,
      trace run.2
      = trace w ++ [EvGetCertificate req None; EvUpdateCertificate added None;
                    EvUpdateCertificate cert err] /\
      run.1 = (Result.empty, err))).
Proof.
  intros Hfault Hget Hfin Hdel run added.
  split; [apply ContainsFinalizer_added|].
  assert (Hdel' : Certificate.GetDeletionTimestamp added = Some deletionTimestamp).
  { subst added. destruct cert as [[] ? ?]. exact Hdel. }
  set (w0 := called (EvGetCertificate req None) w).
  pose proof (Update_Certificate_effect added w0) as (Htr1 & Hsec1 & Hdep1 & _ & _).
  assert (Hrun : run
               = let u1 := Client.Update_Certificate added w0 in
                 match u1.1 with
                 | Some err => ((Result.empty, Some err), u1.2)
                 | None =>
                     let u2 := Client.Update_Certificate cert u1.2 in
                     ((Result.empty, u2.1), u2.2)
                 end).
  { subst run added. unfold Reconcile, bind, Client.Get_Certificate.
    rewrite Hfault, Hget. fold w0. unfold ensureFinalizer. rewrite Hfin. cbn [negb].
    rewrite (AddFinalizer_absent _ _ Hfin). cbn [negb]. unfold bind.
    cbv zeta.
    destruct (Client.Update_Certificate _ w0) as [[e|] w1]; [reflexivity|].
    cbn [fst snd]. unfold ret. rewrite Hdel'. unfold finalize.
    rewrite ContainsFinalizer_added.
    rewrite (RemoveFinalizer_added _ _ Hfin). cbn [negb]. unfold bind.
    destruct (Client.Update_Certificate cert w1) as [[e|] w2]; reflexivity. }
  rewrite Hrun. cbv zeta.
  destruct (Client.Update_Certificate added w0) as [[e|] w1] eqn:Hu1;
    cbn [fst snd] in *.
  - split; [exact Hsec1|]. split; [exact Hdep1|]. left. exists e.
    split; [|reflexivity]. rewrite Htr1. cbn. rewrite <- app_assoc. reflexivity.
  - pose proof (Update_Certificate_effect cert w1) as (Htr2 & Hsec2 & Hdep2 & _ & _).
    split; [rewrite Hsec2, Hsec1; reflexivity|].
    split; [rewrite Hdep2, Hdep1; reflexivity|]. right.
    exists (Client.Update_Certificate cert w1).1.
    split; [|reflexivity]. rewrite Htr2, Htr1. cbn.
    rewrite <- !app_assoc. reflexivity.
Qed.

Lemma Reconcile_deleting_without_finalizer_witness :
  let cert := sampleCert [] (Some 5) "" "" false in
  secrets (Reconcile ("default", "web") (sampleWorld 1000 cert)).2
  = secrets (sampleWorld 1000 cert).
Proof.
  intros cert.
  apply (Reconcile_deleting_without_finalizer ("default", "web")
           (sampleWorld 1000 cert) cert 5
           eq_refl ltac:(vm_compute; reflexivity) eq_refl eq_refl).
Defined.

(** C5, as the spec has it, fails: on a certificate with a deletion
    timestamp and without the finalizer, [Reconcile] adds the finalizer and
    writes the resource twice. *)
Lemma Reconcile_adds_finalizer_while_deleting :
  let cert := sampleCert [] (Some 5) "" "" false in
  Certificate.GetDeletionTimestamp cert = Some 5 /\
  controllerutil.ContainsFinalizer cert certificateFinalizer = false /\
  trace (Reconcile ("default", "web") (sampleWorld 1000 cert)).2
  = [EvGetCertificate ("default", "web") None;
     EvUpdateCertificate
       (sampleCert [certificateFinalizer] (Some 5) "" "" false) None;
     EvUpdateCertificate cert None].
Proof.
  cbv zeta. split; [reflexivity|]. split; [reflexivity|]. vm_compute. reflexivity.
Qed.

(** ** Secret synchronizer *)

Lemma syncedSecret_key (existing : Secret.t) (cert : Certificate.t)
    (certPEM keyPEM : bytes) :
  Secret.key (syncedSecret existing cert certPEM keyPEM) = Secret.key existing.
Proof. destruct existing as [[] ? ?]. reflexivity. Qed.

Lemma syncedSecret_idem (existing : Secret.t) (cert : Certificate.t)
    (certPEM keyPEM : bytes) :
  syncedSecret (syncedSecret existing cert certPEM keyPEM) cert certPEM keyPEM
  = syncedSecret existing cert certPEM keyPEM.
Proof. destruct existing as [[] ? ?]. reflexivity. Qed.

Lemma syncedSecret_matching (existing : Secret.t) (cert : Certificate.t)
    (certPEM keyPEM : bytes) :
  Secret.Data existing = tlsData certPEM keyPEM ->
  ObjectMeta.Labels (Secret.ObjectMeta existing) = managedLabels cert ->
  syncedSecret existing cert certPEM keyPEM = existing.
Proof. destruct existing as [[] ? ?]. cbn. intros -> ->. reflexivity. Qed.

Lemma syncedSecret_desired (cert : Certificate.t) (certPEM keyPEM : bytes) :
  syncedSecret (desiredSecret cert certPEM keyPEM) cert certPEM keyPEM
  = desiredSecret cert certPEM keyPEM.
Proof. reflexivity. Qed.

(** One call of the synchronizer in a world whose next two client calls go
    through: a create when the secret is absent, an overwrite in place
    otherwise. *)
Lemma createOrUpdateSecret_run (cert : Certificate.t) (certPEM keyPEM : bytes)
    (w : World) :
  existsb (String.eqb "Certificate") (Scheme (env w)) = true ->
  fault (env w) (calls w) = None ->
  fault (env w) (S (calls w)) = None ->
  secretsWellKeyed (secrets w) ->
  let k := (Certificate.Namespace cert,
            CertificateSpec.SecretName (Certificate.Spec cert)) in
  createOrUpdateSecret cert certPEM keyPEM w
  = match secrets w !! k with
    | None =>
        let s := desiredSecret cert certPEM keyPEM in
        (None,
         set_secrets (<[k := s]> (secrets w))
           (called (EvCreateSecret s None)
              (called (EvGetSecret k (Some (ErrStatus NotFound))) w)))
    | Some existing =>
        let s := syncedSecret existing cert certPEM keyPEM in
        (None,
         set_secrets (<[k := s]> (secrets w))
           (called (EvUpdateSecret s None) (called (EvGetSecret k None) w)))
    end.
Proof.
  intros Hscheme Hf0 Hf1 Hwf k.
  unfold createOrUpdateSecret, bind, getEnv, controllerutil.SetControllerReference.
  rewrite Hscheme.
  change (Secret.SetOwnerReferences _ _) with (desiredSecret cert certPEM keyPEM).
  change (Secret.key (desiredSecret cert certPEM keyPEM)) with k.
  unfold Client.Get_Secret, Client.nextFault. rewrite Hf0.
  destruct (secrets w !! k) as [existing|] eqn:Hk.
  - change (Secret.SetLabels _ (Secret.SetData _ existing))
      with (syncedSecret existing cert certPEM keyPEM).
    unfold Client.Update_Secret, Client.nextFault. cbn [env calls called].
    rewrite Hf1, syncedSecret_key, (Hwf _ _ Hk). cbn [secrets called]. rewrite Hk.
    reflexivity.
  - cbn [IsNotFound]. unfold Client.Create_Secret, Client.nextFault.
    cbn [env calls called]. rewrite Hf1.
    change (Secret.key (desiredSecret cert certPEM keyPEM)) with k.
    cbn [secrets called]. rewrite Hk. reflexivity.
Qed.
Lemma secretsWellKeyed_insert (m : gmap NamespacedName Secret.t) (s : Secret.t) :
  secretsWellKeyed m -> secretsWellKeyed (<[Secret.key s := s]> m).
Proof.
  intros Hwf k s' H. destruct (decide (Secret.key s = k)) as [<-|Hne].
  - rewrite lookup_insert_eq in H. congruence.
  - rewrite lookup_insert_ne in H by exact Hne. exact (Hwf _ _ H).
Qed.

(** C7: the synchronizer is idempotent. In a world with the Certificate
    kind registered, a well-keyed secret store and no fault on the four
    client calls, two calls in a row with the same inputs both succeed; they
    are a create followed by an update with the very object that was
    created when the secret was absent, and two updates with the same
    object otherwise (both without effect when the secret already had the
    payload and the labels); the second call leaves the store as the first
    left it, and the store has no secret besides the one under the name of
    the spec that it did not have before. *)
Theorem createOrUpdateSecret_idempotent (cert : Certificate.t)
    (certPEM keyPEM : bytes) (w : World) :
  existsb (String.eqb "Certificate") (Scheme (env w)) = true ->
  (forall n, (n < 4)%nat -> fault (env w) (calls w + n)%nat = None) ->
  secretsWellKeyed (secrets w) ->
  let k := (Certificate.Namespace cert,
            CertificateSpec.SecretName (Certificate.Spec cert)) in
  let first := createOrUpdateSecret cert certPEM keyPEM w in
  let second := createOrUpdateSecret cert certPEM keyPEM first.2 in
  first.1 = None /\ second.1 = None /\
  secrets second.2 = secrets first.2 /\
  certificates second.2 = certificates first.2 /\
  deployments second.2 = deployments first.2 /\
  dom (secrets second.2) = {[k]} ∪ dom (secrets w) /\
  match secrets w !! k with
  | None =>
      let s := desiredSecret cert certPEM keyPEM in
      trace second.2
      = trace w ++ [EvGetSecret k (Some (ErrStatus NotFound)); EvCreateSecret s None;
                    EvGetSecret k None; EvUpdateSecret s None] /\
      secrets first.2 = <[k := s]> (secrets w)
  | Some existing =>
      let s := syncedSecret existing cert certPEM keyPEM in
      trace second.2
      = trace w ++ [EvGetSecret k None; EvUpdateSecret s None;
                    EvGetSecret k None; EvUpdateSecret s None] /\
      secrets first.2 = <[k := s]> (secrets w) /\
      (Secret.Data existing = tlsData certPEM keyPEM ->
       ObjectMeta.Labels (Secret.ObjectMeta existing) = managedLabels cert ->
       secrets first.2 = secrets w)
  end.
Proof.
  intros Hscheme Hfault Hwf k first second.
  assert (Hf0 : fault (env w) (calls w) = None).
  { rewrite <- (Nat.add_0_r (calls w)). apply Hfault. lia. }
  assert (Hf1 : fault (env w) (S (calls w)) = None).
  { replace (S (calls w)) with (calls w + 1)%nat by lia. apply Hfault. lia. }
  assert (Hf2 : fault (env w) (S (S (calls w))) = None).
  { replace (S (S (calls w))) with (calls w + 2)%nat by lia. apply Hfault. lia. }
  assert (Hf3 : fault (env w) (S (S (S (calls w)))) = None).
  { replace (S (S (S (calls w)))) with (calls w + 3)%nat by lia. apply Hfault. lia. }
  pose proof (createOrUpdateSecret_run cert certPEM keyPEM w Hscheme Hf0 Hf1 Hwf)
    as Hfirst.
  cbv zeta in Hfirst. fold k in Hfirst. fold first in Hfirst.
  assert (Hstep : exists s ev1 ev2,
             Secret.key s = k /\
             syncedSecret s cert certPEM keyPEM = s /\
             first = (None, set_secrets (<[k := s]> (secrets w))
                              (called ev2 (called ev1 w)))).
  { destruct (secrets w !! k) as [existing|] eqn:Hk.
    - exists (syncedSecret existing cert certPEM keyPEM). do 2 eexists.
      split; [rewrite syncedSecret_key; exact (Hwf _ _ Hk)|].
      split; [apply syncedSecret_idem|exact Hfirst].
    - exists (desiredSecret cert certPEM keyPEM). do 2 eexists.
      split; [reflexivity|]. split; [reflexivity|exact Hfirst]. }
  destruct Hstep as (s & ev1 & ev2 & Hkey & Hidem & Hfst).
  assert (Hsecond : second
                    = (None, set_secrets (<[k := s]> (secrets first.2))
                               (called (EvUpdateSecret s None)
                                  (called (EvGetSecret k None) first.2)))).
  { subst second.
    rewrite (createOrUpdateSecret_run cert certPEM keyPEM first.2);
      rewrite ?Hfst; cbn [snd env calls secrets set_secrets called];
      try assumption.
    - fold k. rewrite lookup_insert_eq. cbv zeta. rewrite Hidem. reflexivity.
    - rewrite <- Hkey. apply secretsWellKeyed_insert. exact Hwf. }
  rewrite Hsecond. rewrite Hfst. cbn [fst snd secrets set_secrets called certificates
                                        deployments trace].
  split; [reflexivity|]. split; [reflexivity|].
  split; [apply insert_insert_eq|]. split; [reflexivity|]. split; [reflexivity|].
  split. { rewrite insert_insert_eq. apply dom_insert_L. }
  rewrite Hfst in Hfirst.
  destruct (secrets w !! k) as [existing|] eqn:Hk; cbv zeta in *.
  - pose proof (f_equal (fun p : option error * World => secrets p.2) Hfirst) as Hsec.
    pose proof (f_equal (fun p : option error * World => trace p.2) Hfirst) as Htr.
    cbn in Hsec, Htr.
    assert (Hs' : s = syncedSecret existing cert certPEM keyPEM).
    { apply (f_equal (fun m => m !! k)) in Hsec.
      rewrite !lookup_insert_eq in Hsec. congruence. }
    subst s. clear Hsec.
    split. { rewrite Htr, <- !app_assoc. reflexivity. }
    split; [reflexivity|].
    intros Hdata Hlabels.
    rewrite (syncedSecret_matching _ _ _ _ Hdata Hlabels).
    apply insert_id. exact Hk.
  - pose proof (f_equal (fun p : option error * World => secrets p.2) Hfirst) as Hsec.
    pose proof (f_equal (fun p : option error * World => trace p.2) Hfirst) as Htr.
    cbn in Hsec, Htr.
    assert (Hs' : s = desiredSecret cert certPEM keyPEM).
    { apply (f_equal (fun m => m !! k)) in Hsec.
      rewrite !lookup_insert_eq in Hsec. congruence. }
    subst s. clear Hsec.
    split; [|reflexivity]. rewrite Htr, <- !app_assoc. reflexivity.
Qed.
Lemma secretsWellKeyed_empty : secretsWellKeyed ∅.
Proof. intros k s H. rewrite lookup_empty in H. discriminate. Qed.

Lemma createOrUpdateSecret_idempotent_witness :
  let cert := sampleCert [certificateFinalizer] None "" "" false in
  let fresh := sampleWorld 1000 cert in
  let stale := withSecret staleSecret fresh in
  (let first := createOrUpdateSecret cert [] [] fresh in
   let second := createOrUpdateSecret cert [] [] first.2 in
   first.1 = None /\ second.1 = None /\ secrets second.2 = secrets first.2) /\
  (let first := createOrUpdateSecret cert [] [] stale in
   let second := createOrUpdateSecret cert [] [] first.2 in
   first.1 = None /\ second.1 = None /\ secrets second.2 = secrets first.2).
Proof.
  intros cert fresh stale. split.
  - destruct (createOrUpdateSecret_idempotent cert [] [] fresh eq_refl
                (fun _ _ => eq_refl) secretsWellKeyed_empty)
      as (H1 & H2 & H3 & _).
    cbv zeta. auto.
  - destruct (createOrUpdateSecret_idempotent cert [] [] stale eq_refl
                (fun _ _ => eq_refl)
                (secretsWellKeyed_insert ∅ staleSecret secretsWellKeyed_empty))
      as (H1 & H2 & H3 & _).
    cbv zeta. auto.
Defined.

(** ** Workload correlator *)

Lemma deploymentUsesSecret_references (d : Deployment.t) (secretName : string) :
  deploymentUsesSecret d secretName = true <-> referencesSecret d secretName.
Proof.
  unfold deploymentUsesSecret, referencesSecret. cbv zeta.
  set (podSpec := PodTemplateSpec.Spec (Deployment.Template d)).
  split.
  - destruct (existsb _ (PodSpec.Volumes podSpec)) eqn:Hv.
    + intros _. left. apply existsb_exists in Hv as (volume & Hin & Hs).
      destruct (Volume.Secret volume) as [src|] eqn:Hsrc; [|discriminate].
      apply String.eqb_eq in Hs. eauto.
    + intros Hc. right. apply existsb_exists in Hc as (container & Hin & Hc).
      destruct (existsb _ (Container.EnvFrom container)) eqn:Hef.
      * left. apply existsb_exists in Hef as (envFrom & Hin' & Hs).
        destruct (EnvFromSource.SecretRef envFrom) as [ref|] eqn:Href; [|discriminate].
        apply String.eqb_eq in Hs. eauto 8.
      * right. apply existsb_exists in Hc as (env & Hin' & Hs).
        destruct (EnvVar.ValueFrom env) as [src|] eqn:Hsrc; [|discriminate].
        destruct (EnvVarSource.SecretKeyRef src) as [ref|] eqn:Href; [|discriminate].
        apply String.eqb_eq in Hs. eauto 10.
  - intros [(volume & src & Hin & Hsrc & Hs)|H].
    { assert (Hv : existsb
                (fun volume => match Volume.Secret volume with
                               | Some src =>
                                   String.eqb (SecretVolumeSource.SecretName src) secretName
                               | None => false
                               end) (PodSpec.Volumes podSpec) = true).
      { apply existsb_exists. exists volume. split; [exact Hin|].
        rewrite Hsrc. apply String.eqb_eq. exact Hs. }
      rewrite Hv. reflexivity. }
    destruct (existsb _ (PodSpec.Volumes podSpec)); [reflexivity|].
    apply existsb_exists.
    destruct H as [(container & envFrom & ref & Hin & Hin' & Href & Hs)
                  |(container & env & src & ref & Hin & Hin' & Hsrc & Href & Hs)];
      exists container; (split; [exact Hin|]).
    + assert (He : existsb
                (fun envFrom => match EnvFromSource.SecretRef envFrom with
                                | Some ref => String.eqb (SecretEnvSource.Name ref) secretName
                                | None => false
                                end) (Container.EnvFrom container) = true).
      { apply existsb_exists. exists envFrom. split; [exact Hin'|].
        rewrite Href. apply String.eqb_eq. exact Hs. }
      rewrite He. reflexivity.
    + destruct (existsb _ (Container.EnvFrom container)); [reflexivity|].
      apply existsb_exists. exists env. split; [exact Hin'|].
      rewrite Hsrc, Href. apply String.eqb_eq. exact Hs.
Qed.

Lemma restartAnnotated_key (ts : string) (d : Deployment.t) :
  Deployment.key (restartAnnotated ts d) = Deployment.key d.
Proof. reflexivity. Qed.

Lemma restartAnnotated_annotation (ts : string) (d : Deployment.t) :
  PodTemplateSpec.Annotations (Deployment.Template (restartAnnotated ts d)) !! restartedAt
  = Some ts.
Proof. cbn. apply lookup_insert_eq. Qed.

(** Whatever the faults, the loop of the correlator calls an update on
    every listed deployment that uses the secret, in order and on nothing
    else, and counts the updates that went through. *)
Lemma restartEach_attempts (secretName : string) (items : list Deployment.t) :
  forall (restartedCount : Z) (w : World),
    let run := restartEach secretName items restartedCount w in
    exists evs,
      trace run.2 = trace w ++ evs /\
      Forall2 isRestartOf
        (List.filter (fun d => deploymentUsesSecret d secretName) items) evs /\
      run.1 = restartedCount + Z.of_nat (List.length (List.filter succeeded evs)) /\
      env run.2 = env w /\ certificates run.2 = certificates w /\
      secrets run.2 = secrets w.
Proof.
  induction items as [|deploy rest IH]; intros restartedCount w.
  - exists []. cbn. rewrite app_nil_r. repeat split; [constructor|lia].
  - cbn [restartEach List.filter].
    destruct (deploymentUsesSecret deploy secretName).
    2:{ apply IH. }
    unfold bind, getEnv, Now.
    set (d' := Deployment.SetTemplateAnnotations _ deploy).
    set (w1 := set_ticks _ w).
    destruct (Client.Update_Deployment d' w1) as [err w2] eqn:Hu.
    assert (Hw2 : trace w2 = trace w ++ [EvUpdateDeployment d' err] /\
                  env w2 = env w /\ certificates w2 = certificates w /\
                  secrets w2 = secrets w).
    { unfold Client.Update_Deployment in Hu.
      repeat case_match; simplify_eq; cbn; auto. }
    destruct Hw2 as (Htr & Henv & Hcerts & Hsecs).
    assert (Hd' : isRestartOf deploy (EvUpdateDeployment d' err)).
    { eexists _, err. reflexivity. }
    destruct err as [e|].
    + specialize (IH restartedCount w2). cbv zeta in IH.
      destruct IH as (evs & Htr' & Hall & Hcount & Henv' & Hcerts' & Hsecs').
      exists (EvUpdateDeployment d' (Some e) :: evs).
      rewrite Htr', Htr, <- app_assoc. cbn.
      repeat split; [constructor; assumption|assumption|congruence..].
    + specialize (IH (restartedCount + 1) w2). cbv zeta in IH.
      destruct IH as (evs & Htr' & Hall & Hcount & Henv' & Hcerts' & Hsecs').
      exists (EvUpdateDeployment d' None :: evs).
      rewrite Htr', Htr, <- app_assoc. cbn [List.filter succeeded List.length app].
      repeat split; [constructor; assumption|lia|congruence..].
Qed.

(** Without faults, on listed deployments that the store holds under
    distinct keys, the loop updates the store at the deployments that use
    the secret and nowhere else, and counts each of them. *)
Lemma restartEach_store (secretName : string) (items : list Deployment.t) :
  forall (restartedCount : Z) (w : World),
    (forall n, fault (env w) n = None) ->
    List.NoDup (List.map Deployment.key items) ->
    (forall d, In d items -> deployments w !! Deployment.key d = Some d) ->
    let run := restartEach secretName items restartedCount w in
    run.1 = restartedCount
            + Z.of_nat (List.length
                          (List.filter (fun d => deploymentUsesSecret d secretName) items)) /\
    (forall k, (forall d, In d items -> Deployment.key d <> k) ->
               deployments run.2 !! k = deployments w !! k) /\
    (forall d, In d items ->
       if deploymentUsesSecret d secretName
       then exists ts, deployments run.2 !! Deployment.key d = Some (restartAnnotated ts d)
       else deployments run.2 !! Deployment.key d = Some d).
Proof.
  induction items as [|deploy rest IH]; intros restartedCount w Hfault Hnodup Hheld.
  - cbn. split; [lia|]. split; [reflexivity|]. intros d [].
  - apply List.NoDup_cons_iff in Hnodup as [Hfresh Hnodup]. cbn [List.map] in Hfresh.
    assert (Hother : forall d, In d rest -> Deployment.key d <> Deployment.key deploy).
    { intros d Hin Heq. apply Hfresh. rewrite <- Heq. apply List.in_map. exact Hin. }
    cbn [restartEach List.filter].
    destruct (deploymentUsesSecret deploy secretName) eqn:Huses.
    2:{ specialize (IH restartedCount w Hfault Hnodup
                      (fun d Hin => Hheld d (or_intror Hin))).
        cbv zeta in IH. destruct IH as (Hcount & Hout & Hin).
        split; [exact Hcount|]. split.
        - intros k Hk. apply Hout. intros d Hd. apply Hk. right. exact Hd.
        - intros d [<-|Hd].
          + rewrite Huses, Hout by (intros d Hd; apply Hother; exact Hd).
            apply Hheld. left. reflexivity.
          + apply Hin. exact Hd. }
    unfold bind, getEnv, Now.
    set (ts := Format_RFC3339 (env w) (clock (env w) (ticks w))).
    change (Deployment.SetTemplateAnnotations _ deploy) with (restartAnnotated ts deploy).
    set (w1 := set_ticks _ w).
    assert (Hu : Client.Update_Deployment (restartAnnotated ts deploy) w1
                 = (None,
                    called (EvUpdateDeployment (restartAnnotated ts deploy) None)
                      (set_deployments
                         (<[Deployment.key deploy := restartAnnotated ts deploy]>
                            (deployments w)) w1))).
    { unfold Client.Update_Deployment, Client.nextFault.
      change (env w1) with (env w). rewrite Hfault.
      rewrite restartAnnotated_key. change (deployments w1) with (deployments w).
      rewrite (Hheld deploy (or_introl eq_refl)). reflexivity. }
    rewrite Hu. set (w2 := called _ _).
    assert (Hheld2 : forall d, In d rest -> deployments w2 !! Deployment.key d = Some d).
    { intros d Hd. subst w2. cbn.
      rewrite lookup_insert_ne by (intros Heq; exact (Hother d Hd (eq_sym Heq))).
      apply Hheld. right. exact Hd. }
    specialize (IH (restartedCount + 1) w2 Hfault Hnodup Hheld2).
    cbv zeta in IH. destruct IH as (Hcount & Hout & Hin).
    split; [rewrite Hcount; cbn [List.length]; lia|]. split.
    + intros k Hk. rewrite Hout by (intros d Hd; apply Hk; right; exact Hd).
      subst w2. cbn. apply lookup_insert_ne. apply Hk. left. reflexivity.
    + intros d [<-|Hd].
      * rewrite Huses. exists ts.
        rewrite Hout by (intros d Hd; apply Hother; exact Hd).
        subst w2. cbn. apply lookup_insert_eq.
      * apply Hin. exact Hd.
Qed.

Lemma inNamespace_In (ns : string) (m : gmap NamespacedName Deployment.t)
    (d : Deployment.t) :
  In d (Client.inNamespace ns m) <->
  (exists k, m !! k = Some d) /\ Deployment.Namespace d = ns.
Proof.
  unfold Client.inNamespace. rewrite List.filter_In, String.eqb_eq, List.in_map_iff.
  split; intros [H Hns]; (split; [|exact Hns]).
  - destruct H as ([k d'] & <- & Hin). exists k.
    apply elem_of_map_to_list, list_elem_of_In. exact Hin.
  - destruct H as (k & Hk). exists (k, d). split; [reflexivity|].
    apply list_elem_of_In, elem_of_map_to_list. exact Hk.
Qed.

Lemma inNamespace_NoDup (ns : string) (m : gmap NamespacedName Deployment.t) :
  deploymentsWellKeyed m ->
  List.NoDup (List.map Deployment.key (Client.inNamespace ns m)).
Proof.
  intros Hwf. unfold Client.inNamespace.
  assert (Hkeys : forall l : list (NamespacedName * Deployment.t),
             (forall k d, In (k, d) l -> Deployment.key d = k) ->
             List.NoDup (List.map fst l) ->
             List.NoDup
               (List.map Deployment.key
                  (List.filter (fun d => String.eqb (Deployment.Namespace d) ns)
                     (List.map snd l)))).
  { induction l as [|[k d] l IH]; intros Hl Hnd; cbn; [constructor|].
    apply List.NoDup_cons_iff in Hnd as [Hfresh Hnd].
    assert (IH' := IH (fun k' d' Hin => Hl k' d' (or_intror Hin)) Hnd).
    destruct (String.eqb (Deployment.Namespace d) ns); [|exact IH'].
    cbn. constructor; [|exact IH'].
    intros Hin. apply Hfresh. cbn.
    apply List.in_map_iff in Hin as (d' & Hkey & Hin).
    apply List.filter_In in Hin as [Hin _].
    apply List.in_map_iff in Hin as ([k' d''] & Heq & Hin). cbn in Heq. subst d''.
    apply List.in_map_iff. exists (k', d'). split; [|exact Hin]. cbn.
    rewrite <- (Hl k' d' (or_intror Hin)), Hkey. apply (Hl k d). left. reflexivity. }
  apply Hkeys.
  - intros k d Hin. apply Hwf. apply elem_of_map_to_list, list_elem_of_In. exact Hin.
  - apply NoDup_ListNoDup. apply (NoDup_fst_map_to_list m).
Qed.

(** C8: without faults and on a well-keyed store, the correlator updates
    exactly the deployments of the namespace that reference the secret (by
    a volume, by [envFrom] or by an [env] entry): each of them is stored
    with the restart annotation set, every other deployment is stored as
    it was, the client calls are the listing followed by one update per
    referencing deployment, all going through, and the count reported is
    their number; in the scenario of three workloads with two referencing
    ones the count is 2. *)
Theorem restartDeployments_exact (cert : Certificate.t) (w : World) :
  (forall n, fault (env w) n = None) ->
  deploymentsWellKeyed (deployments w) ->
  let ns := Certificate.Namespace cert in
  let secretName := CertificateSpec.SecretName (Certificate.Spec cert) in
  let run := restartDeployments cert w in
  run.1 = None /\
  (forall d, In d (dependents cert w) <->
             (exists k, deployments w !! k = Some d) /\
             Deployment.Namespace d = ns /\ referencesSecret d secretName) /\
  (forall k d, deployments w !! k = Some d ->
     (Deployment.Namespace d = ns /\ referencesSecret d secretName ->
      exists ts,
        deployments run.2 !! k = Some (restartAnnotated ts d) /\
        PodTemplateSpec.Annotations (Deployment.Template (restartAnnotated ts d))
          !! restartedAt = Some ts) /\
     (~ (Deployment.Namespace d = ns /\ referencesSecret d secretName) ->
      deployments run.2 !! k = Some d)) /\
  (exists evs,
     trace run.2
     = trace w ++ [EvListDeployments ns None] ++ evs
         ++ [EvLogRestartCompleted (Z.of_nat (List.length (dependents cert w)))] /\
     Forall2 isRestartOf (dependents cert w) evs /\
     List.filter succeeded evs = evs) /\
  (trace (restartDeployments scenarioCert (scenarioWorld noFault)).2
   = [EvListDeployments "default" None;
      EvUpdateDeployment (restartAnnotated "2024-01-01T00:00:00Z" workerDeployment) None;
      EvUpdateDeployment (restartAnnotated "2024-01-01T00:00:00Z" apiDeployment) None;
      EvLogRestartCompleted 2] /\
   deployments (restartDeployments scenarioCert (scenarioWorld noFault)).2
     !! Deployment.key batchDeployment = Some batchDeployment).
Proof.
  intros Hfault Hwf ns secretName run.
  set (items := Client.inNamespace ns (deployments w)).
  set (w0 := called (EvListDeployments ns None) w).
  assert (Hrun : run
               = let r := restartEach secretName items 0 w0 in
                 (None, logged (EvLogRestartCompleted r.1) r.2)).
  { subst run. unfold restartDeployments, bind, Client.List_Deployments,
      Client.nextFault. rewrite Hfault. fold ns items w0 secretName.
    destruct (restartEach secretName items 0 w0). reflexivity. }
  assert (Hheld : forall d, In d items -> deployments w0 !! Deployment.key d = Some d).
  { intros d Hd. apply inNamespace_In in Hd as [(k & Hk) _].
    rewrite (Hwf _ _ Hk). exact Hk. }
  pose proof (restartEach_store secretName items 0 w0 Hfault
                (inNamespace_NoDup ns _ Hwf) Hheld) as (Hcount & Hout & Hin).
  pose proof (restartEach_attempts secretName items 0 w0)
    as (evs & Htr & Hall & Hcount' & _).
  fold (dependents cert w) in Hall, Hcount.
  assert (Hdep : forall d, In d (dependents cert w) <->
                   (exists k, deployments w !! k = Some d) /\
                   Deployment.Namespace d = ns /\ referencesSecret d secretName).
  { intros d. unfold dependents. rewrite List.filter_In, inNamespace_In.
    fold secretName ns. rewrite deploymentUsesSecret_references. tauto. }
  rewrite Hrun. cbv zeta. cbn [fst snd].
  split; [reflexivity|]. split; [exact Hdep|]. split; [|split].
  - intros k d Hk. pose proof (Hwf _ _ Hk) as Hkey. split.
    + intros [Hns Href].
      assert (Hd : In d items) by (apply inNamespace_In; eauto).
      specialize (Hin d Hd).
      apply deploymentUsesSecret_references in Href. rewrite Href in Hin.
      destruct Hin as (ts & Hts). exists ts. rewrite <- Hkey.
      split; [exact Hts|apply restartAnnotated_annotation].
    + intros Hnot.
      destruct (String.eqb_spec (Deployment.Namespace d) ns) as [Hns|Hns].
      * assert (Hd : In d items) by (apply inNamespace_In; eauto).
        specialize (Hin d Hd).
        destruct (deploymentUsesSecret d secretName) eqn:Huses.
        { exfalso. apply Hnot. split; [exact Hns|].
          apply deploymentUsesSecret_references. exact Huses. }
        rewrite <- Hkey. exact Hin.
      * cbn. rewrite Hout; [exact Hk|].
        intros d' Hd' Heq. apply inNamespace_In in Hd' as [(k' & Hk') Hns'].
        rewrite (Hwf _ _ Hk') in Heq. subst k'.
        assert (d' = d) by congruence. subst d'. contradiction.
  - exists evs. cbn [trace logged]. rewrite Htr, Hcount. cbn [trace called w0].
    rewrite <- !app_assoc. split; [reflexivity|]. split; [exact Hall|].
    apply Forall2_length in Hall.
    assert (Hlen : List.length (List.filter succeeded evs) = List.length evs).
    { rewrite Hcount in Hcount'. lia. }
    clear -Hlen. induction evs as [|ev evs IH]; [reflexivity|].
    cbn in *. destruct (succeeded ev); cbn in *.
    + f_equal. apply IH. lia.
    + pose proof (List.filter_length_le succeeded evs). lia.
  - split; vm_compute; reflexivity.
Qed.
Lemma deploymentsWellKeyed_empty : deploymentsWellKeyed ∅.
Proof. intros k d H. rewrite lookup_empty in H. discriminate. Qed.

Lemma deploymentsWellKeyed_insert (m : gmap NamespacedName Deployment.t)
    (d : Deployment.t) :
  deploymentsWellKeyed m -> deploymentsWellKeyed (<[Deployment.key d := d]> m).
Proof.
  intros Hwf k d' H. destruct (decide (Deployment.key d = k)) as [<-|Hne].
  - rewrite lookup_insert_eq in H. congruence.
  - rewrite lookup_insert_ne in H by exact Hne. exact (Hwf _ _ H).
Qed.

Lemma scenario_wellKeyed (flt : nat -> option error) :
  deploymentsWellKeyed (deployments (scenarioWorld flt)).
Proof.
  cbn [deployments scenarioWorld].
  repeat apply deploymentsWellKeyed_insert. apply deploymentsWellKeyed_empty.
Qed.

Lemma restartDeployments_exact_witness :
  (restartDeployments scenarioCert (scenarioWorld noFault)).1 = None /\
  exists evs,
    trace (restartDeployments scenarioCert (scenarioWorld noFault)).2
    = [] ++ [EvListDeployments "default" None] ++ evs
        ++ [EvLogRestartCompleted
              (Z.of_nat
                 (List.length (dependents scenarioCert (scenarioWorld noFault))))] /\
    Forall2 isRestartOf (dependents scenarioCert (scenarioWorld noFault)) evs /\
    List.filter succeeded evs = evs.
Proof.
  destruct (restartDeployments_exact scenarioCert (scenarioWorld noFault)
              (fun _ => eq_refl) (scenario_wellKeyed noFault))
    as (Hret & _ & _ & Hevs & _).
  split; [exact Hret|exact Hevs].
Defined.

(** ** Failures of the correlator *)

(** On listed deployments that the store holds under distinct keys, the
    outcome of each update is the fault injected into that very call:
    a failed update changes nothing for the updates after it. *)
Lemma restartEach_outcomes (secretName : string) (items : list Deployment.t) :
  forall (restartedCount : Z) (w : World),
    List.NoDup (List.map Deployment.key items) ->
    (forall d, In d items -> deployments w !! Deployment.key d = Some d) ->
    let run := restartEach secretName items restartedCount w in
    exists evs,
      trace run.2 = trace w ++ evs /\
      List.map eventErr evs
      = List.map (fault (env w)) (List.seq (calls w) (List.length evs)).
Proof.
  induction items as [|deploy rest IH]; intros restartedCount w Hnodup Hheld.
  - exists []. cbn. rewrite app_nil_r. split; reflexivity.
  - apply List.NoDup_cons_iff in Hnodup as [Hfresh Hnodup]. cbn [List.map] in Hfresh.
    assert (Hother : forall d, In d rest -> Deployment.key d <> Deployment.key deploy).
    { intros d Hin Heq. apply Hfresh. rewrite <- Heq. apply List.in_map. exact Hin. }
    cbn [restartEach].
    destruct (deploymentUsesSecret deploy secretName).
    2:{ apply IH; [exact Hnodup|]. intros d Hd. apply Hheld. right. exact Hd. }
    unfold bind, getEnv, Now.
    set (d' := Deployment.SetTemplateAnnotations _ deploy).
    set (w1 := set_ticks _ w).
    destruct (Client.Update_Deployment d' w1) as [err w2] eqn:Hu.
    assert (Hw2 : trace w2 = trace w ++ [EvUpdateDeployment d' err] /\
                  err = fault (env w) (calls w) /\
                  env w2 = env w /\ calls w2 = S (calls w) /\
                  forall d, In d rest -> deployments w2 !! Deployment.key d = Some d).
    { unfold Client.Update_Deployment, Client.nextFault in Hu.
      change (env w1) with (env w) in Hu. change (calls w1) with (calls w) in Hu.
      change (Deployment.key d') with (Deployment.key deploy) in Hu.
      change (deployments w1) with (deployments w) in Hu.
      rewrite (Hheld deploy (or_introl eq_refl)) in Hu.
      destruct (fault (env w) (calls w)) as [e|]; injection Hu as <- <-; cbn;
        repeat split; intros d Hd.
      - apply Hheld. right. exact Hd.
      - rewrite lookup_insert_ne by (intros Heq; exact (Hother d Hd (eq_sym Heq))).
        apply Hheld. right. exact Hd. }
    destruct Hw2 as (Htr & Herr & Henv & Hcalls & Hheld2).
    assert (Hgo : forall c,
               exists evs,
                 trace (restartEach secretName rest c w2).2 = trace w ++ evs /\
                 List.map eventErr evs
                 = List.map (fault (env w)) (List.seq (calls w) (List.length evs))).
    { intros c. destruct (IH c w2 Hnodup Hheld2) as (evs & Htr' & Herrs).
      exists (EvUpdateDeployment d' err :: evs).
      rewrite Htr', Htr, <- app_assoc. split; [reflexivity|].
      cbn. rewrite Herrs, Henv, Hcalls, Herr. reflexivity. }
    destruct err; apply Hgo.
Qed.

(** *** Which blocks can list deployments *)

Lemma emits_ret {A : Type} (a : A) (P : A -> list Event -> Prop) :
  P a [] -> emits (ret a) P.
Proof. intros H w. exists []. cbn. rewrite app_nil_r. split; [reflexivity|exact H]. Qed.

Lemma emits_bind {A B : Type} (m : M A) (k : A -> M B)
    (P : A -> list Event -> Prop) (Q : A -> B -> list Event -> Prop)
    (R : B -> list Event -> Prop) :
  emits m P ->
  (forall a, emits (k a) (Q a)) ->
  (forall a b e1 e2, P a e1 -> Q a b e2 -> R b (e1 ++ e2)) ->
  emits (bind m k) R.
Proof.
  intros Hm Hk HR w. unfold bind.
  destruct (Hm w) as (e1 & Ht1 & HP). destruct (m w) as [a w1]. cbn in Ht1, HP.
  destruct (Hk a w1) as (e2 & Ht2 & HQ).
  exists (e1 ++ e2). rewrite Ht2, Ht1, app_assoc.
  split; [reflexivity|]. exact (HR _ _ _ _ HP HQ).
Qed.

Lemma emits_mono {A : Type} (m : M A) (P Q : A -> list Event -> Prop) :
  emits m P -> (forall a evs, P a evs -> Q a evs) -> emits m Q.
Proof.
  intros Hm HPQ w. destruct (Hm w) as (evs & Ht & HP).
  exists evs. split; [exact Ht|]. apply HPQ. exact HP.
Qed.

Lemma noList_app (e1 e2 : list Event) : noList e1 -> noList e2 -> noList (e1 ++ e2).
Proof. unfold noList. intros H1 H2. apply Forall_app. split; assumption. Qed.

Lemma quiet_ret {A : Type} (a : A) : quiet (ret a).
Proof. apply emits_ret. constructor. Qed.

Lemma quiet_bind {A B : Type} (m : M A) (k : A -> M B) :
  quiet m -> (forall a, quiet (k a)) -> quiet (bind m k).
Proof.
  intros Hm Hk. apply (emits_bind m k _ (fun _ _ evs => noList evs) _ Hm Hk).
  intros a b e1 e2. apply noList_app.
Qed.

(** A prefix that never lists leaves a property of the rest in place when
    the property survives such a prefix. *)
Lemma emits_after_quiet {A B : Type} (m : M A) (k : A -> M B)
    (R : B -> list Event -> Prop) :
  quiet m ->
  (forall a, emits (k a) R) ->
  (forall b e1 e2, noList e1 -> R b e2 -> R b (e1 ++ e2)) ->
  emits (bind m k) R.
Proof.
  intros Hm Hk HR. apply (emits_bind m k _ (fun _ => R) _ Hm Hk).
  intros a b e1 e2. apply HR.
Qed.

Lemma quiet_silent {A : Type} (m : M A) :
  (forall w, trace (m w).2 = trace w) -> quiet m.
Proof.
  intros H w. exists []. rewrite app_nil_r. split; [apply H|constructor].
Qed.

Lemma quiet_call {A : Type} (m : M A) :
  (forall w, exists ev, trace (m w).2 = trace w ++ [ev] /\ isList ev = false) ->
  quiet m.
Proof.
  intros H w. destruct (H w) as (ev & Ht & Hev).
  exists [ev]. split; [exact Ht|]. constructor; [exact Hev|constructor].
Qed.

Lemma quiet_Now : quiet Now.
Proof. apply quiet_silent. reflexivity. Qed.

Lemma quiet_getEnv : quiet getEnv.
Proof. apply quiet_silent. reflexivity. Qed.

Lemma quiet_GenerateKey : quiet GenerateKey.
Proof. apply quiet_silent. reflexivity. Qed.

Lemma quiet_randInt (limit : Z) : quiet (randInt limit).
Proof. apply quiet_silent. reflexivity. Qed.

Lemma quiet_Get_Certificate (key : NamespacedName) : quiet (Client.Get_Certificate key).
Proof. apply quiet_call. intros w. eexists. split; reflexivity. Qed.

Lemma quiet_Update_Certificate (obj : Certificate.t) :
  quiet (Client.Update_Certificate obj).
Proof.
  apply quiet_call. intros w. unfold Client.Update_Certificate.
  repeat case_match; eexists; split; reflexivity.
Qed.

Lemma quiet_Status_Update (obj : Certificate.t) : quiet (Client.Status_Update obj).
Proof.
  apply quiet_call. intros w. unfold Client.Status_Update.
  repeat case_match; eexists; split; reflexivity.
Qed.

Lemma quiet_Get_Secret (key : NamespacedName) : quiet (Client.Get_Secret key).
Proof. apply quiet_call. intros w. eexists. split; reflexivity. Qed.

Lemma quiet_Create_Secret (obj : Secret.t) : quiet (Client.Create_Secret obj).
Proof.
  apply quiet_call. intros w. unfold Client.Create_Secret.
  repeat case_match; eexists; split; reflexivity.
Qed.

Lemma quiet_Update_Secret (obj : Secret.t) : quiet (Client.Update_Secret obj).
Proof.
  apply quiet_call. intros w. unfold Client.Update_Secret.
  repeat case_match; eexists; split; reflexivity.
Qed.

Create HintDb quiet.
#[local] Hint Resolve quiet_ret quiet_Now quiet_getEnv quiet_GenerateKey quiet_randInt
  quiet_Get_Certificate quiet_Update_Certificate quiet_Status_Update quiet_Get_Secret
  quiet_Create_Secret quiet_Update_Secret : quiet.

(** Splits a block into its binds and branches, closing the leaves with
    the hints. *)
Ltac quiet_steps :=
  repeat first
    [ solve [auto with quiet]
    | apply quiet_bind; [|intros ?]
    | case_match ].

Lemma quiet_needsRenewal (cert : Certificate.t) : quiet (needsRenewal cert).
Proof. unfold needsRenewal. quiet_steps. Qed.

Lemma quiet_getRequeueTime (cert : Certificate.t) : quiet (getRequeueTime cert).
Proof. unfold getRequeueTime. quiet_steps. Qed.

Lemma quiet_generateCertificate (cert : Certificate.t) : quiet (generateCertificate cert).
Proof. unfold generateCertificate. cbv zeta. quiet_steps. Qed.

Lemma quiet_createOrUpdateSecret (cert : Certificate.t) (certPEM keyPEM : bytes) :
  quiet (createOrUpdateSecret cert certPEM keyPEM).
Proof. unfold createOrUpdateSecret. cbv zeta. quiet_steps. Qed.

Lemma quiet_failIssuance (cert : Certificate.t) (reason message : string) (err : error) :
  quiet (failIssuance cert reason message err).
Proof. unfold failIssuance. quiet_steps. Qed.

Lemma quiet_ensureFinalizer (cert : Certificate.t) : quiet (ensureFinalizer cert).
Proof. unfold ensureFinalizer. quiet_steps. Qed.

Lemma quiet_finalize (cert : Certificate.t) : quiet (finalize cert).
Proof. unfold finalize. quiet_steps. Qed.

(** The two ways out of [restartDeployments]: the listing fails and its
    error is returned, or every deployment that uses the secret gets its
    update, the updates that went through are counted and reported, and no
    error is returned. *)
Lemma restartDeployments_cases (cert : Certificate.t) (w : World) :
  let ns := Certificate.Namespace cert in
  let run := restartDeployments cert w in
  (exists e,
     fault (env w) (calls w) = Some e /\
     run.1 = Some (Errorf "failed to list deployments" e) /\
     trace run.2 = trace w ++ [EvListDeployments ns (Some e)]) \/
  (fault (env w) (calls w) = None /\
   run.1 = None /\
   exists evs,
     trace run.2
     = trace w ++ [EvListDeployments ns None] ++ evs
         ++ [EvLogRestartCompleted (Z.of_nat (List.length (List.filter succeeded evs)))] /\
     Forall2 isRestartOf (dependents cert w) evs /\
     (deploymentsWellKeyed (deployments w) ->
      List.map eventErr evs
      = List.map (fault (env w)) (List.seq (S (calls w)) (List.length evs)))).
Proof.
  intros ns run. subst run.
  unfold restartDeployments, bind, Client.List_Deployments, Client.nextFault.
  fold ns. destruct (fault (env w) (calls w)) as [e|] eqn:Hf.
  { left. exists e. cbn. repeat split. }
  right. split; [reflexivity|].
  set (items := Client.inNamespace ns (deployments w)).
  set (secretName := CertificateSpec.SecretName (Certificate.Spec cert)).
  set (w0 := called (EvListDeployments ns None) w).
  pose proof (restartEach_attempts secretName items 0 w0)
    as (evs & Htr & Hall & Hcount & _).
  assert (Hout : deploymentsWellKeyed (deployments w) ->
                 List.map eventErr evs
                 = List.map (fault (env w)) (List.seq (S (calls w)) (List.length evs))).
  { intros Hwf.
    assert (Hheld : forall d, In d items ->
                      deployments w0 !! Deployment.key d = Some d).
    { intros d Hd. apply inNamespace_In in Hd as [(k & Hk) _].
      rewrite (Hwf _ _ Hk). exact Hk. }
    destruct (restartEach_outcomes secretName items 0 w0
                (inNamespace_NoDup ns _ Hwf) Hheld) as (evs' & Htr' & Herrs).
    rewrite Htr in Htr'. apply app_inv_head in Htr'. subst evs'. exact Herrs. }
  destruct (restartEach secretName items 0 w0) as [count w1]. cbn [fst snd] in *.
  split; [reflexivity|]. exists evs. cbn [trace logged].
  rewrite Htr, Hcount. cbn [trace called w0]. rewrite <- !app_assoc.
  split; [reflexivity|]. split; [exact Hall|exact Hout].
Qed.

Lemma restartDeployments_appends (cert : Certificate.t) :
  emits (restartDeployments cert) (fun _ _ => True).
Proof.
  intros w. destruct (restartDeployments_cases cert w)
    as [(e & _ & _ & Htr)|(_ & _ & evs & Htr & _)];
    eexists; (split; [exact Htr|exact I]).
Qed.

(** A run of [issue] that lists deployments goes on after the block. *)
Lemma issue_listing (cert : Certificate.t) :
  emits (issue cert) (fun r evs => noList evs \/ exists c, r = Continue c).
Proof.
  assert (Hstable : forall (b : flow Certificate.t) e1 e2,
             noList e1 ->
             (noList e2 \/ exists c, b = Continue c) ->
             noList (e1 ++ e2) \/ exists c, b = Continue c).
  { intros b e1 e2 H1 [H2|H2]; [left; apply noList_app; assumption|right; exact H2]. }
  assert (Hleft : forall m : M (flow Certificate.t),
             quiet m -> emits m (fun r evs => noList evs \/ exists c, r = Continue c)).
  { intros m Hm. apply (emits_mono m _ _ Hm). intros a evs H. left. exact H. }
  unfold issue.
  apply emits_after_quiet; [apply quiet_generateCertificate| |exact Hstable].
  intros [[[[[certPEM keyPEM] notBefore] notAfter] serial]|err];
    [|apply Hleft, quiet_failIssuance].
  apply emits_after_quiet; [apply quiet_createOrUpdateSecret| |exact Hstable].
  intros [err|]; [apply Hleft, quiet_failIssuance|].
  apply emits_after_quiet; [apply quiet_Now| |exact Hstable]. intros lastRenewalTime.
  apply emits_after_quiet; [apply quiet_Now| |exact Hstable]. intros t1.
  apply emits_after_quiet; [apply quiet_Now| |exact Hstable]. intros t2.
  apply emits_after_quiet; [apply quiet_Status_Update| |exact Hstable].
  intros [err|]; [apply Hleft, quiet_ret|].
  eapply (emits_bind _ _ (fun _ _ => True) (fun _ r _ => exists c, r = Continue c)).
  - destruct (CertificateSpec.RestartDeployments _).
    + apply restartDeployments_appends.
    + apply emits_ret. exact I.
  - intros a. apply emits_ret. eexists. reflexivity.
  - intros a b e1 e2 _ H. right. exact H.
Qed.

(** A run of [Reconcile] that lists deployments returns no error. *)
Lemma Reconcile_listing (req : NamespacedName) :
  emits (Reconcile req) (fun out evs => noList evs \/ out.2 = None).
Proof.
  assert (Hstable : forall (b : Result.t * option error) e1 e2,
             noList e1 ->
             (noList e2 \/ b.2 = None) -> noList (e1 ++ e2) \/ b.2 = None).
  { intros b e1 e2 H1 [H2|H2]; [left; apply noList_app; assumption|right; exact H2]. }
  assert (Hleft : forall m : M (Result.t * option error),
             quiet m -> emits m (fun out evs => noList evs \/ out.2 = None)).
  { intros m Hm. apply (emits_mono m _ _ Hm). intros a evs H. left. exact H. }
  unfold Reconcile.
  apply emits_after_quiet; [apply quiet_Get_Certificate| |exact Hstable].
  intros [certificate|err]; [|destruct (IsNotFound err); apply Hleft, quiet_ret].
  apply emits_after_quiet; [apply quiet_ensureFinalizer| |exact Hstable].
  intros [certificate'|out]; [|apply Hleft, quiet_ret].
  destruct (Certificate.GetDeletionTimestamp certificate');
    [apply Hleft, quiet_finalize|].
  apply emits_after_quiet; [apply quiet_needsRenewal| |exact Hstable].
  intros due.
  eapply (emits_bind _ _ (fun r evs => noList evs \/ exists c, r = Continue c)
            (fun r out evs =>
               noList evs /\ ((exists c, r = Continue c) -> out.2 = None))).
  - destruct due; [apply issue_listing|].
    apply emits_ret. left. constructor.
  - intros [certificate''|out].
    + eapply (emits_bind _ _ (fun _ evs => noList evs)
                (fun _ out evs => evs = [] /\ out.2 = None)).
      * apply quiet_getRequeueTime.
      * intros requeueAfter. apply emits_ret. split; reflexivity.
      * intros a b e1 e2 H1 [-> H2]. rewrite app_nil_r. split; [exact H1|].
        intros _. exact H2.
    + apply emits_ret. split; [constructor|]. intros (c & Hc). discriminate.
  - intros r out e1 e2 [H1|H1] [H2 H3].
    + left. apply noList_app; assumption.
    + right. apply H3. exact H1.
Qed.

(** C9: a failed update of one workload does not stop the correlator, and
    a failure of the correlator does not fail the reconciliation. Unless
    the listing itself fails, [restartDeployments] calls an update on every
    deployment that uses the secret, whatever the faults, reports the
    number of updates that went through and returns no error; on a
    well-keyed store the outcome of each update is the fault injected into
    that very call, so a failure changes nothing for the later ones. And a
    run of [Reconcile] in which the correlator was entered returns no
    error. *)
Theorem restartDeployments_continues (cert : Certificate.t) (w : World)
    (req : NamespacedName) (w' : World) :
  (let ns := Certificate.Namespace cert in
   let run := restartDeployments cert w in
   (exists e,
      fault (env w) (calls w) = Some e /\
      run.1 = Some (Errorf "failed to list deployments" e) /\
      trace run.2 = trace w ++ [EvListDeployments ns (Some e)]) \/
   (fault (env w) (calls w) = None /\
    run.1 = None /\
    exists evs,
      trace run.2
      = trace w ++ [EvListDeployments ns None] ++ evs
          ++ [EvLogRestartCompleted
                (Z.of_nat (List.length (List.filter succeeded evs)))] /\
      Forall2 isRestartOf (dependents cert w) evs /\
      (deploymentsWellKeyed (deployments w) ->
       List.map eventErr evs
       = List.map (fault (env w)) (List.seq (S (calls w)) (List.length evs))))) /\
  (exists evs,
     trace (Reconcile req w').2 = trace w' ++ evs /\
     (Exists (fun ev => isList ev = true) evs -> (Reconcile req w').1.2 = None)).
Proof.
  split; [apply restartDeployments_cases|].
  destruct (Reconcile_listing req w') as (evs & Htr & H).
  exists evs. split; [exact Htr|]. intros Hex.
  destruct H as [Hno|Hnone]; [|exact Hnone].
  exfalso. apply Exists_exists in Hex as (ev & Hin & Hev).
  unfold noList in Hno. rewrite Forall_forall in Hno.
  specialize (Hno ev). rewrite Hev in Hno.
  assert (true = false) by (apply Hno; exact Hin).
  discriminate.
Qed.
Lemma restartDeployments_continues_witness :
  (exists evs,
     trace (restartDeployments scenarioCert (scenarioWorld (failAt 1))).2
     = [] ++ [EvListDeployments "default" None] ++ evs
         ++ [EvLogRestartCompleted
               (Z.of_nat (List.length (List.filter succeeded evs)))] /\
     Forall2 isRestartOf (dependents scenarioCert (scenarioWorld (failAt 1))) evs /\
     List.map eventErr evs
     = List.map (failAt 1) (List.seq 1 (List.length evs))) /\
  (Reconcile ("default", "web") (scenarioWorld (failAt 5))).1.2 = None.
Proof.
  destruct (restartDeployments_continues scenarioCert (scenarioWorld (failAt 1))
              ("default", "web") (scenarioWorld (failAt 5))) as [Hloop Hrec].
  split.
  - destruct Hloop as [(e & Hf & _)|(_ & _ & evs & Htr & Hall & Herrs)].
    + vm_compute in Hf. discriminate.
    + exists evs. split; [exact Htr|]. split; [exact Hall|].
      apply Herrs. apply scenario_wellKeyed.
  - destruct Hrec as (evs & Htr & Hnone). apply Hnone.
    cbn [trace scenarioWorld app] in Htr. rewrite <- Htr. vm_compute.
    do 4 apply Exists_cons_tl. apply Exists_cons_hd. reflexivity.
Defined.

(** In the scenario, with the update of the first workload failing, the
    second workload is still updated and the count is one; the
    reconciliation around it returns no error. *)
Lemma scenario_partial_restart :
  trace (restartDeployments scenarioCert (scenarioWorld (failAt 1))).2
  = [EvListDeployments "default" None;
     EvUpdateDeployment (restartAnnotated "2024-01-01T00:00:00Z" workerDeployment)
       (Some (ErrStatus Conflict));
     EvUpdateDeployment (restartAnnotated "2024-01-01T00:00:00Z" apiDeployment) None;
     EvLogRestartCompleted 1] /\
  (Reconcile ("default", "web") (scenarioWorld (failAt 5))).1
  = (Result.mk false (1000 + 1440 * time.Hour - 1006 - time.Hour), None).
Proof. split; vm_compute; reflexivity. Qed.

(** * Further properties of the loop *)

(** ** Requeue delay *)

Lemma getRequeueTime_zero (cert : Certificate.t) (w : World) :
  (getRequeueTime cert w).1 = 0 <->
  exists renewalTime,
    CertificateStatus.RenewalTime (Certificate.Status cert) = Some renewalTime /\
    (renewalTime - now w = 0 \/ renewalTime - now w = 1 \/
     renewalTime - now w = time.Hour).
Proof.
  rewrite getRequeueTime_value.
  assert (Hh : time.Hour = 3600000000000) by reflexivity.
  assert (Hm : time.Minute = 60000000000) by reflexivity.
  destruct (CertificateStatus.RenewalTime (Certificate.Status cert)) as [t|].
  2:{ split; [rewrite Hm; discriminate|intros (t & H & _); discriminate]. }
  cbv zeta.
  assert (Hsub : time.Sub t (now w)
                 = if t - now w <? - 2 ^ 63 then - 2 ^ 63
                   else if 2 ^ 63 - 1 <? t - now w then 2 ^ 63 - 1 else t - now w)
    by reflexivity.
  set (r := time.Sub t (now w)) in *.
  assert (Hr : - 2 ^ 63 <= r <= 2 ^ 63 - 1).
  { rewrite Hsub. repeat case_match; lia. }
  split.
  - intros H. exists t. split; [reflexivity|].
    destruct (Z.ltb_spec r 0); [rewrite Hm in H; discriminate|].
    destruct (Z.ltb_spec r time.Hour).
    + rewrite Z.quot_div_nonneg in H by lia.
      apply Z.div_small_iff in H; [|lia].
      rewrite Hsub in *. repeat case_match; lia.
    + rewrite wrap_int64_id in H by (unfold minInt64, maxInt64; lia).
      rewrite Hsub in *. repeat case_match; lia.
  - intros (t' & [= <-] & H).
    assert (Hrt : r = t - now w) by (rewrite Hsub; repeat case_match; lia).
    destruct (Z.ltb_spec r 0); [lia|].
    destruct (Z.ltb_spec r time.Hour).
    + rewrite Z.quot_div_nonneg by lia. apply Z.div_small. lia.
    + rewrite wrap_int64_id by (unfold minInt64, maxInt64; lia). lia.
Qed.

(** X1: the requeue delay is never negative and at most [maxDuration - 1h];
    when the renewal time is not yet passed, waking up after the delay is
    not later than the renewal time; and the delay is zero, which asks for
    no requeue at all, exactly when the renewal time is 0 ns, 1 ns or one
    hour ahead. *)
Theorem getRequeueTime_bounds (cert : Certificate.t) (w : World) :
  let d := (getRequeueTime cert w).1 in
  0 <= d <= time.maxDuration - time.Hour /\
  (forall renewalTime,
     CertificateStatus.RenewalTime (Certificate.Status cert) = Some renewalTime ->
     now w <= renewalTime -> now w + d <= renewalTime) /\
  (d = 0 <->
   exists renewalTime,
     CertificateStatus.RenewalTime (Certificate.Status cert) = Some renewalTime /\
     (renewalTime - now w = 0 \/ renewalTime - now w = 1 \/
      renewalTime - now w = time.Hour)).
Proof.
  cbv zeta. split; [|split; [|apply getRequeueTime_zero]].
  - rewrite getRequeueTime_value.
    assert (Hh : time.Hour = 3600000000000) by reflexivity.
    assert (Hm : time.Minute = 60000000000) by reflexivity.
    unfold time.maxDuration, maxInt64.
    destruct (CertificateStatus.RenewalTime (Certificate.Status cert)) as [t|];
      [|lia].
    cbv zeta. pose proof (Sub_range t (now w)) as Hr.
    unfold time.minDuration, time.maxDuration, minInt64, maxInt64 in Hr.
    set (r := time.Sub t (now w)) in *.
    destruct (Z.ltb_spec r 0); [lia|].
    destruct (Z.ltb_spec r time.Hour).
    + rewrite Z.quot_div_nonneg by lia.
      pose proof (Z.div_pos r 2 ltac:(lia) ltac:(lia)).
      pose proof (Z.div_le_upper_bound r 2 r ltac:(lia) ltac:(lia)). lia.
    + rewrite wrap_int64_id by (unfold minInt64, maxInt64; lia). lia.
  - intros t Ht Hle. rewrite getRequeueTime_value, Ht. cbv zeta.
    assert (Hh : time.Hour = 3600000000000) by reflexivity.
    assert (Hsub : time.Sub t (now w)
                   = if t - now w <? - 2 ^ 63 then - 2 ^ 63
                     else if 2 ^ 63 - 1 <? t - now w then 2 ^ 63 - 1 else t - now w)
      by reflexivity.
    set (r := time.Sub t (now w)) in *.
    assert (Hr : 0 <= r <= t - now w) by (rewrite Hsub; repeat case_match; lia).
    assert (Hr' : r <= 2 ^ 63 - 1) by (rewrite Hsub; repeat case_match; lia).
    destruct (Z.ltb_spec r 0); [lia|].
    destruct (Z.ltb_spec r time.Hour).
    + rewrite Z.quot_div_nonneg by lia.
      pose proof (Z.div_le_upper_bound r 2 r ltac:(lia) ltac:(lia)). lia.
    + rewrite wrap_int64_id by (unfold minInt64, maxInt64; lia). lia.
Qed.

Lemma getRequeueTime_bounds_witness :
  let cert := issuedCert (1000 + 30 * time.Minute) in
  1000 + (getRequeueTime cert (sampleWorld 1000 cert)).1 <= 1000 + 30 * time.Minute.
Proof.
  intros cert.
  apply (proj1 (proj2 (getRequeueTime_bounds cert (sampleWorld 1000 cert)))
           (1000 + 30 * time.Minute) eq_refl).
  vm_compute. discriminate.
Defined.

(** ** Paths of [Reconcile] *)

Lemma Reconcile_live (req : NamespacedName) (w : World) (cert : Certificate.t) :
  Client.nextFault w = None ->
  certificates w !! req = Some cert ->
  controllerutil.ContainsFinalizer cert certificateFinalizer = true ->
  Certificate.GetDeletionTimestamp cert = None ->
  Reconcile req w = reconcileLive cert (called (EvGetCertificate req None) w).
Proof.
  intros Hfault Hget Hfin Hdel.
  unfold Reconcile, bind at 1, Client.Get_Certificate. rewrite Hfault, Hget.
  unfold bind at 1, ensureFinalizer. rewrite Hfin. cbn [negb]. unfold ret at 1.
  rewrite Hdel. reflexivity.
Qed.

(** A reconciliation of a certificate that has the finalizer, is not being
    deleted and is not due: the clock is read twice and nothing is written. *)
Lemma Reconcile_steady_run (req : NamespacedName) (w : World) (cert : Certificate.t)
    (renewalTime : time.Time) :
  Client.nextFault w = None ->
  certificates w !! req = Some cert ->
  controllerutil.ContainsFinalizer cert certificateFinalizer = true ->
  Certificate.GetDeletionTimestamp cert = None ->
  CertificateStatus.RenewalTime (Certificate.Status cert) = Some renewalTime ->
  now w <= renewalTime ->
  Reconcile req w
  = ((Result.mk false
        (getRequeueTime cert (set_ticks (S (ticks w)) w)).1, None),
     set_ticks (S (S (ticks w))) (called (EvGetCertificate req None) w)).
Proof.
  intros Hfault Hget Hfin Hdel Hrenewal Hnow.
  rewrite (Reconcile_live req w cert Hfault Hget Hfin Hdel).
  unfold reconcileLive, bind at 1, needsRenewal. rewrite Hrenewal.
  unfold bind at 1, Now, ret at 1, time.After. cbn [env ticks called].
  unfold now in Hnow. apply Z.ltb_ge in Hnow. rewrite Hnow.
  unfold bind at 1, ret at 1. unfold bind at 1, getRequeueTime. rewrite Hrenewal.
  unfold bind, Now, ret. cbn [env ticks set_ticks called].
  repeat case_match; simplify_eq; reflexivity.
Qed.

(** X2: a reconciliation of a certificate that has the finalizer, is not
    being deleted and whose renewal time is not passed is read-only: its
    only client call is the Get, the certificates, the secrets and the
    deployments stay as they were, and it returns no error and a delay
    after which the renewal time is still not passed. *)
Theorem Reconcile_steady (req : NamespacedName) (w : World) (cert : Certificate.t)
    (renewalTime : time.Time) :
  Client.nextFault w = None ->
  certificates w !! req = Some cert ->
  controllerutil.ContainsFinalizer cert certificateFinalizer = true ->
  Certificate.GetDeletionTimestamp cert = None ->
  CertificateStatus.RenewalTime (Certificate.Status cert) = Some renewalTime ->
  now w <= renewalTime ->
  let run := Reconcile req w in
  let later := clock (env w) (S (ticks w)) in
  trace run.2 = trace w ++ [EvGetCertificate req None] /\
  certificates run.2 = certificates w /\
  secrets run.2 = secrets w /\
  deployments run.2 = deployments w /\
  run.1.2 = None /\
  Result.Requeue run.1.1 = false /\
  0 <= Result.RequeueAfter run.1.1 /\
  (later <= renewalTime -> later + Result.RequeueAfter run.1.1 <= renewalTime).
Proof.
  intros Hfault Hget Hfin Hdel Hrenewal Hnow run later. subst run.
  rewrite (Reconcile_steady_run req w cert renewalTime Hfault Hget Hfin Hdel
             Hrenewal Hnow).
  cbn [fst snd trace certificates secrets deployments set_ticks called
         Result.Requeue Result.RequeueAfter].
  repeat split.
  - rewrite getRequeueTime_value, Hrenewal. cbv zeta.
    assert (Hm : time.Minute = 60000000000) by reflexivity.
    pose proof (Sub_range renewalTime (now (set_ticks (S (ticks w)) w))) as Hr.
    unfold time.minDuration, time.maxDuration, minInt64, maxInt64 in Hr.
    set (r := time.Sub _ _) in *.
    destruct (Z.ltb_spec r 0); [lia|].
    destruct (Z.ltb_spec r time.Hour).
    + rewrite Z.quot_div_nonneg by lia. apply Z.div_pos; lia.
    + assert (Hh : time.Hour = 3600000000000) by reflexivity.
      rewrite wrap_int64_id by (unfold minInt64, maxInt64; lia). lia.
  - intros Hlater. rewrite getRequeueTime_value, Hrenewal. cbv zeta.
    change (now (set_ticks (S (ticks w)) w)) with later.
    assert (Hh : time.Hour = 3600000000000) by reflexivity.
    assert (Hsub : time.Sub renewalTime later
                   = if renewalTime - later <? - 2 ^ 63 then - 2 ^ 63
                     else if 2 ^ 63 - 1 <? renewalTime - later then 2 ^ 63 - 1
                          else renewalTime - later)
      by reflexivity.
    set (r := time.Sub renewalTime later) in *.
    assert (Hr : 0 <= r <= renewalTime - later)
      by (rewrite Hsub; repeat case_match; lia).
    assert (Hr' : r <= 2 ^ 63 - 1) by (rewrite Hsub; repeat case_match; lia).
    destruct (Z.ltb_spec r 0); [lia|].
    destruct (Z.ltb_spec r time.Hour).
    + rewrite Z.quot_div_nonneg by lia.
      pose proof (Z.div_le_upper_bound r 2 r ltac:(lia) ltac:(lia)). lia.
    + rewrite wrap_int64_id by (unfold minInt64, maxInt64; lia). lia.
Qed.

Lemma Reconcile_steady_witness :
  let cert := issuedCert (1000 + 5 * time.Hour) in
  trace (Reconcile ("default", "web") (sampleWorld 1000 cert)).2
  = [] ++ [EvGetCertificate ("default", "web") None].
Proof.
  intros cert.
  apply (Reconcile_steady ("default", "web") (sampleWorld 1000 cert) cert
           (1000 + 5 * time.Hour) eq_refl ltac:(vm_compute; reflexivity)
           eq_refl eq_refl eq_refl ltac:(vm_compute; discriminate)).
Defined.

(** X3: the loop can lose its wake-up. When a certificate that has the
    finalizer and is not being deleted is reconciled with the renewal time
    not passed at the renewal check and 0 ns, 1 ns or exactly one hour
    ahead at the requeue computation, [Reconcile] renews nothing and
    returns the empty result: no error and a zero delay, which asks the
    scheduler for no further reconciliation. *)
Theorem Reconcile_stalls (req : NamespacedName) (w : World) (cert : Certificate.t)
    (renewalTime : time.Time) :
  Client.nextFault w = None ->
  certificates w !! req = Some cert ->
  controllerutil.ContainsFinalizer cert certificateFinalizer = true ->
  Certificate.GetDeletionTimestamp cert = None ->
  CertificateStatus.RenewalTime (Certificate.Status cert) = Some renewalTime ->
  now w <= renewalTime ->
  (renewalTime - clock (env w) (S (ticks w)) = 0 \/
   renewalTime - clock (env w) (S (ticks w)) = 1 \/
   renewalTime - clock (env w) (S (ticks w)) = time.Hour) ->
  (Reconcile req w).1 = (Result.empty, None) /\
  trace (Reconcile req w).2 = trace w ++ [EvGetCertificate req None].
Proof.
  intros Hfault Hget Hfin Hdel Hrenewal Hnow Hzero.
  rewrite (Reconcile_steady_run req w cert renewalTime Hfault Hget Hfin Hdel
             Hrenewal Hnow).
  cbn [fst snd trace set_ticks called]. split; [|reflexivity].
  assert (Hd : (getRequeueTime cert (set_ticks (S (ticks w)) w)).1 = 0).
  { apply getRequeueTime_zero. exists renewalTime. split; [exact Hrenewal|exact Hzero]. }
  rewrite Hd. reflexivity.
Qed.

Lemma Reconcile_stalls_witness :
  let cert := issuedCert 1000 in
  (Reconcile ("default", "web") (atTime 1000 (sampleWorld 0 cert))).1
  = (Result.empty, None).
Proof.
  intros cert.
  apply (Reconcile_stalls ("default", "web") (atTime 1000 (sampleWorld 0 cert)) cert
           1000 eq_refl ltac:(vm_compute; reflexivity) eq_refl eq_refl eq_refl
           ltac:(vm_compute; discriminate) (or_introl eq_refl)).
Defined.

(** X4: when the certificate cannot be loaded, [Reconcile] makes no other
    call and changes nothing: a certificate that is not found ends the
    reconciliation without error and without requeue, any other error of
    the Get is returned as it is. *)
Theorem Reconcile_not_loaded (req : NamespacedName) (w : World) (e : error) :
  (Client.Get_Certificate req w).1 = Err e ->
  let run := Reconcile req w in
  trace run.2 = trace w ++ [EvGetCertificate req (Some e)] /\
  certificates run.2 = certificates w /\
  secrets run.2 = secrets w /\
  deployments run.2 = deployments w /\
  run.1 = (Result.empty, if IsNotFound e then None else Some e) /\
  (Client.nextFault w = None -> certificates w !! req = None ->
   run.1 = (Result.empty, None)).
Proof.
  intros Hget run. subst run. unfold Reconcile, bind.
  destruct (Client.Get_Certificate req w) as [got w1] eqn:Hrun. cbn [fst] in Hget.
  subst got. unfold Client.Get_Certificate in Hrun.
  assert (Hw1 : w1 = called (EvGetCertificate req (Some e)) w).
  { repeat case_match; simplify_eq; reflexivity. }
  assert (Hmiss : Client.nextFault w = None -> certificates w !! req = None ->
                  e = ErrStatus NotFound).
  { intros Hf Hc. rewrite Hf, Hc in Hrun. congruence. }
  subst w1. destruct (IsNotFound e) eqn:Hnf; unfold ret;
    cbn [fst snd trace certificates secrets deployments called].
  - repeat split.
  - do 5 (split; [reflexivity|]). intros Hf Hc.
    rewrite (Hmiss Hf Hc) in Hnf. discriminate.
Qed.

Lemma Reconcile_not_loaded_witness :
  (Reconcile ("default", "gone")
     (sampleWorld 1000 (sampleCert [] None "" "" false))).1
  = (Result.empty, None).
Proof.
  apply (Reconcile_not_loaded ("default", "gone")
           (sampleWorld 1000 (sampleCert [] None "" "" false))
           (ErrStatus NotFound) ltac:(vm_compute; reflexivity)).
  - reflexivity.
  - vm_compute. reflexivity.
Defined.

Lemma emits_any {A : Type} (m : M A) (P : A -> list Event -> Prop) :
  emits m P -> emits m (fun _ _ => True).
Proof. intros H. apply (emits_mono m P _ H). intros; exact I. Qed.

Lemma emits_any_bind {A B : Type} (m : M A) (k : A -> M B) :
  emits m (fun _ _ => True) ->
  (forall a, emits (k a) (fun _ _ => True)) ->
  emits (bind m k) (fun _ _ => True).
Proof.
  intros Hm Hk.
  apply (emits_bind m k (fun _ _ => True) (fun _ _ _ => True) _ Hm Hk).
  intros; exact I.
Qed.

Lemma reconcileLive_appends (certificate : Certificate.t) :
  emits (reconcileLive certificate) (fun _ _ => True).
Proof.
  unfold reconcileLive.
  apply emits_any_bind; [apply (emits_any _ _ (quiet_needsRenewal certificate))|].
  intros due. apply emits_any_bind.
  - destruct due; [apply (emits_any _ _ (issue_listing certificate))|].
    apply emits_ret. exact I.
  - intros [certificate'|out]; [|apply emits_ret; exact I].
    apply emits_any_bind; [apply (emits_any _ _ (quiet_getRequeueTime certificate'))|].
    intros d. apply emits_ret. exact I.
Qed.

(** X5: on a certificate that lacks the finalizer and is not being
    deleted, the first write of [Reconcile] is the update that adds the
    finalizer, with spec and status as loaded; when that update fails,
    [Reconcile] returns its error at once: no secret, status or deployment
    call follows and the secrets and deployments are untouched. *)
Theorem Reconcile_adds_finalizer_first (req : NamespacedName) (w : World)
    (cert : Certificate.t) :
  Client.nextFault w = None ->
  certificates w !! req = Some cert ->
  controllerutil.ContainsFinalizer cert certificateFinalizer = false ->
  Certificate.GetDeletionTimestamp cert = None ->
  let run := Reconcile req w in
  let added :=
    Certificate.SetFinalizers
      (Certificate.GetFinalizers cert ++ [certificateFinalizer]) cert in
  Certificate.Spec added = Certificate.Spec cert /\
  Certificate.Status added = Certificate.Status cert /\
  exists err rest,
    trace run.2
    = trace w ++ [EvGetCertificate req None; EvUpdateCertificate added err] ++ rest /\
    (forall e, err = Some e ->
       rest = [] /\ run.1 = (Result.empty, Some e) /\
       secrets run.2 = secrets w /\ deployments run.2 = deployments w).
Proof.
  intros Hfault Hget Hfin Hdel run added.
  split; [reflexivity|]. split; [reflexivity|].
  assert (Hdel' : Certificate.GetDeletionTimestamp added = None).
  { subst added. destruct cert as [[] ? ?]. exact Hdel. }
  set (w0 := called (EvGetCertificate req None) w).
  pose proof (Update_Certificate_effect added w0) as (Htr & Hsec & Hdep & _ & _).
  assert (Hrun : run
               = let u := Client.Update_Certificate added w0 in
                 match u.1 with
                 | Some e => ((Result.empty, Some e), u.2)
                 | None => reconcileLive added u.2
                 end).
  { subst run added. unfold Reconcile, bind at 1, Client.Get_Certificate.
    rewrite Hfault, Hget. fold w0. unfold bind at 1, ensureFinalizer.
    rewrite Hfin. cbn [negb]. rewrite (AddFinalizer_absent _ _ Hfin). cbn [negb].
    unfold bind at 1. cbv zeta.
    destruct (Client.Update_Certificate _ w0) as [[e|] w1]; [reflexivity|].
    cbn [fst snd]. unfold ret at 1. rewrite Hdel'. reflexivity. }
  rewrite Hrun. cbv zeta.
  destruct (Client.Update_Certificate added w0) as [[e|] w1]; cbn [fst snd] in *.
  - exists (Some e), []. split.
    + rewrite Htr. cbn. rewrite <- app_assoc. reflexivity.
    + intros e' [= <-]. repeat split; assumption.
  - destruct (reconcileLive_appends added w1) as (rest & Hrest & _).
    exists None, rest. split; [|discriminate].
    rewrite Hrest, Htr. cbn. rewrite <- !app_assoc. reflexivity.
Qed.

Lemma Reconcile_adds_finalizer_first_witness :
  let cert := sampleCert [] None "" "" false in
  exists err rest,
    trace (Reconcile ("default", "web") (sampleWorld 1000 cert)).2
    = [] ++ [EvGetCertificate ("default", "web") None;
             EvUpdateCertificate
               (Certificate.SetFinalizers
                  (Certificate.GetFinalizers cert ++ [certificateFinalizer]) cert)
               err] ++ rest.
Proof.
  intros cert.
  destruct (Reconcile_adds_finalizer_first ("default", "web") (sampleWorld 1000 cert)
              cert eq_refl ltac:(vm_compute; reflexivity) eq_refl eq_refl)
    as (_ & _ & err & rest & Htr & _).
  exists err, rest. exact Htr.
Defined.

(** ** What [Reconcile] returns *)

Lemma yields_ret {A : Type} (a : A) (P : A -> Prop) : P a -> yields (ret a) P.
Proof. intros H w. exact H. Qed.

Lemma yields_bind {A B : Type} (m : M A) (k : A -> M B) (Q : A -> Prop)
    (P : B -> Prop) :
  yields m Q -> (forall a, Q a -> yields (k a) P) -> yields (bind m k) P.
Proof.
  intros Hm Hk w. unfold bind. specialize (Hm w). destruct (m w) as [a w1].
  apply Hk. exact Hm.
Qed.

Lemma yields_any {A : Type} (m : M A) : yields m (fun _ => True).
Proof. intros w. exact I. Qed.

Lemma wellFormedOutcome_error (err : option error) :
  wellFormedOutcome (Result.empty, err).
Proof. unfold wellFormedOutcome. cbn. repeat split; vm_compute; congruence. Qed.

Lemma getRequeueTime_range (cert : Certificate.t) :
  yields (getRequeueTime cert) (fun d => 0 <= d <= time.maxDuration - time.Hour).
Proof.
  intros w. rewrite getRequeueTime_value.
  assert (Hh : time.Hour = 3600000000000) by reflexivity.
  assert (Hm : time.Minute = 60000000000) by reflexivity.
  unfold time.maxDuration, maxInt64.
  destruct (CertificateStatus.RenewalTime (Certificate.Status cert)) as [t|]; [|lia].
  cbv zeta. pose proof (Sub_range t (now w)) as Hr.
  unfold time.minDuration, time.maxDuration, minInt64, maxInt64 in Hr.
  set (r := time.Sub t (now w)) in *.
  destruct (Z.ltb_spec r 0); [lia|].
  destruct (Z.ltb_spec r time.Hour).
  - rewrite Z.quot_div_nonneg by lia.
    pose proof (Z.div_pos r 2 ltac:(lia) ltac:(lia)).
    pose proof (Z.div_le_upper_bound r 2 r ltac:(lia) ltac:(lia)). lia.
  - rewrite wrap_int64_id by (unfold minInt64, maxInt64; lia). lia.
Qed.

Lemma ensureFinalizer_flow (cert : Certificate.t) :
  yields (ensureFinalizer cert) wellFormedFlow.
Proof.
  unfold ensureFinalizer.
  destruct (controllerutil.ContainsFinalizer cert certificateFinalizer) eqn:Hfin;
    cbn [negb]; [apply yields_ret; exact I|].
  rewrite (AddFinalizer_absent _ _ Hfin). cbn [negb].
  apply (yields_bind _ _ _ _ (yields_any _)). intros [e|] _; apply yields_ret.
  - apply wellFormedOutcome_error.
  - exact I.
Qed.

Lemma finalize_outcome (cert : Certificate.t) : yields (finalize cert) wellFormedOutcome.
Proof.
  unfold finalize.
  destruct (controllerutil.ContainsFinalizer cert certificateFinalizer) eqn:Hfin;
    [|apply yields_ret, wellFormedOutcome_error].
  assert (Hok : (controllerutil.RemoveFinalizer cert certificateFinalizer).1 = true).
  { unfold controllerutil.RemoveFinalizer. cbn [fst].
    apply negb_true_iff, Nat.eqb_neq.
    pose proof (filter_finalizer_present _ _ Hfin). lia. }
  destruct (controllerutil.RemoveFinalizer cert certificateFinalizer) as [ok c'].
  cbn [fst] in Hok. subst ok. cbn [negb].
  apply (yields_bind _ _ _ _ (yields_any _)).
  intros [e|] _; apply yields_ret, wellFormedOutcome_error.
Qed.

Lemma failIssuance_flow (cert : Certificate.t) (reason message : string) (err : error) :
  yields (failIssuance cert reason message err) wellFormedFlow.
Proof.
  intros w. rewrite failIssuance_returns. apply wellFormedOutcome_error.
Qed.

Lemma issue_flow (cert : Certificate.t) : yields (issue cert) wellFormedFlow.
Proof.
  unfold issue.
  apply (yields_bind _ _ _ _ (yields_any _)).
  intros [[[[[certPEM keyPEM] notBefore] notAfter] serial]|err] _;
    [|apply failIssuance_flow].
  apply (yields_bind _ _ _ _ (yields_any _)).
  intros [err|] _; [apply failIssuance_flow|].
  do 3 (apply (yields_bind _ _ _ _ (yields_any _)); intros ? _).
  apply (yields_bind _ _ _ _ (yields_any _)).
  intros [err|] _; [apply yields_ret, wellFormedOutcome_error|].
  apply (yields_bind _ _ _ _ (yields_any _)). intros ? _. apply yields_ret. exact I.
Qed.

(** X6: whatever the world, [Reconcile] never asks for an immediate
    requeue (the two [Requeue: true] returns are dead code: adding an
    absent finalizer and removing a present one always report a change),
    its delay is between zero and [maxDuration - 1h], and beside an error
    it returns the empty result only. *)
Theorem Reconcile_outcome (req : NamespacedName) (w : World) :
  let out := (Reconcile req w).1 in
  Result.Requeue out.1 = false /\
  0 <= Result.RequeueAfter out.1 <= time.maxDuration - time.Hour /\
  (out.2 <> None -> out.1 = Result.empty).
Proof.
  revert w. change (yields (Reconcile req) wellFormedOutcome). unfold Reconcile.
  apply (yields_bind _ _ _ _ (yields_any _)).
  intros [certificate|err] _.
  2:{ destruct (IsNotFound err); apply yields_ret, wellFormedOutcome_error. }
  apply (yields_bind _ _ _ _ (ensureFinalizer_flow certificate)).
  intros [certificate'|out] Hflow; [|apply yields_ret; exact Hflow].
  destruct (Certificate.GetDeletionTimestamp certificate'); [apply finalize_outcome|].
  apply (yields_bind _ _ _ _ (yields_any _)). intros due _.
  apply (yields_bind _ _ wellFormedFlow).
  { destruct due; [apply issue_flow|apply yields_ret; exact I]. }
  intros [certificate''|out] Hflow'; [|apply yields_ret; exact Hflow'].
  apply (yields_bind _ _ _ _ (getRequeueTime_range certificate'')).
  intros d Hd. apply yields_ret. unfold wellFormedOutcome. cbn.
  split; [reflexivity|]. split; [exact Hd|]. intros H. congruence.
Qed.

(** ** More on the secret synchronizer *)

(** X7: when the secret exists, the synchronizer overwrites it in place:
    the stored secret takes the payload and exactly the two managed labels
    (any other label it had is dropped) and keeps its name, namespace, UID,
    type, annotations, finalizers and owner references; an existing secret
    that the certificate does not own is not adopted. *)
Theorem createOrUpdateSecret_in_place (cert : Certificate.t) (certPEM keyPEM : bytes)
    (w : World) (existing : Secret.t) :
  existsb (String.eqb "Certificate") (Scheme (env w)) = true ->
  fault (env w) (calls w) = None ->
  fault (env w) (S (calls w)) = None ->
  secretsWellKeyed (secrets w) ->
  let k := (Certificate.Namespace cert,
            CertificateSpec.SecretName (Certificate.Spec cert)) in
  secrets w !! k = Some existing ->
  let run := createOrUpdateSecret cert certPEM keyPEM w in
  run.1 = None /\
  exists stored,
    secrets run.2 !! k = Some stored /\
    Secret.Data stored = tlsData certPEM keyPEM /\
    ObjectMeta.Labels (Secret.ObjectMeta stored) = managedLabels cert /\
    (forall l, l <> "app.kubernetes.io/managed-by" ->
               l <> "cert.example.com/certificate" ->
               ObjectMeta.Labels (Secret.ObjectMeta stored) !! l = None) /\
    Secret.key stored = Secret.key existing /\
    Secret.Type_ stored = Secret.Type_ existing /\
    ObjectMeta.UID (Secret.ObjectMeta stored)
      = ObjectMeta.UID (Secret.ObjectMeta existing) /\
    ObjectMeta.Annotations (Secret.ObjectMeta stored)
      = ObjectMeta.Annotations (Secret.ObjectMeta existing) /\
    ObjectMeta.Finalizers (Secret.ObjectMeta stored)
      = ObjectMeta.Finalizers (Secret.ObjectMeta existing) /\
    ObjectMeta.OwnerReferences (Secret.ObjectMeta stored)
      = ObjectMeta.OwnerReferences (Secret.ObjectMeta existing).
Proof.
  intros Hscheme Hf0 Hf1 Hwf k Hk run. subst run.
  pose proof (createOrUpdateSecret_run cert certPEM keyPEM w Hscheme Hf0 Hf1 Hwf)
    as Hrun.
  cbv zeta in Hrun. fold k in Hrun. rewrite Hk in Hrun. rewrite Hrun.
  cbn [fst snd secrets set_secrets]. split; [reflexivity|].
  exists (syncedSecret existing cert certPEM keyPEM).
  split; [apply lookup_insert_eq|].
  destruct existing as [[] ? ?]. cbn. repeat split.
  intros l H1 H2. unfold managedLabels.
  rewrite lookup_insert_ne by congruence. rewrite lookup_insert_ne by congruence.
  apply lookup_empty.
Qed.

Lemma createOrUpdateSecret_in_place_witness :
  let cert := sampleCert [certificateFinalizer] None "" "" false in
  let w := withSecret staleSecret (sampleWorld 1000 cert) in
  (createOrUpdateSecret cert [] [] w).1 = None /\
  exists stored,
    secrets (createOrUpdateSecret cert [] [] w).2 !! ("default", "myapp-tls")
    = Some stored /\
    ObjectMeta.OwnerReferences (Secret.ObjectMeta stored) = [] /\
    ObjectMeta.Annotations (Secret.ObjectMeta stored) = <["team" := "web"]> ∅.
Proof.
  intros cert w.
  destruct (createOrUpdateSecret_in_place cert [] [] w staleSecret eq_refl eq_refl
              eq_refl (secretsWellKeyed_insert ∅ staleSecret secretsWellKeyed_empty)
              ltac:(vm_compute; reflexivity))
    as (Hret & stored & Hstored & _ & _ & _ & _ & _ & _ & Han & _ & Hown).
  split; [exact Hret|]. exists stored.
  split; [exact Hstored|]. split; [exact Hown|exact Han].
Defined.

(** What the synchronizer can touch, whatever the faults. *)
Lemma createOrUpdateSecret_touches (cert : Certificate.t) (certPEM keyPEM : bytes)
    (w : World) :
  secretsWellKeyed (secrets w) ->
  let k := (Certificate.Namespace cert,
            CertificateSpec.SecretName (Certificate.Spec cert)) in
  let run := createOrUpdateSecret cert certPEM keyPEM w in
  certificates run.2 = certificates w /\
  deployments run.2 = deployments w /\
  (forall k', k' <> k -> secrets run.2 !! k' = secrets w !! k') /\
  (run.1 <> None -> secrets run.2 = secrets w) /\
  secretsWellKeyed (secrets run.2).
Proof.
  intros Hwf k run. subst run.
  unfold createOrUpdateSecret, bind, getEnv, controllerutil.SetControllerReference.
  destruct (existsb (String.eqb "Certificate") (Scheme (env w))).
  2:{ unfold ret. cbn. repeat split; assumption. }
  change (Secret.SetOwnerReferences _ _) with (desiredSecret cert certPEM keyPEM).
  change (Secret.key (desiredSecret cert certPEM keyPEM)) with k.
  assert (Hins : forall s, Secret.key s = k ->
             (forall k', k' <> k -> <[k := s]> (secrets w) !! k' = secrets w !! k') /\
             secretsWellKeyed (<[k := s]> (secrets w))).
  { intros s Hs. split.
    - intros k' Hne. apply lookup_insert_ne. congruence.
    - rewrite <- Hs. apply secretsWellKeyed_insert. exact Hwf. }
  unfold Client.Get_Secret, Client.nextFault.
  destruct (fault (env w) (calls w)) as [e|] eqn:Hf0.
  - destruct (IsNotFound e).
    + unfold Client.Create_Secret, Client.nextFault. cbn [env calls called].
      change (Secret.key (desiredSecret cert certPEM keyPEM)) with k.
      destruct (fault (env w) (S (calls w))) as [e'|]; cbn [secrets called].
      * cbn. repeat split; assumption.
      * destruct (secrets w !! k).
        { cbn. repeat split; assumption. }
        cbn. destruct (Hins (desiredSecret cert certPEM keyPEM) eq_refl).
        repeat split; try assumption. congruence.
    + unfold ret. cbn. repeat split; assumption.
  - destruct (secrets w !! k) as [existing|] eqn:Hk.
    + change (Secret.SetLabels _ (Secret.SetData _ existing))
        with (syncedSecret existing cert certPEM keyPEM).
      unfold Client.Update_Secret, Client.nextFault. cbn [env calls called].
      rewrite syncedSecret_key, (Hwf _ _ Hk).
      destruct (fault (env w) (S (calls w))) as [e'|]; cbn [secrets called].
      * cbn. repeat split; assumption.
      * rewrite Hk. cbn.
        destruct (Hins (syncedSecret existing cert certPEM keyPEM)).
        { rewrite syncedSecret_key. exact (Hwf _ _ Hk). }
        repeat split; try assumption. congruence.
    + cbn [IsNotFound]. unfold Client.Create_Secret, Client.nextFault.
      cbn [env calls called].
      change (Secret.key (desiredSecret cert certPEM keyPEM)) with k.
      destruct (fault (env w) (S (calls w))) as [e'|]; cbn [secrets called].
      * cbn. repeat split; assumption.
      * rewrite Hk. cbn. destruct (Hins (desiredSecret cert certPEM keyPEM) eq_refl).
        repeat split; try assumption. congruence.
Qed.

(** X8: whatever the faults, on a well-keyed store the synchronizer
    touches nothing but the secret named by the spec: the certificates, the
    deployments and every other secret stay as they were, the store stays
    well-keyed, and a call that returns an error leaves the secrets exactly
    as they were. *)
Theorem createOrUpdateSecret_frame (cert : Certificate.t) (certPEM keyPEM : bytes)
    (w : World) :
  secretsWellKeyed (secrets w) ->
  let k := (Certificate.Namespace cert,
            CertificateSpec.SecretName (Certificate.Spec cert)) in
  let run := createOrUpdateSecret cert certPEM keyPEM w in
  certificates run.2 = certificates w /\
  deployments run.2 = deployments w /\
  (forall k', k' <> k -> secrets run.2 !! k' = secrets w !! k') /\
  (run.1 <> None -> secrets run.2 = secrets w) /\
  secretsWellKeyed (secrets run.2).
Proof. exact (createOrUpdateSecret_touches cert certPEM keyPEM w). Qed.

Lemma createOrUpdateSecret_frame_witness :
  let cert := sampleCert [certificateFinalizer] None "" "" false in
  certificates (createOrUpdateSecret cert [] [] (sampleWorld 1000 cert)).2
  = certificates (sampleWorld 1000 cert).
Proof.
  intros cert.
  apply (createOrUpdateSecret_frame cert [] [] (sampleWorld 1000 cert)
           secretsWellKeyed_empty).
Defined.

(** X9: the errors of the synchronizer. With the kind of the owner missing
    from the scheme it fails before any client call and leaves the world
    as it is; an error of the Get other than not-found is returned as it
    is, without a write; and a Get that reports not-found while the secret
    exists leads to a create that the store refuses as already existing,
    so the secret in place is not overwritten. *)
Theorem createOrUpdateSecret_errors (cert : Certificate.t) (certPEM keyPEM : bytes)
    (w : World) :
  let k := (Certificate.Namespace cert,
            CertificateSpec.SecretName (Certificate.Spec cert)) in
  let run := createOrUpdateSecret cert certPEM keyPEM w in
  (existsb (String.eqb "Certificate") (Scheme (env w)) = false ->
   run.2 = w /\
   exists cause, run.1 = Some (Errorf "failed to set controller reference" cause)) /\
  (existsb (String.eqb "Certificate") (Scheme (env w)) = true ->
   forall e,
     Client.nextFault w = Some e -> IsNotFound e = false ->
     run.1 = Some e /\
     trace run.2 = trace w ++ [EvGetSecret k (Some e)] /\
     secrets run.2 = secrets w) /\
  (existsb (String.eqb "Certificate") (Scheme (env w)) = true ->
   forall existing,
     Client.nextFault w = Some (ErrStatus NotFound) ->
     fault (env w) (S (calls w)) = None ->
     secrets w !! k = Some existing ->
     run.1 = Some (ErrStatus AlreadyExists) /\
     secrets run.2 = secrets w).
Proof.
  intros k run. subst run.
  unfold createOrUpdateSecret, bind, getEnv, controllerutil.SetControllerReference.
  split; [|split].
  - intros ->. unfold ret. cbn. split; [reflexivity|]. eexists. reflexivity.
  - intros -> e Hf Hnf.
    change (Secret.SetOwnerReferences _ _) with (desiredSecret cert certPEM keyPEM).
    change (Secret.key (desiredSecret cert certPEM keyPEM)) with k.
    unfold Client.Get_Secret. rewrite Hf, Hnf. unfold ret. cbn. repeat split.
  - intros -> existing Hf Hf1 Hk.
    change (Secret.SetOwnerReferences _ _) with (desiredSecret cert certPEM keyPEM).
    change (Secret.key (desiredSecret cert certPEM keyPEM)) with k.
    unfold Client.Get_Secret. rewrite Hf. cbn [IsNotFound].
    unfold Client.Create_Secret, Client.nextFault. cbn [env calls called].
    rewrite Hf1.
    change (Secret.key (desiredSecret cert certPEM keyPEM)) with k.
    cbn [secrets called]. rewrite Hk. cbn. split; reflexivity.
Qed.

Lemma createOrUpdateSecret_errors_witness :
  let cert := sampleCert [certificateFinalizer] None "" "" false in
  let w := withSecret staleSecret
             (mkWorld (sampleEnv (fun _ => 1000)
                         (fun n => if Nat.eqb n 0 then Some (ErrStatus NotFound) else None))
                ∅ ∅ ∅ 0 0 0 []) in
  (createOrUpdateSecret cert [] [] w).1 = Some (ErrStatus AlreadyExists) /\
  secrets (createOrUpdateSecret cert [] [] w).2 = secrets w.
Proof.
  intros cert w.
  apply (proj2 (proj2 (createOrUpdateSecret_errors cert [] [] w)) eq_refl staleSecret
           eq_refl eq_refl ltac:(vm_compute; reflexivity)).
Defined.

(** ** More on the workload correlator *)

(** Whatever the faults, the loop leaves each listed deployment as it was
    or stores it with the restart annotation, the latter only when it uses
    the secret, and leaves the rest of the store alone. *)
Lemma restartEach_frame (secretName : string) (items : list Deployment.t) :
  forall (restartedCount : Z) (w : World),
    List.NoDup (List.map Deployment.key items) ->
    (forall d, In d items -> deployments w !! Deployment.key d = Some d) ->
    let run := restartEach secretName items restartedCount w in
    (forall k, (forall d, In d items -> Deployment.key d <> k) ->
               deployments run.2 !! k = deployments w !! k) /\
    (forall d, In d items ->
       deployments run.2 !! Deployment.key d = Some d \/
       (deploymentUsesSecret d secretName = true /\
        exists ts, deployments run.2 !! Deployment.key d = Some (restartAnnotated ts d))).
Proof.
  induction items as [|deploy rest IH]; intros restartedCount w Hnodup Hheld.
  - cbn. split; [reflexivity|]. intros d [].
  - apply List.NoDup_cons_iff in Hnodup as [Hfresh Hnodup]. cbn [List.map] in Hfresh.
    assert (Hother : forall d, In d rest -> Deployment.key d <> Deployment.key deploy).
    { intros d Hin Heq. apply Hfresh. rewrite <- Heq. apply List.in_map. exact Hin. }
    assert (Hgo : forall c w2,
               (forall d, In d rest -> deployments w2 !! Deployment.key d = Some d) ->
               (forall k, Deployment.key deploy <> k ->
                          deployments w2 !! k = deployments w !! k) ->
               (deployments w2 !! Deployment.key deploy = Some deploy \/
                (deploymentUsesSecret deploy secretName = true /\
                 exists ts, deployments w2 !! Deployment.key deploy
                            = Some (restartAnnotated ts deploy))) ->
               let run := restartEach secretName rest c w2 in
               (forall k, (forall d, In d (deploy :: rest) -> Deployment.key d <> k) ->
                          deployments run.2 !! k = deployments w !! k) /\
               (forall d, In d (deploy :: rest) ->
                  deployments run.2 !! Deployment.key d = Some d \/
                  (deploymentUsesSecret d secretName = true /\
                   exists ts, deployments run.2 !! Deployment.key d
                              = Some (restartAnnotated ts d)))).
    { intros c w2 Hheld2 Hsame Hhead. cbv zeta.
      destruct (IH c w2 Hnodup Hheld2) as (Hout & Hin). split.
      - intros k Hk. rewrite Hout by (intros d Hd; apply Hk; right; exact Hd).
        apply Hsame. apply Hk. left. reflexivity.
      - intros d [<-|Hd]; [|apply Hin; exact Hd].
        rewrite Hout by (intros d Hd; apply Hother; exact Hd). exact Hhead. }
    cbn [restartEach].
    destruct (deploymentUsesSecret deploy secretName) eqn:Huses.
    2:{ apply Hgo.
        - intros d Hd. apply Hheld. right. exact Hd.
        - reflexivity.
        - left. apply Hheld. left. reflexivity. }
    unfold bind, getEnv, Now.
    set (ts := Format_RFC3339 (env w) (clock (env w) (ticks w))).
    change (Deployment.SetTemplateAnnotations _ deploy) with (restartAnnotated ts deploy).
    set (w1 := set_ticks _ w).
    unfold Client.Update_Deployment, Client.nextFault.
    change (env w1) with (env w). change (calls w1) with (calls w).
    rewrite restartAnnotated_key. change (deployments w1) with (deployments w).
    rewrite (Hheld deploy (or_introl eq_refl)).
    destruct (fault (env w) (calls w)) as [e|].
    + apply Hgo.
      * intros d Hd. apply Hheld. right. exact Hd.
      * reflexivity.
      * left. apply Hheld. left. reflexivity.
    + apply Hgo.
      * intros d Hd. cbn.
        rewrite lookup_insert_ne by (intros Heq; exact (Hother d Hd (eq_sym Heq))).
        apply Hheld. right. exact Hd.
      * intros k Hk. cbn. apply lookup_insert_ne. exact Hk.
      * right. split; [reflexivity|]. exists ts. cbn. apply lookup_insert_eq.
Qed.

(** X10: whatever the faults, on a well-keyed store the correlator changes
    nothing but the restart annotation of deployments of the namespace
    that reference the secret. Certificates and secrets are untouched, no
    deployment appears or disappears, every deployment is stored as it was
    or, if it is in the namespace and references the secret, with the
    restart annotation written; that write keeps the metadata, the pod
    spec and every other annotation of the pod template; and when the
    correlator returns an error no deployment has changed. *)
Theorem restartDeployments_frame (cert : Certificate.t) (w : World) :
  deploymentsWellKeyed (deployments w) ->
  let ns := Certificate.Namespace cert in
  let secretName := CertificateSpec.SecretName (Certificate.Spec cert) in
  let run := restartDeployments cert w in
  certificates run.2 = certificates w /\
  secrets run.2 = secrets w /\
  (forall k, deployments w !! k = None -> deployments run.2 !! k = None) /\
  (forall k d, deployments w !! k = Some d ->
     deployments run.2 !! k = Some d \/
     (Deployment.Namespace d = ns /\ referencesSecret d secretName /\
      exists ts, deployments run.2 !! k = Some (restartAnnotated ts d))) /\
  (forall ts d,
     Deployment.ObjectMeta (restartAnnotated ts d) = Deployment.ObjectMeta d /\
     PodTemplateSpec.Spec (Deployment.Template (restartAnnotated ts d))
       = PodTemplateSpec.Spec (Deployment.Template d) /\
     forall a, a <> restartedAt ->
       PodTemplateSpec.Annotations (Deployment.Template (restartAnnotated ts d)) !! a
       = PodTemplateSpec.Annotations (Deployment.Template d) !! a) /\
  (run.1 <> None -> deployments run.2 = deployments w).
Proof.
  intros Hwf ns secretName run. subst run.
  assert (Hann : forall ts d,
             Deployment.ObjectMeta (restartAnnotated ts d) = Deployment.ObjectMeta d /\
             PodTemplateSpec.Spec (Deployment.Template (restartAnnotated ts d))
               = PodTemplateSpec.Spec (Deployment.Template d) /\
             forall a, a <> restartedAt ->
               PodTemplateSpec.Annotations (Deployment.Template (restartAnnotated ts d))
                 !! a
               = PodTemplateSpec.Annotations (Deployment.Template d) !! a).
  { intros ts d. split; [reflexivity|]. split; [reflexivity|].
    intros a Ha. cbn. apply lookup_insert_ne. congruence. }
  unfold restartDeployments, bind, Client.List_Deployments, Client.nextFault.
  fold ns secretName.
  destruct (fault (env w) (calls w)) as [e|].
  { unfold ret. cbn. repeat split; try reflexivity; try apply Hann.
    - intros k Hk. exact Hk.
    - intros k d Hk. left. exact Hk. }
  set (items := Client.inNamespace ns (deployments w)).
  set (w0 := called (EvListDeployments ns None) w).
  assert (Hheld : forall d, In d items -> deployments w0 !! Deployment.key d = Some d).
  { intros d Hd. apply inNamespace_In in Hd as [(k & Hk) _].
    rewrite (Hwf _ _ Hk). exact Hk. }
  pose proof (restartEach_frame secretName items 0 w0 (inNamespace_NoDup ns _ Hwf) Hheld)
    as (Hout & Hin).
  pose proof (restartEach_attempts secretName items 0 w0)
    as (evs & _ & _ & _ & _ & Hcerts & Hsecs).
  destruct (restartEach secretName items 0 w0) as [count w1]. cbn [fst snd] in *.
  cbn [certificates secrets deployments logged].
  split; [exact Hcerts|]. split; [exact Hsecs|]. split; [|split; [|split]].
  - intros k Hk. rewrite Hout; [exact Hk|].
    intros d Hd Heq. apply inNamespace_In in Hd as [(k' & Hk') _].
    rewrite (Hwf _ _ Hk') in Heq. subst k'. congruence.
  - intros k d Hk. pose proof (Hwf _ _ Hk) as Hkey.
    destruct (String.eqb_spec (Deployment.Namespace d) ns) as [Hns|Hns].
    + assert (Hd : In d items) by (apply inNamespace_In; eauto).
      destruct (Hin d Hd) as [Hsame|(Huses & ts & Hts)]; rewrite Hkey in *.
      * left. exact Hsame.
      * right. split; [exact Hns|]. split; [|exists ts; exact Hts].
        apply deploymentUsesSecret_references. exact Huses.
    + left. rewrite Hout; [exact Hk|].
      intros d' Hd' Heq. apply inNamespace_In in Hd' as [(k' & Hk') Hns'].
      rewrite (Hwf _ _ Hk') in Heq. subst k'.
      assert (d' = d) by congruence. subst d'. contradiction.
  - exact Hann.
  - intros H. exfalso. apply H. reflexivity.
Qed.

Lemma restartDeployments_frame_witness :
  secrets (restartDeployments scenarioCert (scenarioWorld (failAt 1))).2
  = secrets (scenarioWorld (failAt 1)).
Proof.
  apply (restartDeployments_frame scenarioCert (scenarioWorld (failAt 1))
           (scenario_wellKeyed (failAt 1))).
Defined.

(** ** Status written by an issuance *)

Lemma SetStatusCondition_find (conditions : list Condition.t) (new : Condition.t) :
  exists cond,
    FindStatusCondition (SetStatusCondition conditions new) (Condition.Type_ new)
    = Some cond /\
    Condition.Status cond = Condition.Status new /\
    Condition.Reason cond = Condition.Reason new /\
    Condition.Message cond = Condition.Message new.
Proof.
  unfold FindStatusCondition.
  induction conditions as [|c rest IH]; cbn.
  - rewrite String.eqb_refl. eexists. repeat split.
  - destruct (String.eqb (Condition.Type_ c) (Condition.Type_ new)) eqn:Hc; cbn.
    + rewrite Hc. eexists. repeat split.
    + rewrite Hc. exact IH.
Qed.

Lemma SetStatusCondition_find_other (conditions : list Condition.t)
    (new : Condition.t) (conditionType : string) :
  conditionType <> Condition.Type_ new ->
  FindStatusCondition (SetStatusCondition conditions new) conditionType
  = FindStatusCondition conditions conditionType.
Proof.
  unfold FindStatusCondition. intros Hne.
  induction conditions as [|c rest IH]; cbn.
  - destruct (String.eqb_spec (Condition.Type_ new) conditionType); congruence.
  - destruct (String.eqb (Condition.Type_ c) (Condition.Type_ new)) eqn:Hc; cbn.
    + apply String.eqb_eq in Hc.
      destruct (String.eqb_spec (Condition.Type_ c) conditionType); congruence.
    + rewrite IH. reflexivity.
Qed.

Lemma withCondition_has (cert : Certificate.t) (c : Condition.t) :
  hasCondition (withCondition cert c) (Condition.Type_ c) (Condition.Status c)
    (Condition.Reason c).
Proof.
  destruct (SetStatusCondition_find
              (CertificateStatus.Conditions (Certificate.Status cert)) c)
    as (cond & Hfind & Hs & Hr & _).
  exists cond. cbn. auto.
Qed.

Lemma withCondition_keeps (cert : Certificate.t) (c : Condition.t)
    (conditionType : string) (status : ConditionStatus) (reason : string) :
  conditionType <> Condition.Type_ c ->
  hasCondition cert conditionType status reason ->
  hasCondition (withCondition cert c) conditionType status reason.
Proof.
  intros Hne (cond & Hfind & H). exists cond. split; [|exact H].
  change (CertificateStatus.Conditions (Certificate.Status (withCondition cert c)))
    with (SetStatusCondition
            (CertificateStatus.Conditions (Certificate.Status cert)) c).
  rewrite SetStatusCondition_find_other by exact Hne. exact Hfind.
Qed.

Lemma failIssuance_run (cert : Certificate.t) (reason message : string) (err : error)
    (w : World) :
  let run := failIssuance cert reason message err w in
  exists c e,
    run.1 = Return (Result.empty, Some err) /\
    trace run.2 = trace w ++ [EvUpdateCertificateStatus c e] /\
    secrets run.2 = secrets w /\ deployments run.2 = deployments w /\
    Certificate.ObjectMeta c = Certificate.ObjectMeta cert /\
    Certificate.Spec c = Certificate.Spec cert /\
    issuanceFields (Certificate.Status c) = issuanceFields (Certificate.Status cert) /\
    hasCondition c typeReadyCert ConditionFalse reason.
Proof.
  unfold failIssuance, bind, Now, ret. cbv zeta.
  set (c := withCondition cert _). set (w1 := set_ticks _ w).
  assert (Hc : hasCondition c typeReadyCert ConditionFalse reason)
    by (subst c; apply (withCondition_has cert (Condition.mk _ _ _ _ _))).
  unfold Client.Status_Update.
  repeat case_match; simplify_eq; cbn;
    eexists c, _; repeat split; exact Hc.
Qed.

Lemma Status_Update_run (obj : Certificate.t) (w : World) :
  let run := Client.Status_Update obj w in
  trace run.2 = trace w ++ [EvUpdateCertificateStatus obj run.1] /\
  secrets run.2 = secrets w /\ deployments run.2 = deployments w.
Proof.
  unfold Client.Status_Update. repeat case_match; simplify_eq; cbn; auto.
Qed.

(** The calls of the synchronizer are calls on secrets; when it returns no
    error they are a Get followed by a write that went through. *)
Lemma createOrUpdateSecret_calls (cert : Certificate.t) (certPEM keyPEM : bytes)
    (w : World) :
  let run := createOrUpdateSecret cert certPEM keyPEM w in
  exists evs,
    trace run.2 = trace w ++ evs /\
    Forall (fun ev => isSecretEvent ev = true) evs /\
    deployments run.2 = deployments w /\
    (run.1 = None ->
     exists k e ev, evs = [EvGetSecret k e; ev] /\
                    isSecretWritten (tlsData certPEM keyPEM) ev).
Proof.
  unfold createOrUpdateSecret, bind, getEnv, controllerutil.SetControllerReference.
  destruct (existsb (String.eqb "Certificate") (Scheme (env w))).
  2:{ exists []. unfold ret. cbn. rewrite app_nil_r.
      repeat split; [constructor|discriminate]. }
  change (Secret.SetOwnerReferences _ _) with (desiredSecret cert certPEM keyPEM).
  unfold Client.Get_Secret, Client.Create_Secret, Client.Update_Secret,
    Client.nextFault, ret.
  repeat case_match; simplify_eq; cbn [fst snd trace called set_secrets deployments];
    rewrite <- ?app_assoc; eexists; (split; [reflexivity|]);
    (split; [repeat constructor|]); (split; [reflexivity|]);
    try discriminate; intros _; do 3 eexists; (split; [reflexivity|]);
    eexists; (split; [|eauto]);
    match goal with
    | |- Secret.Data (Secret.SetLabels _ (Secret.SetData _ ?s)) = _ =>
        destruct s as [[] ? ?]; reflexivity
    | _ => reflexivity
    end.
Qed.

Lemma restartDeployments_calls (cert : Certificate.t) (w : World) :
  let run := restartDeployments cert w in
  exists evs,
    trace run.2 = trace w ++ evs /\
    Forall (fun ev => isCorrelatorEvent ev = true) evs /\
    secrets run.2 = secrets w.
Proof.
  cbv zeta.
  assert (Hsecs : secrets (restartDeployments cert w).2 = secrets w).
  { unfold restartDeployments, bind, Client.List_Deployments.
    destruct (Client.nextFault w); [reflexivity|].
    pose proof (restartEach_attempts
                  (CertificateSpec.SecretName (Certificate.Spec cert))
                  (Client.inNamespace (Certificate.Namespace cert) (deployments w)) 0
                  (called (EvListDeployments (Certificate.Namespace cert) None) w))
      as (evs & _ & _ & _ & _ & _ & Hs).
    destruct (restartEach _ _ _ _) as [count w1]. exact Hs. }
  destruct (restartDeployments_cases cert w)
    as [(e & _ & _ & Htr)|(_ & _ & evs & Htr & Hall & _)].
  - eexists. split; [exact Htr|]. split; [repeat constructor|exact Hsecs].
  - eexists. split; [exact Htr|]. split; [|exact Hsecs].
    constructor; [reflexivity|]. apply Forall_app. split; [|repeat constructor].
    clear -Hall. induction Hall as [|d ev ds evs (ts & err & ->) _ IH]; constructor;
      [reflexivity|exact IH].
Qed.

Lemma Now_inv (w w' : World) (t : time.Time) :
  Now w = (t, w') ->
  trace w' = trace w /\ secrets w' = secrets w /\ deployments w' = deployments w.
Proof. unfold Now. intros [= <- <-]. repeat split. Qed.

Lemma issuedShape_built (cert : Certificate.t) (notBefore d lastRenewalTime t1 t2
    : time.Time) (serial message1 message2 : string) :
  specifiedValidity (CertificateSpec.Duration (Certificate.Spec cert)) = Some d ->
  let c :=
    withCondition
      (withCondition
         (Certificate.SetStatus
            (CertificateStatus.mk
               (CertificateStatus.Conditions (Certificate.Status cert))
               (Some notBefore) (Some (notBefore + d))
               (Some (calculateRenewalTime cert (notBefore + d))) serial
               (Some lastRenewalTime))
            cert)
         (Condition.mk typeReadyCert ConditionTrue "CertificateIssued" message1 t1))
      (Condition.mk typeAvailableCert ConditionTrue "Reconciling" message2 t2) in
  Certificate.ObjectMeta c = Certificate.ObjectMeta cert /\
  Certificate.Spec c = Certificate.Spec cert /\
  issuedShape cert c.
Proof.
  intros Hd c. split; [reflexivity|]. split; [reflexivity|]. split; [|split].
  - exists notBefore, d, lastRenewalTime. repeat split. exact Hd.
  - subst c. apply withCondition_keeps; [discriminate|].
    apply (withCondition_has _ (Condition.mk _ _ _ _ _)).
  - subst c. apply (withCondition_has _ (Condition.mk _ _ _ _ _)).
Qed.

(** The two ways out of [issue], with the calls made on each: a return
    with an error after one status update, or the end of the block after a
    secret write and a status update that went through. *)
Lemma issue_steps (cert : Certificate.t) (w w' : World) (r : flow Certificate.t) :
  issue cert w = (r, w') ->
  (exists e pre c err,
     r = Return (Result.empty, Some e) /\
     trace w' = trace w ++ pre ++ [EvUpdateCertificateStatus c err] /\
     Forall (fun ev => isSecretEvent ev = true) pre /\
     deployments w' = deployments w /\
     Certificate.ObjectMeta c = Certificate.ObjectMeta cert /\
     Certificate.Spec c = Certificate.Spec cert /\
     (failedShape cert c \/ (issuedShape cert c /\ err = Some e))) \/
  (exists c k e written post certPEM keyPEM,
     r = Continue c /\
     trace w'
     = trace w ++ [EvGetSecret k e; written; EvUpdateCertificateStatus c None] ++ post /\
     isSecretWritten (tlsData certPEM keyPEM) written /\
     Forall (fun ev => isCorrelatorEvent ev = true) post /\
     (CertificateSpec.RestartDeployments (Certificate.Spec cert) = false -> post = []) /\
     Certificate.ObjectMeta c = Certificate.ObjectMeta cert /\
     Certificate.Spec c = Certificate.Spec cert /\
     issuedShape cert c).
Proof.
  unfold issue. intros H.
  apply bind_inv in H as (generated & w1 & Hgen & H).
  pose proof (generateCertificate_world cert w) as (_ & _ & _ & Hdep1 & _ & Htr1).
  rewrite Hgen in Hdep1, Htr1. cbn [snd] in Hdep1, Htr1.
  destruct generated as [[[[[certPEM keyPEM] notBefore] notAfter] serial]|err].
  2:{ left. destruct (failIssuance_run cert "GenerationFailed"
                        "Failed to generate certificate: " err w1)
        as (c & e & Hr & Htr & _ & Hdep & Hmeta & Hspec & Hfields & Hcond).
      rewrite H in Hr, Htr, Hdep. cbn [fst snd] in Hr, Htr, Hdep.
      exists err, [], c, e. rewrite Htr, Htr1, Hdep, Hdep1.
      repeat split; try assumption; [constructor|].
      left. split; [exact Hfields|left; exact Hcond]. }
  assert (Hvalid : exists d,
             specifiedValidity (CertificateSpec.Duration (Certificate.Spec cert))
             = Some d /\ notAfter = notBefore + d).
  { pose proof (generateCertificate_Ok cert w certPEM keyPEM notBefore notAfter serial)
      as Hok. rewrite Hgen in Hok.
    destruct (Hok eq_refl) as (d & Hd & -> & ->). exists d. split; [exact Hd|reflexivity]. }
  destruct Hvalid as (d & Hd & ->).
  apply bind_inv in H as (serr & w2 & Hsec & H).
  destruct (createOrUpdateSecret_calls cert certPEM keyPEM w1)
    as (evs & Htr2 & Hevs & Hdep2 & Hwritten).
  rewrite Hsec in Htr2, Hdep2, Hwritten. cbn [fst snd] in Htr2, Hdep2, Hwritten.
  destruct serr as [serr|].
  { left. destruct (failIssuance_run cert "SecretUpdateFailed"
                      "Failed to update secret: " serr w2)
      as (c & e & Hr & Htr & _ & Hdep & Hmeta & Hspec & Hfields & Hcond).
    rewrite H in Hr, Htr, Hdep. cbn [fst snd] in Hr, Htr, Hdep.
    exists serr, evs, c, e. rewrite Htr, Htr2, Htr1, Hdep, Hdep2, Hdep1, <- app_assoc.
    repeat split; try assumption.
    left. split; [exact Hfields|right; exact Hcond]. }
  destruct (Hwritten eq_refl) as (k & e & written & -> & Hw).
  apply bind_inv in H as (lastRenewalTime & w3 & Hn3 & H).
  apply Now_inv in Hn3 as (Htr3 & _ & Hdep3).
  apply bind_inv in H as (t1 & w4 & Hn4 & H).
  apply Now_inv in Hn4 as (Htr4 & _ & Hdep4).
  apply bind_inv in H as (t2 & w5 & Hn5 & H).
  apply Now_inv in Hn5 as (Htr5 & _ & Hdep5).
  apply bind_inv in H as (uerr & w6 & Hupd & H).
  match type of Hupd with Client.Status_Update ?obj _ = _ => set (c := obj) in * end.
  destruct (issuedShape_built cert notBefore d lastRenewalTime t1 t2 serial
              "Certificate has been issued successfully"
              ("Certificate for (" ++ Certificate.Name
                 (withCondition
                    (Certificate.SetStatus
                       (CertificateStatus.mk
                          (CertificateStatus.Conditions (Certificate.Status cert))
                          (Some notBefore) (Some (notBefore + d))
                          (Some (calculateRenewalTime cert (notBefore + d))) serial
                          (Some lastRenewalTime)) cert)
                    (Condition.mk typeReadyCert ConditionTrue "CertificateIssued"
                       "Certificate has been issued successfully" t1))
                 ++ ") issued successfully")%string Hd)
    as (Hmeta & Hspec & Hshape).
  fold c in Hmeta, Hspec, Hshape.
  destruct (Status_Update_run c w5) as (Htr6 & _ & Hdep6).
  rewrite Hupd in Htr6, Hdep6. cbn [fst snd] in Htr6, Hdep6.
  assert (Hpre : trace w6
                 = trace w ++ [EvGetSecret k e; written; EvUpdateCertificateStatus c uerr]).
  { rewrite Htr6, Htr5, Htr4, Htr3, Htr2, Htr1, <- app_assoc. reflexivity. }
  destruct uerr as [uerr|].
  { left. injection H as <- <-.
    exists uerr, [EvGetSecret k e; written], c, (Some uerr).
    rewrite Hpre, Hdep6, Hdep5, Hdep4, Hdep3, Hdep2, Hdep1.
    split; [reflexivity|]. split; [reflexivity|]. split.
    { constructor; [reflexivity|]. constructor; [|constructor].
      destruct Hw as (s & _ & [->| ->]); reflexivity. }
    repeat split; try assumption. right. split; [exact Hshape|reflexivity]. }
  right. apply bind_inv in H as (rerr & w7 & Hrestart & H).
  injection H as <- <-.
  assert (Hpost : exists post,
             trace w7 = trace w6 ++ post /\
             Forall (fun ev => isCorrelatorEvent ev = true) post /\
             (CertificateSpec.RestartDeployments (Certificate.Spec cert) = false ->
              post = [])).
  { change (Certificate.Spec c) with (Certificate.Spec cert) in Hrestart.
    destruct (CertificateSpec.RestartDeployments (Certificate.Spec cert)).
    - destruct (restartDeployments_calls c w6) as (post & Htr7 & Hall & _).
      rewrite Hrestart in Htr7. exists post. split; [exact Htr7|].
      split; [exact Hall|discriminate].
    - injection Hrestart as _ <-. exists []. rewrite app_nil_r.
      split; [reflexivity|]. split; [constructor|reflexivity]. }
  destruct Hpost as (post & Htr7 & Hall & Hoff).
  exists c, k, e, written, post, certPEM, keyPEM.
  rewrite Htr7, Hpre, <- app_assoc.
  split; [reflexivity|]. split; [reflexivity|]. split; [exact Hw|].
  split; [exact Hall|]. split; [exact Hoff|]. split; [exact Hmeta|].
  split; [exact Hspec|exact Hshape].
Qed.



(** X12: a failed issuance never leaves a partial status. When [issue]
    returns, it returns an error with the empty result; before it has made
    calls on the secret only and never on a deployment, and its last call
    is the one status update of the run, whose object keeps the metadata
    and spec and either keeps every issuance field of the loaded status
    with Ready set to false (reason GenerationFailed or
    SecretUpdateFailed), or holds a whole new issuance with Ready and
    Available true, in which case it is that very update that failed. *)
Theorem issue_failure (cert : Certificate.t) (w w' : World)
    (out : Result.t * option error) :
  issue cert w = (Return out, w') ->
  exists e pre c err,
    out = (Result.empty, Some e) /\
    trace w' = trace w ++ pre ++ [EvUpdateCertificateStatus c err] /\
    Forall (fun ev => isSecretEvent ev = true) pre /\
    deployments w' = deployments w /\
    Certificate.ObjectMeta c = Certificate.ObjectMeta cert /\
    Certificate.Spec c = Certificate.Spec cert /\
    (failedShape cert c \/ (issuedShape cert c /\ err = Some e)).
Proof.
  intros H. apply issue_steps in H as [H|(c & k & e & written & post & certPEM
                                          & keyPEM & Hr & _)]; [|discriminate].
  destruct H as (e & pre & c & err & [= ->] & H).
  exists e, pre, c, err. split; [reflexivity|exact H].
Qed.

Lemma issue_failure_witness :
  let cert := sampleCert [certificateFinalizer] None "soon" "" false in
  exists e pre c err,
    trace (issue cert (sampleWorld 1000 cert)).2
    = [] ++ pre ++ [EvUpdateCertificateStatus c err] /\
    (failedShape cert c \/ (issuedShape cert c /\ err = Some e)).
Proof.
  intros cert.
  destruct (issue_failure cert (sampleWorld 1000 cert)
              (issue cert (sampleWorld 1000 cert)).2
              (Result.empty, Some errInvalidDuration)
              ltac:(vm_compute; reflexivity))
    as (e & pre & c & err & _ & Htr & _ & _ & _ & _ & Hshape).
  exists e, pre, c, err. split; [exact Htr|exact Hshape].
Defined.

(** ** Two reconciliations in a row *)


Lemma restartDeployments_certificates (cert : Certificate.t) (w : World) :
  certificates (restartDeployments cert w).2 = certificates w.
Proof.
  unfold restartDeployments, bind, Client.List_Deployments.
  destruct (Client.nextFault w); [reflexivity|].
  pose proof (restartEach_attempts
                (CertificateSpec.SecretName (Certificate.Spec cert))
                (Client.inNamespace (Certificate.Namespace cert) (deployments w)) 0
                (called (EvListDeployments (Certificate.Namespace cert) None) w))
    as (evs & _ & _ & _ & _ & Hc & _).
  destruct (restartEach _ _ _ _) as [count w1]. exact Hc.
Qed.





(** ** Errors of the generator *)

(** X14: the generator fails in four ways only, each with its own message:
    on the key, on the duration, on the serial number, on the signature, in
    that order of precedence. It fails on the duration exactly when the key
    was generated and the duration string is non-empty and does not parse.
    Failing or not, it calls no client and leaves the certificates, the
    secrets and the deployments as they were. *)
Theorem generateCertificate_errors (cert : Certificate.t) (w : World) :
  let run := generateCertificate cert w in
  (forall e, run.1 = Err e ->
     exists cause,
       e = Errorf "failed to generate private key" cause \/
       e = Errorf "invalid duration" cause \/
       e = Errorf "failed to generate serial number" cause \/
       e = Errorf "failed to create certificate" cause) /\
  (run.1 = Err errInvalidDuration <->
   rsa_GenerateKey (env w) (draws w) <> None /\
   CertificateSpec.Duration (Certificate.Spec cert) <> "" /\
   time.ParseDuration (CertificateSpec.Duration (Certificate.Spec cert)) = None) /\
  (rsa_GenerateKey (env w) (draws w) = None ->
   exists cause, run.1 = Err (Errorf "failed to generate private key" cause)) /\
  trace run.2 = trace w /\ calls run.2 = calls w /\
  certificates run.2 = certificates w /\ secrets run.2 = secrets w /\
  deployments run.2 = deployments w.
Proof.
  cbv zeta.
  pose proof (generateCertificate_world cert w) as (_ & Hc & Hs & Hd & Hcalls & Htr).
  split; [|split; [|split; [|auto 6]]].
  - unfold generateCertificate, bind, getEnv, GenerateKey, randInt, Now, ret.
    cbn -[time.ParseDuration time.Hour Z.mul Z.shiftl].
    intros e. repeat case_match; cbn; intros ?; simplify_eq; eexists; eauto.
  - unfold generateCertificate, bind, getEnv, GenerateKey, randInt, Now, ret,
      errInvalidDuration.
    cbn -[time.ParseDuration time.Hour Z.mul Z.shiftl].
    destruct (rsa_GenerateKey (env w) (draws w)) as [key|].
    2:{ cbn. split; [discriminate|]. intros (H & _). congruence. }
    destruct (String.eqb_spec (CertificateSpec.Duration (Certificate.Spec cert)) "")
      as [Hempty|Hne].
    { cbn -[time.ParseDuration time.Hour Z.mul Z.shiftl]. split.
      - repeat case_match; cbn; intros ?; simplify_eq.
      - intros (_ & H & _). contradiction. }
    destruct (time.ParseDuration (CertificateSpec.Duration (Certificate.Spec cert)))
      as [d|].
    + cbn -[time.ParseDuration time.Hour Z.mul Z.shiftl]. split.
      * repeat case_match; cbn; intros ?; simplify_eq.
      * intros (_ & _ & H). discriminate.
    + cbn. split; [|reflexivity]. intros _. repeat split; [discriminate|exact Hne].
  - intros Hkey.
    unfold generateCertificate, bind, getEnv, GenerateKey, ret.
    cbn -[time.ParseDuration time.Hour Z.mul Z.shiftl]. rewrite Hkey. cbn.
    eexists. reflexivity.
Qed.

Lemma generateCertificate_errors_witness :
  let cert := sampleCert [] None "soon" "" false in
  (generateCertificate cert (sampleWorld 1000 cert)).1 = Err errInvalidDuration.
Proof.
  intros cert.
  apply (proj1 (proj2 (generateCertificate_errors cert (sampleWorld 1000 cert)))).
  split; [discriminate|]. split; [discriminate|]. vm_compute. reflexivity.
Defined.

(** ** What a reconciliation can touch *)

Lemma hoare_ret {A : Type} (a : A) (P : World -> Prop) (Q : A -> World -> Prop) :
  (forall w, P w -> Q a w) -> hoare P (ret a) Q.
Proof. intros H w Hw. apply H. exact Hw. Qed.

Lemma hoare_bind {A B : Type} (m : M A) (k : A -> M B) (P : World -> Prop)
    (Q : A -> World -> Prop) (R : B -> World -> Prop) :
  hoare P m Q -> (forall a, hoare (Q a) (k a) R) -> hoare P (bind m k) R.
Proof.
  intros Hm Hk w Hw. unfold bind. specialize (Hm w Hw).
  destruct (m w) as [a w1]. apply Hk. exact Hm.
Qed.

Lemma hoare_post {A : Type} (m : M A) (P : World -> Prop) (Q Q' : A -> World -> Prop) :
  hoare P m Q -> (forall a w, Q a w -> Q' a w) -> hoare P m Q'.
Proof. intros Hm HQ w Hw. apply HQ, Hm. exact Hw. Qed.

Lemma sameIdentity_refl (c : Certificate.t) : sameIdentity c c.
Proof. split; reflexivity. Qed.

Lemma sameIdentity_key (c0 c : Certificate.t) :
  sameIdentity c0 c ->
  Certificate.key c = Certificate.key c0 /\ secretKey c = secretKey c0 /\
  Certificate.GetDeletionTimestamp c = Certificate.GetDeletionTimestamp c0.
Proof.
  intros [Hspec Hmeta]. unfold secretKey, Certificate.key, Certificate.Namespace,
    Certificate.GetDeletionTimestamp.
  rewrite Hspec. destruct c as [[] ? ?], c0 as [[] ? ?]. cbn in *.
  injection Hmeta as -> -> -> -> -> -> ->. repeat split.
Qed.

Lemma sameIdentity_SetFinalizers (c0 c : Certificate.t) (fs : list string) :
  sameIdentity c0 c -> sameIdentity c0 (Certificate.SetFinalizers fs c).
Proof. intros [Hspec Hmeta]. split; [exact Hspec|]. exact Hmeta. Qed.

Lemma sameIdentity_SetStatus (c0 c : Certificate.t) (s : CertificateStatus.t) :
  sameIdentity c0 c -> sameIdentity c0 (Certificate.SetStatus s c).
Proof. intros [Hspec Hmeta]. split; [exact Hspec|exact Hmeta]. Qed.

Lemma sameIdentity_withCondition (c0 c : Certificate.t) (cond : Condition.t) :
  sameIdentity c0 c -> sameIdentity c0 (withCondition c cond).
Proof. apply sameIdentity_SetStatus. Qed.

(** A step that leaves the certificates and the secrets alone keeps the
    frame. *)
Lemma hoare_stable {A : Type} (m : M A) (w0 : World) (cert0 : Certificate.t) :
  (forall w, certificates (m w).2 = certificates w /\ secrets (m w).2 = secrets w) ->
  hoare (framed w0 cert0) m (fun _ => framed w0 cert0).
Proof.
  intros Hm w Hw. destruct (Hm w) as [Hc Hs]. unfold framed in *.
  rewrite Hc, Hs. exact Hw.
Qed.

Lemma hoare_Update_Certificate (obj : Certificate.t) (w0 : World)
    (cert0 : Certificate.t) :
  sameIdentity cert0 obj ->
  hoare (framed w0 cert0) (Client.Update_Certificate obj) (fun _ => framed w0 cert0).
Proof.
  intros Hobj w (Hothers & (c & Hc & Hid) & Hsecs & Hwf).
  destruct (sameIdentity_key _ _ Hobj) as (Hkey & _).
  unfold Client.Update_Certificate. rewrite Hkey, Hc.
  destruct (Client.nextFault w); cbn; unfold framed; cbn.
  - eauto 10.
  - split; [intros k Hk; rewrite lookup_insert_ne by congruence; apply Hothers, Hk|].
    split; [|split; assumption].
    eexists. split; [apply lookup_insert_eq|].
    apply sameIdentity_SetStatus. exact Hobj.
Qed.

Lemma hoare_Status_Update (obj : Certificate.t) (w0 : World) (cert0 : Certificate.t) :
  sameIdentity cert0 obj ->
  hoare (framed w0 cert0) (Client.Status_Update obj) (fun _ => framed w0 cert0).
Proof.
  intros Hobj w (Hothers & (c & Hc & Hid) & Hsecs & Hwf).
  destruct (sameIdentity_key _ _ Hobj) as (Hkey & _).
  unfold Client.Status_Update. rewrite Hkey, Hc.
  destruct (Client.nextFault w); cbn; unfold framed; cbn.
  - eauto 10.
  - split; [intros k Hk; rewrite lookup_insert_ne by congruence; apply Hothers, Hk|].
    split; [|split; assumption].
    eexists. split; [apply lookup_insert_eq|].
    apply sameIdentity_SetStatus. exact Hid.
Qed.

Lemma hoare_createOrUpdateSecret (c : Certificate.t) (certPEM keyPEM : bytes)
    (w0 : World) (cert0 : Certificate.t) :
  sameIdentity cert0 c ->
  hoare (framed w0 cert0) (createOrUpdateSecret c certPEM keyPEM)
    (fun _ => framed w0 cert0).
Proof.
  intros Hc w (Hothers & Hcert & Hsecs & Hwf).
  destruct (sameIdentity_key _ _ Hc) as (_ & Hkey & _).
  destruct (createOrUpdateSecret_touches c certPEM keyPEM w Hwf)
    as (Hcerts & _ & Hother & _ & Hwf').
  fold (secretKey c) in Hother. rewrite Hkey in Hother.
  unfold framed. rewrite Hcerts.
  split; [exact Hothers|]. split; [exact Hcert|]. split; [|exact Hwf'].
  intros k Hk. rewrite Hother by exact Hk. apply Hsecs, Hk.
Qed.

Lemma stable_Now (w : World) :
  certificates (Now w).2 = certificates w /\ secrets (Now w).2 = secrets w.
Proof. split; reflexivity. Qed.

Lemma stable_needsRenewal (cert : Certificate.t) (w : World) :
  certificates (needsRenewal cert w).2 = certificates w /\
  secrets (needsRenewal cert w).2 = secrets w.
Proof.
  unfold needsRenewal. destruct (CertificateStatus.RenewalTime _); split; reflexivity.
Qed.

Lemma stable_getRequeueTime (cert : Certificate.t) (w : World) :
  certificates (getRequeueTime cert w).2 = certificates w /\
  secrets (getRequeueTime cert w).2 = secrets w.
Proof.
  unfold getRequeueTime, bind, Now, ret.
  repeat case_match; simplify_eq; split; reflexivity.
Qed.

Lemma stable_generateCertificate (cert : Certificate.t) (w : World) :
  certificates (generateCertificate cert w).2 = certificates w /\
  secrets (generateCertificate cert w).2 = secrets w.
Proof.
  pose proof (generateCertificate_world cert w) as (_ & Hc & Hs & _). auto.
Qed.

Lemma stable_restartDeployments (cert : Certificate.t) (w : World) :
  certificates (restartDeployments cert w).2 = certificates w /\
  secrets (restartDeployments cert w).2 = secrets w.
Proof.
  split; [apply restartDeployments_certificates|].
  destruct (restartDeployments_calls cert w) as (evs & _ & _ & Hs). exact Hs.
Qed.

Lemma hoare_failIssuance (c : Certificate.t) (reason message : string) (err : error)
    (w0 : World) (cert0 : Certificate.t) :
  sameIdentity cert0 c ->
  hoare (framed w0 cert0) (failIssuance c reason message err)
    (fun _ => framed w0 cert0).
Proof.
  intros Hc. unfold failIssuance.
  apply (hoare_bind _ _ _ _ _ (hoare_stable _ _ _ stable_Now)). intros t.
  eapply hoare_bind.
  - apply hoare_Status_Update. apply sameIdentity_withCondition. exact Hc.
  - intros ?. apply hoare_ret. auto.
Qed.

Lemma hoare_issue (c : Certificate.t) (w0 : World) (cert0 : Certificate.t) :
  sameIdentity cert0 c ->
  hoare (framed w0 cert0) (issue c) (fun _ => framed w0 cert0).
Proof.
  intros Hc. unfold issue.
  apply (hoare_bind _ _ _ _ _
           (hoare_stable _ _ _ (stable_generateCertificate c))).
  intros [[[[[certPEM keyPEM] notBefore] notAfter] serial]|err];
    [|apply hoare_failIssuance; exact Hc].
  apply (hoare_bind _ _ _ _ _ (hoare_createOrUpdateSecret _ _ _ _ _ Hc)).
  intros [err|]; [apply hoare_failIssuance; exact Hc|].
  do 3 (apply (hoare_bind _ _ _ _ _ (hoare_stable _ _ _ stable_Now)); intros ?).
  eapply hoare_bind.
  - apply hoare_Status_Update. do 2 apply sameIdentity_withCondition.
    apply sameIdentity_SetStatus. exact Hc.
  - intros [err|]; [apply hoare_ret; auto|].
    eapply hoare_bind.
    + destruct (CertificateSpec.RestartDeployments _).
      * apply (hoare_stable _ _ _ (stable_restartDeployments _)).
      * apply hoare_ret. intros w Hw. exact Hw.
    + intros ?. apply hoare_ret. auto.
Qed.

Lemma hoare_ensureFinalizer (c : Certificate.t) (w0 : World) (cert0 : Certificate.t) :
  sameIdentity cert0 c ->
  hoare (framed w0 cert0) (ensureFinalizer c)
    (fun r w => framed w0 cert0 w /\
                match r with
                | Continue c' => sameIdentity cert0 c'
                | Return _ => True
                end).
Proof.
  intros Hc. unfold ensureFinalizer.
  destruct (negb _); [|apply hoare_ret; auto].
  unfold controllerutil.AddFinalizer.
  destruct (existsb _ _); cbn [negb]; [apply hoare_ret; auto|].
  eapply hoare_bind.
  - apply hoare_Update_Certificate. apply sameIdentity_SetFinalizers. exact Hc.
  - intros [err|]; apply hoare_ret; intros w Hw; (split; [exact Hw|]); [exact I|].
    apply sameIdentity_SetFinalizers. exact Hc.
Qed.

Lemma hoare_finalize (c : Certificate.t) (w0 : World) (cert0 : Certificate.t) :
  sameIdentity cert0 c ->
  hoare (framed w0 cert0) (finalize c) (fun _ => framed w0 cert0).
Proof.
  intros Hc. unfold finalize.
  destruct (controllerutil.ContainsFinalizer _ _); [|apply hoare_ret; auto].
  unfold controllerutil.RemoveFinalizer.
  destruct (negb (negb _)); [apply hoare_ret; auto|].
  eapply hoare_bind.
  - apply hoare_Update_Certificate. apply sameIdentity_SetFinalizers. exact Hc.
  - intros [err|]; apply hoare_ret; auto.
Qed.

Lemma hoare_reconcileLive (c : Certificate.t) (w0 : World) (cert0 : Certificate.t) :
  sameIdentity cert0 c ->
  hoare (framed w0 cert0) (reconcileLive c) (fun _ => framed w0 cert0).
Proof.
  intros Hc. unfold reconcileLive.
  apply (hoare_bind _ _ _ _ _ (hoare_stable _ _ _ (stable_needsRenewal c))).
  intros due. eapply hoare_bind.
  - destruct due; [apply hoare_issue; exact Hc|].
    apply hoare_ret. intros w Hw. exact Hw.
  - intros [c'|out]; [|apply hoare_ret; auto].
    apply (hoare_bind _ _ _ _ _ (hoare_stable _ _ _ (stable_getRequeueTime c'))).
    intros d. apply hoare_ret. auto.
Qed.

Lemma hoare_reconcileLoaded (c : Certificate.t) (w0 : World) :
  hoare (framed w0 c) (reconcileLoaded c) (fun _ => framed w0 c).
Proof.
  unfold reconcileLoaded.
  apply (hoare_bind _ _ _ _ _ (hoare_ensureFinalizer c w0 c (sameIdentity_refl c))).
  intros [c'|out]; [|apply hoare_ret; tauto].
  intros w [Hw Hc']. revert w Hw.
  change (hoare (framed w0 c)
            (match Certificate.GetDeletionTimestamp c' with
             | Some _ => finalize c'
             | None => reconcileLive c'
             end) (fun _ => framed w0 c)).
  destruct (Certificate.GetDeletionTimestamp c');
    [apply hoare_finalize|apply hoare_reconcileLive]; exact Hc'.
Qed.

(** X15: what a reconciliation can touch. On well-keyed stores, whatever
    the faults, [Reconcile] creates and deletes no certificate, leaves
    every certificate but the requested one exactly as it was, and changes
    at most the finalizers and the status of the requested one; it leaves
    every secret but the one named by the spec of that certificate as it
    was, and the secret store well-keyed. *)
Theorem Reconcile_frame (req : NamespacedName) (w : World) :
  certificatesWellKeyed (certificates w) ->
  secretsWellKeyed (secrets w) ->
  let run := Reconcile req w in
  (forall k, certificates w !! k = None -> certificates run.2 !! k = None) /\
  (forall k c, certificates w !! k = Some c ->
     exists c', certificates run.2 !! k = Some c' /\ sameIdentity c c' /\
                (k <> req -> c' = c)) /\
  (forall k, (forall c, certificates w !! req = Some c -> k <> secretKey c) ->
             secrets run.2 !! k = secrets w !! k) /\
  secretsWellKeyed (secrets run.2).
Proof.
  intros Hcwf Hswf run.
  assert (Hsame : certificates run.2 = certificates w -> secrets run.2 = secrets w ->
                  (forall k, certificates w !! k = None ->
                             certificates run.2 !! k = None) /\
                  (forall k c, certificates w !! k = Some c ->
                     exists c', certificates run.2 !! k = Some c' /\
                                sameIdentity c c' /\ (k <> req -> c' = c)) /\
                  (forall k, (forall c, certificates w !! req = Some c ->
                                        k <> secretKey c) ->
                             secrets run.2 !! k = secrets w !! k) /\
                  secretsWellKeyed (secrets run.2)).
  { intros -> ->. split; [auto|]. split; [|split; [reflexivity|exact Hswf]].
    intros k c Hk. exists c. split; [exact Hk|].
    split; [apply sameIdentity_refl|reflexivity]. }
  assert (Hrun : run
               = match (Client.Get_Certificate req w).1 with
                 | Ok cert => reconcileLoaded cert (Client.Get_Certificate req w).2
                 | Err err =>
                     ((Result.empty, if IsNotFound err then None else Some err),
                      (Client.Get_Certificate req w).2)
                 end).
  { subst run. unfold Reconcile, bind at 1.
    destruct (Client.Get_Certificate req w) as [[cert|err] w1]; cbn [fst snd].
    - reflexivity.
    - destruct (IsNotFound err); reflexivity. }
  destruct (Client.Get_Certificate req w) as [[cert|err] w1] eqn:Hget;
    cbn [fst snd] in Hrun.
  2:{ apply Hsame; rewrite Hrun; unfold Client.Get_Certificate in Hget;
        injection Hget as _ <-; reflexivity. }
  assert (Hloaded : certificates w !! req = Some cert /\
                    w1 = called (EvGetCertificate req None) w).
  { unfold Client.Get_Certificate in Hget. repeat case_match; simplify_eq. auto. }
  destruct Hloaded as [Hcert ->].
  pose proof (Hcwf _ _ Hcert) as Hkey.
  assert (Hframed : framed w cert (called (EvGetCertificate req None) w)).
  { split; [reflexivity|]. split; [|split; [reflexivity|exact Hswf]].
    exists cert. rewrite Hkey. split; [exact Hcert|apply sameIdentity_refl]. }
  pose proof (hoare_reconcileLoaded cert w _ Hframed) as (Hothers & Hmine & Hsecs & Hwf).
  rewrite <- Hrun in Hothers, Hmine, Hsecs, Hwf. rewrite Hkey in Hothers, Hmine.
  split; [|split; [|split; [|exact Hwf]]].
  - intros k Hk. rewrite Hothers; [exact Hk|]. congruence.
  - intros k c Hk. destruct (decide (k = req)) as [->|Hne].
    + destruct Hmine as (c' & Hc' & Hid). exists c'.
      split; [exact Hc'|]. split; [|contradiction]. congruence.
    + exists c. rewrite Hothers by exact Hne.
      split; [exact Hk|]. split; [apply sameIdentity_refl|reflexivity].
  - intros k Hk. apply Hsecs. apply Hk. exact Hcert.
Qed.

Lemma Reconcile_frame_witness :
  let cert := sampleCert [] None "" "" false in
  secretsWellKeyed (secrets (Reconcile ("default", "web") (sampleWorld 1000 cert)).2).
Proof.
  intros cert.
  assert (Hwf : certificatesWellKeyed (certificates (sampleWorld 1000 cert))).
  { intros k c H. cbn in H. apply lookup_insert_Some in H as [[<- <-]|[_ H]];
      [reflexivity|]. rewrite lookup_empty in H. discriminate. }
  apply (Reconcile_frame ("default", "web") (sampleWorld 1000 cert) Hwf
           secretsWellKeyed_empty).
Defined.

(** ** Replaying the correlator *)

(** The store after one run of the correlator without faults. *)
Lemma restartDeployments_store (cert : Certificate.t) (w : World) :
  (forall n, fault (env w) n = None) ->
  deploymentsWellKeyed (deployments w) ->
  let ns := Certificate.Namespace cert in
  let secretName := CertificateSpec.SecretName (Certificate.Spec cert) in
  let run := restartDeployments cert w in
  run.1 = None /\ env run.2 = env w /\
  (forall k, deployments w !! k = None -> deployments run.2 !! k = None) /\
  (forall k d, deployments w !! k = Some d ->
     if String.eqb (Deployment.Namespace d) ns && deploymentUsesSecret d secretName
     then exists ts, deployments run.2 !! k = Some (restartAnnotated ts d)
     else deployments run.2 !! k = Some d).
Proof.
  intros Hfault Hwf ns secretName run. subst run.
  unfold restartDeployments, bind, Client.List_Deployments, Client.nextFault.
  rewrite Hfault. fold ns secretName.
  set (items := Client.inNamespace ns (deployments w)).
  set (w0 := called (EvListDeployments ns None) w).
  assert (Hheld : forall d, In d items -> deployments w0 !! Deployment.key d = Some d).
  { intros d Hd. apply inNamespace_In in Hd as [(k & Hk) _].
    rewrite (Hwf _ _ Hk). exact Hk. }
  pose proof (restartEach_store secretName items 0 w0 Hfault
                (inNamespace_NoDup ns _ Hwf) Hheld) as (_ & Hout & Hin).
  pose proof (restartEach_attempts secretName items 0 w0)
    as (evs & _ & _ & _ & Henv & _).
  destruct (restartEach secretName items 0 w0) as [count w1]. cbn [fst snd] in *.
  cbn [env deployments logged]. split; [reflexivity|]. split; [exact Henv|]. split.
  - intros k Hk. rewrite Hout; [exact Hk|].
    intros d Hd Heq. apply inNamespace_In in Hd as [(k' & Hk') _].
    rewrite (Hwf _ _ Hk') in Heq. subst k'. congruence.
  - intros k d Hk. pose proof (Hwf _ _ Hk) as Hkey.
    destruct (String.eqb_spec (Deployment.Namespace d) ns) as [Hns|Hns]; cbn [andb].
    + assert (Hd : In d items) by (apply inNamespace_In; eauto).
      specialize (Hin d Hd). rewrite Hkey in Hin. exact Hin.
    + rewrite Hout; [exact Hk|].
      intros d' Hd' Heq. apply inNamespace_In in Hd' as [(k' & Hk') Hns'].
      rewrite (Hwf _ _ Hk') in Heq. subst k'.
      assert (d' = d) by congruence. subst d'. contradiction.
Qed.

Lemma restartAnnotated_again (ts1 ts2 : string) (d : Deployment.t) :
  restartAnnotated ts2 (restartAnnotated ts1 d) = restartAnnotated ts2 d.
Proof.
  unfold restartAnnotated, Deployment.SetTemplateAnnotations. cbn.
  rewrite insert_insert_eq. reflexivity.
Qed.

(** X16: the correlator can be replayed. Without faults and on a
    well-keyed store, two runs in a row both succeed and leave the store
    as one run would: each deployment of the namespace that uses the
    secret is the original with the restart annotation written once (the
    second timestamp overwrites the first), every other deployment is as it
    was, and no deployment appears or disappears. *)
Theorem restartDeployments_twice (cert : Certificate.t) (w : World) :
  (forall n, fault (env w) n = None) ->
  deploymentsWellKeyed (deployments w) ->
  let ns := Certificate.Namespace cert in
  let secretName := CertificateSpec.SecretName (Certificate.Spec cert) in
  let first := restartDeployments cert w in
  let second := restartDeployments cert first.2 in
  first.1 = None /\ second.1 = None /\
  (forall k, deployments w !! k = None -> deployments second.2 !! k = None) /\
  (forall k d, deployments w !! k = Some d ->
     if String.eqb (Deployment.Namespace d) ns && deploymentUsesSecret d secretName
     then exists ts, deployments second.2 !! k = Some (restartAnnotated ts d)
     else deployments second.2 !! k = Some d).
Proof.
  intros Hfault Hwf ns secretName first second.
  destruct (restartDeployments_store cert w Hfault Hwf)
    as (Hret1 & Henv1 & Hnone1 & Hsome1).
  fold first ns secretName in Hret1, Henv1, Hnone1, Hsome1.
  assert (Hwf1 : deploymentsWellKeyed (deployments first.2)).
  { intros k d' Hk'. destruct (deployments w !! k) as [d|] eqn:Hk.
    - specialize (Hsome1 k d Hk).
      destruct (_ && _).
      + destruct Hsome1 as (ts & Hts). rewrite Hts in Hk'. injection Hk' as <-.
        rewrite restartAnnotated_key. exact (Hwf _ _ Hk).
      + rewrite Hsome1 in Hk'. injection Hk' as <-. exact (Hwf _ _ Hk).
    - rewrite (Hnone1 k Hk) in Hk'. discriminate. }
  assert (Hfault1 : forall n, fault (env first.2) n = None)
    by (intros n; rewrite Henv1; apply Hfault).
  destruct (restartDeployments_store cert first.2 Hfault1 Hwf1)
    as (Hret2 & _ & Hnone2 & Hsome2).
  fold second ns secretName in Hret2, Hnone2, Hsome2.
  split; [exact Hret1|]. split; [exact Hret2|]. split.
  - intros k Hk. apply Hnone2, Hnone1, Hk.
  - intros k d Hk. specialize (Hsome1 k d Hk).
    destruct (String.eqb (Deployment.Namespace d) ns
              && deploymentUsesSecret d secretName) eqn:Hmatch.
    + destruct Hsome1 as (ts1 & Hts1). specialize (Hsome2 k _ Hts1).
      change (Deployment.Namespace (restartAnnotated ts1 d))
        with (Deployment.Namespace d) in Hsome2.
      change (deploymentUsesSecret (restartAnnotated ts1 d) secretName)
        with (deploymentUsesSecret d secretName) in Hsome2.
      rewrite Hmatch in Hsome2. destruct Hsome2 as (ts2 & Hts2).
      exists ts2. rewrite Hts2, restartAnnotated_again. reflexivity.
    + specialize (Hsome2 k d Hsome1). rewrite Hmatch in Hsome2. exact Hsome2.
Qed.

Lemma restartDeployments_twice_witness :
  (restartDeployments scenarioCert
     (restartDeployments scenarioCert (scenarioWorld noFault)).2).1 = None.
Proof.
  apply (restartDeployments_twice scenarioCert (scenarioWorld noFault)
           (fun _ => eq_refl) (scenario_wellKeyed noFault)).
Defined.

Lemma Reconcile_outcome_witness :
  (Reconcile ("default", "web")
     (scenarioWorld (failAt 0))).1.1 = Result.empty.
Proof.
  apply (proj2 (proj2 (Reconcile_outcome ("default", "web") (scenarioWorld (failAt 0))))).
  vm_compute. discriminate.
Defined.
